(** * V2V simulator: protocol, medium, vehicles and the tick loop

    A shallow embedding of [src/SimulationEngine]: [message.py],
    [config.py], [network_simulator.py], [protocol.py], [vehicle.py] and
    the loop of [simulation_engine.py].

    Modelling conventions.
    - Python floats are exact rationals ([Q]), kept in lowest terms by the
      arithmetic helpers below; rounding is not modelled.  What is proved
      about a float is therefore an order, a sign, or an identity that
      rounding keeps, never the exact value of a sum or a product.  One
      consequence for runs: [env.now] is here the exact multiple of the time
      step, where the code accumulates rounded sums, so the code sends its
      first BSM in the twelfth turn of the loop and the model in the
      eleventh; the runs the examples use are long enough for both to have
      sent and delivered it.  [in_range] compares squares where the code
      compares the rounded square root.
    - [time.time()] and [random.randint(1, 100)] are oracles: the state
      carries the sequence of their successive results and a cursor.
    - Python objects are modelled by value.  Where the source mutates a
      message that the unacked deque also references, the deque entry is
      rewritten together with it.  A frame pending in the medium is a copy:
      a CWM that [manage] restamps while a frame of it is still pending
      keeps, in that frame, the old timestamp.
    - A [dict] is an association list in insertion order.
    - [queue.PriorityQueue] is a list kept ordered by [__lt__]; [get] takes
      the head, and messages of which neither precedes the other leave in
      the order they came, which the heap of the code does not promise. *)

From Stdlib Require Import ZArith QArith List String Ascii Bool Lia Lqa DecimalString.
From Stdlib.Strings Require Import Byte.
From Stdlib Require DecimalZ.
Import ListNotations.

Local Open Scope Q_scope.

(** ** Floats *)

Definition fadd (a b : Q) : Q := Qred (a + b).
Definition fsub (a b : Q) : Q := Qred (a - b).
Definition fmul (a b : Q) : Q := Qred (a * b).
Definition fdiv (a b : Q) : Q := Qred (a / b).
Definition fneg (a : Q) : Q := Qred (- a).

Definition fle (a b : Q) : bool := Qle_bool a b.
Definition fge (a b : Q) : bool := Qle_bool b a.
Definition flt (a b : Q) : bool := negb (Qle_bool b a).
Definition fgt (a b : Q) : bool := negb (Qle_bool a b).
Definition feq (a b : Q) : bool := Qeq_bool a b.

Definition fmax (a b : Q) : Q := if fgt b a then b else a.
Definition fmin (a b : Q) : Q := if flt b a then b else a.

(** [numpy] float64 values, with the non-finite ones [np.isfinite] rejects. *)
Inductive npfloat : Type :=
| Fin (q : Q)
| PInf
| NInf
| NaN.

(** [numpy] complex128: what [np.roots] returns when a root is not real. *)
Record npcomplex : Type := mkComplex { re : npfloat; im : npfloat }.

Definition of_real (q : Q) : npcomplex := mkComplex (Fin q) (Fin 0).

Definition npf_isfinite (x : npfloat) : bool :=
  match x with Fin _ => true | _ => false end.

Definition npf_isnan (x : npfloat) : bool :=
  match x with NaN => true | _ => false end.

Definition npf_gt (x y : npfloat) : bool :=
  match x, y with
  | NaN, _ | _, NaN => false
  | PInf, PInf => false
  | PInf, _ => true
  | _, PInf => false
  | NInf, _ => false
  | Fin _, NInf => true
  | Fin a, Fin b => fgt a b
  end.

Definition npf_eq (x y : npfloat) : bool :=
  match x, y with
  | Fin a, Fin b => feq a b
  | PInf, PInf | NInf, NInf => true
  | _, _ => false
  end.

(** Ordering of complex numbers in numpy's comparison loops: by real
    part, then by imaginary part. *)
Definition npc_gt (x y : npcomplex) : bool :=
  (npf_gt (re x) (re y) && negb (npf_isnan (im x)) && negb (npf_isnan (im y)))
  || (npf_eq (re x) (re y) && npf_gt (im x) (im y)).

Definition npc_lt (x y : npcomplex) : bool := npc_gt y x.

Definition npc_isfinite (x : npcomplex) : bool :=
  npf_isfinite (re x) && npf_isfinite (im x).

(** ** Dictionaries in insertion order *)

Module PyDict.
Section WithKey.
Context {K V : Type} (eqb : K -> K -> bool).

Definition t := list (K * V).

Fixpoint get (d : t) (k : K) : option V :=
  match d with
  | [] => None
  | (k', v) :: r => if eqb k' k then Some v else get r k
  end.

(** [d[k] = v]: an existing key keeps its place. *)
Fixpoint set (d : t) (k : K) (v : V) : t :=
  match d with
  | [] => [(k, v)]
  | (k', v') :: r =>
      if eqb k' k then (k', v) :: r else (k', v') :: set r k v
  end.

(** [del d[k]], used by the source on keys it has just read. *)
Fixpoint del (d : t) (k : K) : t :=
  match d with
  | [] => []
  | (k', v') :: r => if eqb k' k then r else (k', v') :: del r k
  end.
End WithKey.
End PyDict.

Definition bytes := list byte.

Fixpoint bytes_eqb (a b : bytes) : bool :=
  match a, b with
  | [], [] => true
  | x :: a', y :: b' => Byte.eqb x y && bytes_eqb a' b'
  | _, _ => false
  end.

(** ** config.py *)

Module CONFIG.
Definition COMMUNICATION_RANGE : Q := 300.
Definition MAX_LATENCY : Q := 10 # 1000.
Definition BSM_INTERVAL : Q := 1 # 10.
Definition CWM_MAX_DELAY : Q := 5 # 1000.
Definition RETRANSMIT : Q := 5 # 10000.
Definition CONNECTION_TIME : Q := 5 # 10.
Definition PACKET_LOSS : Q := 5 # 100.
Definition MIN_VEHICLES : Z := 10.
Definition HIGHWAY_SPEED : Q := 278 # 10.
Definition CITY_SPEED : Q := 111 # 10.
Definition COLLISION_TIME_THRESHOLD : Q := 3.
Definition VEHICLE_LENGTH : Q := 45 # 10.
Definition VEHICLE_WIDTH : Q := 2.
Definition MAX_DECELERATION : Q := 8.
Definition MAX_ACCELERATION : Q := 3.
Definition TIMESTEP : Q := 25 # 100000.
Definition SIMULATION_TIMESTEP : Q := 1 # 100.
End CONFIG.

(** ** message.py *)

Inductive MessageType : Type := ACK | BSM | CWM.

Definition MessageType_value (t : MessageType) : string :=
  match t with
  | ACK => "acknowledge_message"
  | BSM => "basic_safety_message"
  | CWM => "collision_warning_message"
  end.

Inductive Priority : Type := NORMAL | EMERGENCY.

Definition Priority_value (p : Priority) : Z :=
  match p with NORMAL => 1 | EMERGENCY => 0 end%Z.

Record BasicSafetyMessage : Type := mkBSM {
  bsm_vehicle_id : string;
  bsm_timestamp : Q;
  bsm_position_x : Q;
  bsm_position_y : Q;
  bsm_velocity : Q;
  bsm_heading : Q;
  bsm_acceleration : Q;
  bsm_length : Q;
  bsm_width : Q
}.

Record CollisionWarningMessage : Type := mkCWM {
  cwm_vehicle_id : string;
  cwm_timestamp : Q;
  cwm_sequence_number : Z;
  cwm_warning_type : string;
  cwm_target_vehicle_id : string;
  cwm_time_to_collision : npcomplex
}.

Record AcknowledgementMessage : Type := mkACK {
  ack_vehicle_id : string;
  ack_timestamp : Q;
  ack_sequence_number : Z;
  ack_target_vehicle_id : string
}.

(** The three dataclasses derived from [V2VMessage]. *)
Inductive V2VMessage : Type :=
| MsgBSM (bsm : BasicSafetyMessage)
| MsgCWM (cwm : CollisionWarningMessage)
| MsgACK (ack : AcknowledgementMessage).

(** Set by each [__post_init__]. *)
Definition message_type (m : V2VMessage) : MessageType :=
  match m with MsgBSM _ => BSM | MsgCWM _ => CWM | MsgACK _ => ACK end.

Definition priority (m : V2VMessage) : Priority :=
  match m with MsgCWM _ => EMERGENCY | _ => NORMAL end.

Definition vehicle_id (m : V2VMessage) : string :=
  match m with
  | MsgBSM b => bsm_vehicle_id b
  | MsgCWM c => cwm_vehicle_id c
  | MsgACK a => ack_vehicle_id a
  end.

Definition timestamp (m : V2VMessage) : Q :=
  match m with
  | MsgBSM b => bsm_timestamp b
  | MsgCWM c => cwm_timestamp c
  | MsgACK a => ack_timestamp a
  end.

Definition cwm_set_timestamp (t : Q) (c : CollisionWarningMessage) :=
  mkCWM (cwm_vehicle_id c) t (cwm_sequence_number c) (cwm_warning_type c)
        (cwm_target_vehicle_id c) (cwm_time_to_collision c).

(** [message.timestamp = t] *)
Definition set_timestamp (t : Q) (m : V2VMessage) : V2VMessage :=
  match m with
  | MsgBSM b =>
      MsgBSM (mkBSM (bsm_vehicle_id b) t (bsm_position_x b) (bsm_position_y b)
                    (bsm_velocity b) (bsm_heading b) (bsm_acceleration b)
                    (bsm_length b) (bsm_width b))
  | MsgCWM c => MsgCWM (cwm_set_timestamp t c)
  | MsgACK a =>
      MsgACK (mkACK (ack_vehicle_id a) t (ack_sequence_number a)
                    (ack_target_vehicle_id a))
  end.

(** [getattr(message, 'target_vehicle_id')], [None] for a BSM, which has
    no such attribute. *)
Definition target_vehicle_id (m : V2VMessage) : option string :=
  match m with
  | MsgBSM _ => None
  | MsgCWM c => Some (cwm_target_vehicle_id c)
  | MsgACK a => Some (ack_target_vehicle_id a)
  end.

(** [V2VMessage.__lt__] *)
Definition msg_lt (self other : V2VMessage) : bool :=
  if negb (Z.eqb (Priority_value (priority self)) (Priority_value (priority other)))
  then Z.ltb (Priority_value (priority self)) (Priority_value (priority other))
  else flt (timestamp self) (timestamp other).

(** *** [to_json] and the digest *)

Local Open Scope string_scope.

Inductive json : Type :=
| JString (s : string)
| JInt (z : Z)
| JFloat (q : Q).

Definition string_of_Z (z : Z) : string := NilZero.string_of_int (Z.to_int z).

(** Floats are printed as reduced fractions, an injective stand-in for
    Python's shortest round-trip [repr]. *)
Definition repr_float (q : Q) : string :=
  let r := Qred q in
  string_of_Z (Qnum r) ++ "/" ++ string_of_Z (Zpos (Qden r)).

Definition repr_npfloat (x : npfloat) : string :=
  match x with
  | Fin q => repr_float q
  | PInf => "inf"
  | NInf => "-inf"
  | NaN => "nan"
  end.

Definition quote : string := String (ascii_of_nat 34) EmptyString.
Definition backslash : ascii := ascii_of_nat 92.

(** [json.dumps] of a [str]: the text between quotes, quote and backslash
    escaped. *)
Fixpoint json_escape (s : string) : string :=
  match s with
  | EmptyString => EmptyString
  | String c r =>
      if (Ascii.eqb c (ascii_of_nat 34) || Ascii.eqb c backslash)%bool
      then String backslash (String c (json_escape r))
      else String c (json_escape r)
  end.

Definition json_dumps_str (s : string) : string :=
  quote ++ json_escape s ++ quote.

Definition json_dumps_value (v : json) : string :=
  match v with
  | JString s => json_dumps_str s
  | JInt z => string_of_Z z
  | JFloat q => repr_float q
  end.

Fixpoint json_dumps_items (l : list (string * json)) : string :=
  match l with
  | [] => ""
  | [(k, v)] => json_dumps_str k ++ ": " ++ json_dumps_value v
  | (k, v) :: r =>
      json_dumps_str k ++ ": " ++ json_dumps_value v ++ ", " ++ json_dumps_items r
  end.

Definition json_dumps_dict (l : list (string * json)) : string :=
  "{" ++ json_dumps_items l ++ "}".

(** A real root is an [np.float64], which [json.dumps] prints as a float;
    anything else goes through [default], that is [str(o)]. *)
Definition json_of_ttc (c : npcomplex) : json :=
  match re c, im c with
  | Fin r, Fin i =>
      if feq i 0 then JFloat r
      else JString ("(" ++ repr_float r ++ "+" ++ repr_float i ++ "j)")
  | r, i => JString ("(" ++ repr_npfloat r ++ "+" ++ repr_npfloat i ++ "j)")
  end.

(** [dataclasses.asdict]: the header fields first, then the fields of the
    derived class, enums replaced by their values as [default] does. *)
Definition asdict (m : V2VMessage) : list (string * json) :=
  [ ("message_type", JString (MessageType_value (message_type m)));
    ("priority", JInt (Priority_value (priority m)));
    ("vehicle_id", JString (vehicle_id m));
    ("timestamp", JFloat (timestamp m)) ]
  ++
  match m with
  | MsgBSM b =>
      [ ("position_x", JFloat (bsm_position_x b));
        ("position_y", JFloat (bsm_position_y b));
        ("velocity", JFloat (bsm_velocity b));
        ("heading", JFloat (bsm_heading b));
        ("acceleration", JFloat (bsm_acceleration b));
        ("length", JFloat (bsm_length b));
        ("width", JFloat (bsm_width b)) ]
  | MsgCWM c =>
      [ ("sequence_number", JInt (cwm_sequence_number c));
        ("warning_type", JString (cwm_warning_type c));
        ("target_vehicle_id", JString (cwm_target_vehicle_id c));
        ("time_to_collision", json_of_ttc (cwm_time_to_collision c)) ]
  | MsgACK a =>
      [ ("sequence_number", JInt (ack_sequence_number a));
        ("target_vehicle_id", JString (ack_target_vehicle_id a)) ]
  end.

(** [V2VMessage.to_json] *)
Definition to_json (m : V2VMessage) : string := json_dumps_dict (asdict m).

Local Close Scope string_scope.

(** ** Outcomes, oracles and the state monad *)

(** [OutOfFuel] is not a Python exception: it marks a bounded loop of the
    model that used up its bound, which [process_messages_fuel] shows
    never happens. *)
Inductive Exn : Type :=
| IndexError
| ZeroDivisionError
| OutOfFuel.

(** A frame handed to [broadcast_message]. *)
Record Frame : Type := mkFrame {
  frame_sender : string;
  frame_message : V2VMessage;
  frame_hash : bytes
}.

(** [NetworkSimulator].  [history] is ghost state: every call of
    [broadcast_message], most recent first, dropped or not.  No operation
    reads it. *)
Record NetworkSimulator : Type := mkNet {
  all_messages : list (bytes * (string * V2VMessage));
  lost_packets : Z;
  total_packets : Z;
  total_latency : Q;
  history : list Frame
}.

Record Sys : Type := mkSys {
  wall : nat -> Q;        (* successive results of time.time() *)
  wall_idx : nat;
  dice : nat -> Z;        (* successive results of random.randint(1, 100) *)
  dice_idx : nat;
  net : NetworkSimulator
}.

Inductive Outcome (A : Type) : Type :=
| Ok (a : A) (s : Sys)
| Raise (e : Exn).
Arguments Ok {A} a s.
Arguments Raise {A} e.

Definition M (A : Type) : Type := Sys -> Outcome A.

Definition ret {A} (a : A) : M A := fun s => Ok a s.

Definition bind {A B} (m : M A) (f : A -> M B) : M B :=
  fun s => match m s with
           | Ok a s' => f a s'
           | Raise e => Raise e
           end.

Definition raise {A} (e : Exn) : M A := fun _ => Raise e.

Declare Scope py_scope.
Delimit Scope py_scope with py.
Notation "x <- c1 ;; c2" := (bind c1 (fun x => c2))
  (at level 100, c1 at next level, right associativity) : py_scope.
Notation "c1 ;; c2" := (bind c1 (fun _ => c2))
  (at level 100, right associativity) : py_scope.
Local Open Scope py_scope.

(** [time.time()] *)
Definition time_time : M Q :=
  fun s => Ok (wall s (wall_idx s))
              (mkSys (wall s) (S (wall_idx s)) (dice s) (dice_idx s) (net s)).

(** [random.randint(1, 100)] *)
Definition randint_1_100 : M Z :=
  fun s => Ok (dice s (dice_idx s))
              (mkSys (wall s) (wall_idx s) (dice s) (S (dice_idx s)) (net s)).

Definition get_net : M NetworkSimulator := fun s => Ok (net s) s.

Definition put_net (n : NetworkSimulator) : M unit :=
  fun s => Ok tt (mkSys (wall s) (wall_idx s) (dice s) (dice_idx s) n).

(** ** network_simulator.py *)

(** Python's [/] on an int divisor. *)
Definition py_div (a : Q) (b : Z) : Exn + Q :=
  if Z.eqb b 0 then inl ZeroDivisionError else inr (fdiv a (inject_Z b)).

Definition get_average_latency (self : NetworkSimulator) : Exn + Q :=
  if Z.eqb (total_packets self) 0 then inr 0
  else py_div (total_latency self) (total_packets self).

Definition get_packet_loss (self : NetworkSimulator) : Exn + Q :=
  if Z.eqb (total_packets self) 0 then inr 0
  else py_div (inject_Z (lost_packets self)) (total_packets self).

Definition broadcast_message (send_vehicle : string) (message : V2VMessage)
    (message_hash : bytes) : M unit :=
  n <- get_net ;;
  let n1 := mkNet (all_messages n) (lost_packets n) (total_packets n + 1)%Z
                  (total_latency n)
                  (mkFrame send_vehicle message message_hash :: history n) in
  put_net n1 ;;
  r <- randint_1_100 ;;
  if fle (fdiv (inject_Z r) 100) CONFIG.PACKET_LOSS
  then put_net (mkNet (all_messages n1) (lost_packets n1 + 1)%Z (total_packets n1)
                      (total_latency n1) (history n1))
  else put_net (mkNet (PyDict.set bytes_eqb (all_messages n1) message_hash
                                  (send_vehicle, message))
                      (lost_packets n1) (total_packets n1)
                      (total_latency n1) (history n1)).

(** ** protocol.py *)

Record CWMConnection : Type := mkConn {
  cwms : list CollisionWarningMessage;  (* the deque, head first *)
  transmit_time : Q;
  last_use : Q;
  send_seq_num : Z;
  recv_seq_num : Z
}.

(** [CWMConnection(send_seq_num, recv_seq_num)] *)
Definition new_connection (send recv : Z) : CWMConnection :=
  mkConn [] 0 0 send recv.

Definition set_cwms (l : list CollisionWarningMessage) (c : CWMConnection) :=
  mkConn l (transmit_time c) (last_use c) (send_seq_num c) (recv_seq_num c).
Definition set_transmit_time (t : Q) (c : CWMConnection) :=
  mkConn (cwms c) t (last_use c) (send_seq_num c) (recv_seq_num c).
Definition set_last_use (t : Q) (c : CWMConnection) :=
  mkConn (cwms c) (transmit_time c) t (send_seq_num c) (recv_seq_num c).

Definition add_cwm (cwm : CollisionWarningMessage) (c : CWMConnection) :=
  set_cwms (cwms c ++ [cwm]) c.
Definition inc_send_seq_num (c : CWMConnection) :=
  mkConn (cwms c) (transmit_time c) (last_use c) (send_seq_num c + 1)%Z (recv_seq_num c).
Definition inc_recv_seq_num (c : CWMConnection) :=
  mkConn (cwms c) (transmit_time c) (last_use c) (send_seq_num c) (recv_seq_num c + 1)%Z.

(** [next_cwm]: [popleft], which raises on an empty deque. *)
Definition next_cwm (c : CWMConnection) : Exn + CWMConnection :=
  match cwms c with
  | [] => inl IndexError
  | _ :: rest => inr (set_cwms rest c)
  end.

Definition Connections := list (string * CWMConnection).

Record Protocol : Type := mkProtocol {
  outgoing_cwms : Connections;
  incoming_messages : list V2VMessage
}.

Definition new_protocol : Protocol := mkProtocol [] [].

Definition conn_get (d : Connections) (k : string) : option CWMConnection :=
  PyDict.get String.eqb d k.
Definition conn_set (d : Connections) (k : string) (c : CWMConnection) : Connections :=
  PyDict.set String.eqb d k c.
Definition conn_del (d : Connections) (k : string) : Connections :=
  PyDict.del String.eqb d k.

Definition get_seq_num (self : Protocol) (target : string) : Z :=
  match conn_get (outgoing_cwms self) target with
  | None => 0%Z
  | Some cwm_connection => send_seq_num cwm_connection
  end.

(** [PriorityQueue.put]: after the entries that are not greater. *)
Fixpoint pq_put (m : V2VMessage) (q : list V2VMessage) : list V2VMessage :=
  match q with
  | [] => [m]
  | x :: r => if msg_lt m x then m :: x :: r else x :: pq_put m r
  end.

(** [create_ack] *)
Definition create_ack (vehicle : string) (sequence_number : Z)
    (target : string) : M AcknowledgementMessage :=
  t <- time_time ;;
  ret (mkACK vehicle t sequence_number target).

(** Stamps the object [send] has just appended, the last of the deque. *)
Fixpoint stamp_last (t : Q) (l : list CollisionWarningMessage) :=
  match l with
  | [] => []
  | [c] => [cwm_set_timestamp t c]
  | c :: r => c :: stamp_last t r
  end.

Section Simulator.

(** [hashlib.sha256(...).digest()] *)
Variable sha256 : bytes -> bytes.

(** [np.roots], coefficients from the highest degree down. *)
Variable np_roots : list Q -> list npcomplex.

Definition get_message_hash (message : V2VMessage) : bytes :=
  sha256 (list_byte_of_string (json_dumps_str (to_json message))).

(** [Protocol.send].  The vehicle is passed by its id, the only field
    the protocol and the medium read.  The two statements that end the
    source function, stamping and broadcasting, are written out in both
    branches. *)
Definition send (self : Protocol) (vehicle : string) (message : V2VMessage)
    : M Protocol :=
  let message_hash := get_message_hash message in
  match message with
  | MsgCWM cwm =>
      let key := cwm_target_vehicle_id cwm in
      let '(table, cwm_connection) :=
        match conn_get (outgoing_cwms self) key with
        | None =>
            let c := new_connection 0 0 in
            (conn_set (outgoing_cwms self) key c, c)
        | Some c => (outgoing_cwms self, c)
        end in
      t <- time_time ;;
      let cwm_connection := add_cwm cwm (set_last_use t cwm_connection) in
      if (1 <? Z.of_nat (List.length (cwms cwm_connection)))%Z
      then ret (mkProtocol (conn_set table key cwm_connection)
                           (incoming_messages self))
      else
        let cwm_connection :=
          set_transmit_time (last_use cwm_connection) cwm_connection in
        t' <- time_time ;;
        let cwm_connection :=
          set_cwms (stamp_last t' (cwms cwm_connection)) cwm_connection in
        broadcast_message vehicle (MsgCWM (cwm_set_timestamp t' cwm)) message_hash ;;
        ret (mkProtocol (conn_set table key cwm_connection)
                        (incoming_messages self))
  | _ =>
      t <- time_time ;;
      broadcast_message vehicle (set_timestamp t message) message_hash ;;
      ret self
  end.

(** [Protocol.receive] *)
Definition receive (self : Protocol) (vehicle : string) (message : V2VMessage)
    (message_hash : bytes) : Protocol :=
  let wrong_target :=
    match target_vehicle_id message with
    | Some target => negb (String.eqb vehicle target)
    | None => false
    end in
  if wrong_target then self
  else
    let second_message_hash := get_message_hash message in
    if negb (bytes_eqb second_message_hash message_hash) then self
    else mkProtocol (outgoing_cwms self) (pq_put message (incoming_messages self)).

(** What one turn of the [while True] loop of [Protocol.process] does
    after [get]: go round again with the table updated, or return. *)
Inductive Turn : Type :=
| Continue (table : Connections)
| Return (table : Connections) (message : V2VMessage).

(** One turn of the loop of [Protocol.process] on the dequeued [message];
    [table] is [self.outgoing_cwms] and [rest] what is left of the inbound
    queue. *)
Definition process_message (message : V2VMessage) (rest : list V2VMessage)
    (table : Connections) (vehicle : string) : M Turn :=
  match message with
  | MsgCWM cwm =>
      let key := cwm_vehicle_id cwm in
      let '(table, cwm_connection) :=
        match conn_get table key with
        | None =>
            let c := new_connection 0 0 in (conn_set table key c, c)
        | Some c => (table, c)
        end in
      t <- time_time ;;
      let cwm_connection := set_last_use t cwm_connection in
      let table := conn_set table key cwm_connection in
      if (cwm_sequence_number cwm >? recv_seq_num cwm_connection)%Z
      then ret (Continue table)
      else
        ack <- create_ack vehicle (cwm_sequence_number cwm) key ;;
        self' <- send (mkProtocol table rest) vehicle (MsgACK ack) ;;
        let table := outgoing_cwms self' in
        if (cwm_sequence_number cwm =? recv_seq_num cwm_connection)%Z
        then ret (Return (conn_set table key (inc_recv_seq_num cwm_connection))
                         message)
        else ret (Continue table)
  | MsgACK ack =>
      let key := ack_vehicle_id ack in
      match conn_get table key with
      | None => ret (Continue table)
      | Some cwm_connection =>
          t <- time_time ;;
          let cwm_connection := set_last_use t cwm_connection in
          if (ack_sequence_number ack =? send_seq_num cwm_connection)%Z
          then
            match next_cwm (inc_send_seq_num cwm_connection) with
            | inl e => raise e
            | inr cwm_connection =>
                match cwms cwm_connection with
                | [] => ret (Continue (conn_set table key cwm_connection))
                | next :: others =>
                    t1 <- time_time ;;
                    let cwm_connection := set_transmit_time t1 cwm_connection in
                    t2 <- time_time ;;
                    let next := cwm_set_timestamp t2 next in
                    let cwm_connection :=
                      set_cwms (next :: others) cwm_connection in
                    broadcast_message vehicle (MsgCWM next)
                                      (get_message_hash (MsgCWM next)) ;;
                    ret (Continue (conn_set table key cwm_connection))
                end
            end
          else ret (Continue (conn_set table key cwm_connection))
      end
  | MsgBSM _ => ret (Return table message)
  end.

(** The loop of [Protocol.process], by recursion on the inbound queue:
    [get(False)] takes the head and raises [Empty], which the function
    catches, on the empty queue. *)
Fixpoint process_queue (queue : list V2VMessage) (table : Connections)
    (vehicle : string) : M (Protocol * option V2VMessage) :=
  match queue with
  | [] => ret (mkProtocol table [], None)
  | message :: rest =>
      turn <- process_message message rest table vehicle ;;
      match turn with
      | Continue table => process_queue rest table vehicle
      | Return table message => ret (mkProtocol table rest, Some message)
      end
  end.

(** [Protocol.process] *)
Definition process (self : Protocol) (vehicle : string)
    : M (Protocol * option V2VMessage) :=
  process_queue (incoming_messages self) (outgoing_cwms self) vehicle.

(** One turn of the [for] loop of [Protocol.manage]. *)
Definition manage_item (key : string) (cwm_connection : CWMConnection)
    (table : Connections) (vehicle : string) : M Connections :=
  match cwms cwm_connection with
  | [] =>
      t <- time_time ;;
      if fgt (fsub t (last_use cwm_connection)) CONFIG.CONNECTION_TIME
      then ret (conn_del table key)
      else ret table
  | cwm :: others =>
      t <- time_time ;;
      if fgt (fsub t (transmit_time cwm_connection)) CONFIG.RETRANSMIT
      then
        t1 <- time_time ;;
        let cwm_connection := set_transmit_time t1 cwm_connection in
        t2 <- time_time ;;
        let cwm := cwm_set_timestamp t2 cwm in
        let cwm_connection := set_cwms (cwm :: others) cwm_connection in
        broadcast_message vehicle (MsgCWM cwm) (get_message_hash (MsgCWM cwm)) ;;
        ret (conn_set table key cwm_connection)
      else ret table
  end.

(** The loop of [Protocol.manage] over the snapshot
    [list(self.outgoing_cwms.items())]. *)
Fixpoint manage_items (items : list (string * CWMConnection))
    (table : Connections) (vehicle : string) : M Connections :=
  match items with
  | [] => ret table
  | (key, cwm_connection) :: rest =>
      table <- manage_item key cwm_connection table vehicle ;;
      manage_items rest table vehicle
  end.

(** [Protocol.manage] *)
Definition manage (self : Protocol) (vehicle : string) : M Protocol :=
  table <- manage_items (outgoing_cwms self) (outgoing_cwms self) vehicle ;;
  ret (mkProtocol table (incoming_messages self)).

(** ** vehicle.py *)

Record VehicleState : Type := mkVehicleState {
  vs_timestamp : Q;
  vs_position : Q * Q;
  vs_velocity : Q;
  vs_acceleration : Q;
  vs_heading : Q;
  vs_length : Q;
  vs_width : Q
}.

(** [VehicleState.__init__]: the timestamp is read from the clock. *)
Definition new_VehicleState (position : Q * Q) (velocity acceleration heading
    length width : Q) : M VehicleState :=
  t <- time_time ;;
  ret (mkVehicleState t position velocity acceleration heading length width).

Definition VehicleMap := list (string * VehicleState).

Record Vehicle : Type := mkVehicle {
  v_vehicle_id : string;
  v_position : Q * Q;
  v_velocity : Q;
  v_acceleration : Q;
  v_heading : Q;
  v_protocol : Protocol;
  vehicle_map : VehicleMap;
  v_length : Q;
  v_width : Q;
  target_velocity : Q;
  emergency_braking : bool;
  last_bsm_time : Q;
  direction : Q * Q
}.

(** [Vehicle.__init__] *)
Definition new_Vehicle (vehicle_id : string) (initial_position : Q * Q)
    (initial_velocity : Q) : Vehicle :=
  mkVehicle vehicle_id initial_position initial_velocity 0 0 new_protocol []
            CONFIG.VEHICLE_LENGTH CONFIG.VEHICLE_WIDTH initial_velocity false 0
            (1, 0).

Definition set_protocol (p : Protocol) (v : Vehicle) : Vehicle :=
  mkVehicle (v_vehicle_id v) (v_position v) (v_velocity v) (v_acceleration v)
            (v_heading v) p (vehicle_map v) (v_length v) (v_width v)
            (target_velocity v) (emergency_braking v) (last_bsm_time v)
            (direction v).

Definition set_vehicle_map (m : VehicleMap) (v : Vehicle) : Vehicle :=
  mkVehicle (v_vehicle_id v) (v_position v) (v_velocity v) (v_acceleration v)
            (v_heading v) (v_protocol v) m (v_length v) (v_width v)
            (target_velocity v) (emergency_braking v) (last_bsm_time v)
            (direction v).

Definition set_last_bsm_time (t : Q) (v : Vehicle) : Vehicle :=
  mkVehicle (v_vehicle_id v) (v_position v) (v_velocity v) (v_acceleration v)
            (v_heading v) (v_protocol v) (vehicle_map v) (v_length v) (v_width v)
            (target_velocity v) (emergency_braking v) t (direction v).

(** [np.clip] *)
Definition np_clip (x lo hi : Q) : Q := fmin hi (fmax x lo).

Definition update_physics (self : Vehicle) (dt : Q) : Vehicle :=
  let acceleration :=
    if emergency_braking self then fneg CONFIG.MAX_DECELERATION
    else
      let velocity_error := fsub (target_velocity self) (v_velocity self) in
      let desired_acceleration := fmul velocity_error 2 in
      np_clip desired_acceleration (fneg CONFIG.MAX_DECELERATION)
              CONFIG.MAX_ACCELERATION in
  let velocity := fadd (v_velocity self) (fmul acceleration dt) in
  let velocity := fmax 0 velocity in
  let velocity_vector :=
    (fmul (fst (direction self)) velocity, fmul (snd (direction self)) velocity) in
  let position :=
    (fadd (fst (v_position self)) (fmul (fst velocity_vector) dt),
     fadd (snd (v_position self)) (fmul (snd velocity_vector) dt)) in
  mkVehicle (v_vehicle_id self) position velocity acceleration (v_heading self)
            (v_protocol self) (vehicle_map self) (v_length self) (v_width self)
            (target_velocity self) (emergency_braking self) (last_bsm_time self)
            (direction self).

Definition should_send_bsm (self : Vehicle) (current_time : Q) : bool :=
  fge (fsub current_time (last_bsm_time self)) CONFIG.BSM_INTERVAL.

(** [create_bsm] *)
Definition create_bsm (vehicle : Vehicle) : M BasicSafetyMessage :=
  t <- time_time ;;
  ret (mkBSM (v_vehicle_id vehicle) t (fst (v_position vehicle))
             (snd (v_position vehicle)) (v_velocity vehicle) (v_heading vehicle)
             (v_acceleration vehicle) (v_length vehicle) (v_width vehicle)).

(** [create_cwm] *)
Definition create_cwm (vehicle : Vehicle) (sequence_number : Z)
    (warning_type target : string) (time_to_collision : npcomplex)
    : M CollisionWarningMessage :=
  t <- time_time ;;
  ret (mkCWM (v_vehicle_id vehicle) t sequence_number warning_type target
             time_to_collision).

Definition generate_bsm (self : Vehicle) (current_time : Q)
    : M (Vehicle * BasicSafetyMessage) :=
  let self := set_last_bsm_time current_time self in
  bsm <- create_bsm self ;;
  ret (self, bsm).

Definition send_message (self : Vehicle) (message : V2VMessage) : M Vehicle :=
  p <- send (v_protocol self) (v_vehicle_id self) message ;;
  ret (set_protocol p self).

Definition receive_message (self : Vehicle) (message : V2VMessage)
    (message_hash : bytes) : Vehicle :=
  set_protocol (receive (v_protocol self) (v_vehicle_id self) message message_hash)
               self.

Definition vmap_set (m : VehicleMap) (k : string) (s : VehicleState) : VehicleMap :=
  PyDict.set String.eqb m k s.
Definition vmap_get (m : VehicleMap) (k : string) : option VehicleState :=
  PyDict.get String.eqb m k.
Definition vmap_del (m : VehicleMap) (k : string) : VehicleMap :=
  PyDict.del String.eqb m k.

(** What [process_messages] does with one message returned by
    [Protocol.process]. *)
Definition handle_message (self : Vehicle) (message : V2VMessage) : M Vehicle :=
  match message_type message, message with
  | BSM, MsgBSM bsm =>
      state <- new_VehicleState (bsm_position_x bsm, bsm_position_y bsm)
                                (bsm_velocity bsm) (bsm_acceleration bsm)
                                (bsm_heading bsm) (bsm_length bsm) (bsm_width bsm) ;;
      ret (set_vehicle_map (vmap_set (vehicle_map self) (bsm_vehicle_id bsm) state)
                           self)
  | _, _ => ret self
  end.

Definition protocol_process (self : Vehicle) : M (Vehicle * option V2VMessage) :=
  r <- process (v_protocol self) (v_vehicle_id self) ;;
  ret (set_protocol (fst r) self, snd r).

(** The [while message != None] loop of [process_messages].  Every turn
    takes at least one message off the inbound queue, so a bound above the
    queue length is never used up. *)
Fixpoint process_messages_loop (fuel : nat) (self : Vehicle)
    (message : option V2VMessage) : M Vehicle :=
  match message with
  | None => ret self
  | Some m =>
      match fuel with
      | O => raise OutOfFuel
      | S fuel' =>
          self <- handle_message self m ;;
          r <- protocol_process self ;;
          process_messages_loop fuel' (fst r) (snd r)
      end
  end.

Definition process_messages (self : Vehicle) : M Vehicle :=
  r <- protocol_process self ;;
  process_messages_loop (S (List.length (incoming_messages (v_protocol self))))
                        (fst r) (snd r).

(** The pruning loop of [Vehicle.manage]. *)
Fixpoint prune_items (items : list (string * VehicleState)) (m : VehicleMap)
    : M VehicleMap :=
  match items with
  | [] => ret m
  | (vehicle_id, vehicle_state) :: rest =>
      t <- time_time ;;
      if fgt (fsub t (vs_timestamp vehicle_state)) CONFIG.CONNECTION_TIME
      then prune_items rest (vmap_del m vehicle_id)
      else prune_items rest m
  end.

(** [Vehicle.manage] *)
Definition vehicle_manage (self : Vehicle) : M Vehicle :=
  p <- manage (v_protocol self) (v_vehicle_id self) ;;
  let self := set_protocol p self in
  m <- prune_items (vehicle_map self) (vehicle_map self) ;;
  ret (set_vehicle_map m self).

Definition activate_emergency_braking (self : Vehicle) : Vehicle :=
  mkVehicle (v_vehicle_id self) (v_position self) (v_velocity self)
            (v_acceleration self) (v_heading self) (v_protocol self)
            (vehicle_map self) (v_length self) (v_width self) 0 true
            (last_bsm_time self) (direction self).

(** The distance from the front bumper of the rear vehicle to the rear
    bumper of the front vehicle. *)
Definition bumper_gap (self : Vehicle) (front_vehicle : VehicleState) : Q :=
  fsub (fsub (fst (vs_position front_vehicle)) (fdiv (vs_length front_vehicle) 2))
       (fadd (fst (v_position self)) (fdiv (v_length self) 2)).

(** The list [coeff] of [compute_ttc]. *)
Definition ttc_coeff (self : Vehicle) (front_vehicle : VehicleState) : list Q :=
  [ fdiv (fsub (vs_acceleration front_vehicle) (v_acceleration self)) 2;
    fsub (vs_velocity front_vehicle) (v_velocity self);
    bumper_gap self front_vehicle ].

(** [Vehicle.compute_ttc] *)
Definition compute_ttc (self : Vehicle) (front_vehicle : VehicleState)
    : option npcomplex :=
  let bumper_to_bumper_distance := bumper_gap self front_vehicle in
  let coeff :=
    [ fdiv (fsub (vs_acceleration front_vehicle) (v_acceleration self)) 2;
      fsub (vs_velocity front_vehicle) (v_velocity self);
      bumper_to_bumper_distance ] in
  let roots := np_roots coeff in
  let time :=
    filter (fun r => npc_gt r (of_real 0) && npc_isfinite r) roots in
  match time with
  | [] => None
  | t :: _ => Some t
  end.

(** *** VehicleManager *)

Definition Vehicles := list (string * Vehicle).

Record VehicleManager : Type := mkManager {
  vehicles : Vehicles;
  next_id : Z
}.

(** [f"V{n:03d}"]: the sign, if any, then zeros up to a width of three,
    then the digits. *)
Definition format_vehicle_id (n : Z) : string :=
  let sign := if (n <? 0)%Z then "-"%string else EmptyString in
  let digits := string_of_Z (Z.abs n) in
  let pad :=
    match (String.length sign + String.length digits)%nat with
    | 0%nat => "000"%string
    | 1%nat => "00"%string
    | 2%nat => "0"%string
    | _ => ""%string
    end in
  ("V" ++ sign ++ pad ++ digits)%string.

Definition create_vehicle (self : VehicleManager) (position : Q * Q)
    (velocity : Q) : VehicleManager * string :=
  let vehicle_id := format_vehicle_id (next_id self) in
  let vehicle := new_Vehicle vehicle_id position velocity in
  (mkManager (PyDict.set String.eqb (vehicles self) vehicle_id vehicle)
             (next_id self + 1)%Z,
   vehicle_id).

Definition get_all_vehicles (self : VehicleManager) : list Vehicle :=
  map snd (vehicles self).

(** [dict.get]: [None] for an id that is not there. *)
Definition get_vehicle (self : VehicleManager) (vehicle_id : string)
    : option Vehicle :=
  PyDict.get String.eqb (vehicles self) vehicle_id.

Definition get_vehicle_count (self : VehicleManager) : Z :=
  Z.of_nat (List.length (vehicles self)).

Definition update_all_vehicles (self : VehicleManager) (dt : Q) : VehicleManager :=
  mkManager (map (fun kv => (fst kv, update_physics (snd kv) dt)) (vehicles self))
            (next_id self).

(** [sorted(..., key=lambda v: v[1].position[0])]: stable, ascending. *)
Fixpoint insert_by_x (e : string * VehicleState) (l : list (string * VehicleState)) :=
  match l with
  | [] => [e]
  | y :: r =>
      if flt (fst (vs_position (snd e))) (fst (vs_position (snd y)))
      then e :: y :: r
      else y :: insert_by_x e r
  end.

Definition sorted_by_x (l : list (string * VehicleState)) :=
  fold_left (fun acc e => insert_by_x e acc) l [].

(** The [for] loop of [detect_potential_collisions]. *)
Fixpoint detect_loop (items : list (string * VehicleState)) (vehicle : Vehicle)
    : M (Vehicle * option CollisionWarningMessage) :=
  match items with
  | [] => ret (vehicle, None)
  | (vehicle_id, vehicle_state) :: rest =>
      if fle (fst (vs_position vehicle_state)) (fst (v_position vehicle))
      then detect_loop rest vehicle
      else
        let rear_right := fsub (snd (v_position vehicle)) (fdiv (v_width vehicle) 2) in
        let rear_left := fadd (snd (v_position vehicle)) (fdiv (v_width vehicle) 2) in
        let front_right :=
          fsub (snd (vs_position vehicle_state)) (fdiv (vs_width vehicle_state) 2) in
        let front_left :=
          fadd (snd (vs_position vehicle_state)) (fdiv (vs_width vehicle_state) 2) in
        if fgt rear_right front_left || flt rear_left front_right
        then detect_loop rest vehicle
        else
          match compute_ttc vehicle vehicle_state with
          | None => detect_loop rest vehicle
          | Some ttc =>
              if npc_lt ttc (of_real CONFIG.COLLISION_TIME_THRESHOLD)
              then
                let vehicle := activate_emergency_braking vehicle in
                cwm <- create_cwm vehicle
                         (get_seq_num (v_protocol vehicle) vehicle_id)
                         "rear_end_risk" vehicle_id ttc ;;
                ret (vehicle, Some cwm)
              else detect_loop rest vehicle
          end
  end.

Definition detect_potential_collisions (vehicle : Vehicle)
    : M (Vehicle * option CollisionWarningMessage) :=
  detect_loop (sorted_by_x (vehicle_map vehicle)) vehicle.

(** *** The rest of network_simulator.py *)

(** [in_range]; the square root is removed by comparing squares. *)
Definition in_range (source_vehicle dest_vehicle : Vehicle) : bool :=
  let x_dist := fsub (fst (v_position dest_vehicle)) (fst (v_position source_vehicle)) in
  let y_dist := fsub (snd (v_position dest_vehicle)) (snd (v_position source_vehicle)) in
  let distance2 := fadd (fmul x_dist x_dist) (fmul y_dist y_dist) in
  if fgt distance2 (fmul CONFIG.COMMUNICATION_RANGE CONFIG.COMMUNICATION_RANGE)
  then false else true.

(** The inner loop of [deliver_messages] for one pending message.  The
    sender is the live vehicle that has the stored id. *)
Definition deliver_one (send_vehicle : string) (message : V2VMessage)
    (message_hash : bytes) (all_vehicles : Vehicles) : Vehicles :=
  match PyDict.get String.eqb all_vehicles send_vehicle with
  | None => all_vehicles
  | Some sender =>
      map (fun kv =>
             let vehicle := snd kv in
             if String.eqb (v_vehicle_id vehicle) send_vehicle then kv
             else if negb (in_range vehicle sender) then kv
             else (fst kv, receive_message vehicle message message_hash))
          all_vehicles
  end.

Fixpoint deliver_items (items : list (bytes * (string * V2VMessage)))
    (all_vehicles : Vehicles) : M Vehicles :=
  match items with
  | [] => ret all_vehicles
  | (message_hash, (send_vehicle, message)) :: rest =>
      t <- time_time ;;
      n <- get_net ;;
      put_net (mkNet (all_messages n) (lost_packets n) (total_packets n)
                     (fadd (total_latency n) (fsub t (timestamp message)))
                     (history n)) ;;
      let all_vehicles := deliver_one send_vehicle message message_hash all_vehicles in
      n <- get_net ;;
      put_net (mkNet (PyDict.del bytes_eqb (all_messages n) message_hash)
                     (lost_packets n) (total_packets n) (total_latency n)
                     (history n)) ;;
      deliver_items rest all_vehicles
  end.

(** [NetworkSimulator.deliver_messages] *)
Definition deliver_messages (all_vehicles : Vehicles) : M Vehicles :=
  n <- get_net ;;
  deliver_items (all_messages n) all_vehicles.

(** ** simulation_engine.py *)

(** The engine; its [network_sim] is the [net] of the monad state, and
    the observer callbacks, which only read, are left out. *)
Record SimulationEngine : Type := mkEngine {
  env_now : Q;
  vehicle_manager : VehicleManager;
  total_bsm_count : Z;
  total_cwm_count : Z;
  collisions_prevented : Z
}.

Definition new_SimulationEngine : SimulationEngine :=
  mkEngine 0 (mkManager [] 1) 0 0 0.

Definition spawn_vehicle (self : SimulationEngine) (position : Q * Q)
    (velocity : Q) : SimulationEngine * string :=
  let '(manager, vehicle_id) := create_vehicle (vehicle_manager self) position velocity in
  (mkEngine (env_now self) manager (total_bsm_count self) (total_cwm_count self)
            (collisions_prevented self),
   vehicle_id).

(** The engine's three counters. *)
Record Counters : Type := mkCounters {
  c_bsm : Z;
  c_cwm : Z;
  c_prevented : Z
}.

(** The body of [for vehicle in self.vehicle_manager.get_all_vehicles()]
    in [simulation_loop]. *)
Definition vehicle_step (current_time : Q) (vehicle : Vehicle) (c : Counters)
    : M (Vehicle * Counters) :=
  vehicle <- process_messages vehicle ;;
  vehicle <- vehicle_manage vehicle ;;
  r <- detect_potential_collisions vehicle ;;
  let '(vehicle, cwm) := r in
  r <- match cwm with
       | Some cwm =>
           let c := mkCounters (c_bsm c) (c_cwm c + 1)%Z (c_prevented c + 1)%Z in
           vehicle <- send_message vehicle (MsgCWM cwm) ;;
           ret (vehicle, c)
       | None => ret (vehicle, c)
       end ;;
  let '(vehicle, c) := r in
  if should_send_bsm vehicle current_time
  then
    r <- generate_bsm vehicle current_time ;;
    let '(vehicle, bsm) := r in
    let c := mkCounters (c_bsm c + 1)%Z (c_cwm c) (c_prevented c) in
    vehicle <- send_message vehicle (MsgBSM bsm) ;;
    ret (vehicle, c)
  else ret (vehicle, c).

Fixpoint vehicles_loop (current_time : Q) (all_vehicles : Vehicles) (c : Counters)
    : M (Vehicles * Counters) :=
  match all_vehicles with
  | [] => ret ([], c)
  | (key, vehicle) :: rest =>
      r <- vehicle_step current_time vehicle c ;;
      r' <- vehicles_loop current_time rest (snd r) ;;
      ret ((key, fst r) :: fst r', snd r')
  end.

(** One turn of the [while True] loop of [simulation_loop], up to and
    including the [yield] that advances [env.now]. *)
Definition simulation_tick (self : SimulationEngine) : M SimulationEngine :=
  let current_time := env_now self in
  let manager :=
    update_all_vehicles (vehicle_manager self) CONFIG.SIMULATION_TIMESTEP in
  delivered <- deliver_messages (vehicles manager) ;;
  r <- vehicles_loop current_time delivered
         (mkCounters (total_bsm_count self) (total_cwm_count self)
                     (collisions_prevented self)) ;;
  let '(all_vehicles, c) := r in
  ret (mkEngine (fadd current_time CONFIG.SIMULATION_TIMESTEP)
                (mkManager all_vehicles (next_id manager))
                (c_bsm c) (c_cwm c) (c_prevented c)).

(** [n] turns of the loop. *)
Fixpoint run_ticks (n : nat) (self : SimulationEngine) : M SimulationEngine :=
  match n with
  | O => ret self
  | S n' => self <- simulation_tick self ;; run_ticks n' self
  end.

(** *** The four sub-steps of the per-vehicle phase, named *)

(** Collision detection; on a warning, the counters and the CWM sent. *)
Definition collision_phase (vehicle : Vehicle) (c : Counters)
    : M (Vehicle * Counters) :=
  r <- detect_potential_collisions vehicle ;;
  let '(vehicle, cwm) := r in
  match cwm with
  | Some cwm =>
      let c := mkCounters (c_bsm c) (c_cwm c + 1)%Z (c_prevented c + 1)%Z in
      vehicle <- send_message vehicle (MsgCWM cwm) ;;
      ret (vehicle, c)
  | None => ret (vehicle, c)
  end.

(** The BSM, when one is due. *)
Definition bsm_phase (current_time : Q) (vehicle : Vehicle) (c : Counters)
    : M (Vehicle * Counters) :=
  if should_send_bsm vehicle current_time
  then
    r <- generate_bsm vehicle current_time ;;
    let '(vehicle, bsm) := r in
    let c := mkCounters (c_bsm c + 1)%Z (c_cwm c) (c_prevented c) in
    vehicle <- send_message vehicle (MsgBSM bsm) ;;
    ret (vehicle, c)
  else ret (vehicle, c).

(** The per-vehicle phase in the order the specification lists: drain,
    detect, BSM, manage.  Written from the specification, to be compared
    with [vehicle_step]. *)
Definition vehicle_step_spec_order (current_time : Q) (vehicle : Vehicle)
    (c : Counters) : M (Vehicle * Counters) :=
  vehicle <- process_messages vehicle ;;
  r <- collision_phase vehicle c ;;
  r <- bsm_phase current_time (fst r) (snd r) ;;
  vehicle <- vehicle_manage (fst r) ;;
  ret (vehicle, snd r).

(** ** Data for the examples *)

(** A digest without collisions: the serialisation itself. *)
Definition ideal_sha256 (b : bytes) : bytes := b.

Definition coeff_eqb (a b : list Q) : bool :=
  (Nat.eqb (List.length a) (List.length b))
  && forallb (fun p => Qeq_bool (fst p) (snd p)) (combine a b).

(** [np.roots] at the coefficient lists the examples use:
    [np.roots([0, -20, 20])] is [[1.]], [np.roots([1, -5, 6])] is
    [[3., 2.]] and [np.roots([1, -2, 2])] is [[1.+1.j, 1.-1.j]]. *)
Definition np_roots_examples (coeff : list Q) : list npcomplex :=
  if coeff_eqb coeff [0; -20 # 1; 20] then [of_real 1]
  else if coeff_eqb coeff [1; -5 # 1; 6] then [of_real 3; of_real 2]
  else if coeff_eqb coeff [1; -2 # 1; 2]
       then [mkComplex (Fin 1) (Fin 1); mkComplex (Fin 1) (Fin (-1 # 1))]
  else [].

Definition empty_net : NetworkSimulator := mkNet [] 0 0 0 [].

(** The gap between the bumpers after [t] seconds of constant
    accelerations: the quadratic whose roots [compute_ttc] asks for. *)
Definition gap_at (self : Vehicle) (front_vehicle : VehicleState) (t : Q) : Q :=
  bumper_gap self front_vehicle
  + fsub (vs_velocity front_vehicle) (v_velocity self) * t
  + (1 # 2) * fsub (vs_acceleration front_vehicle) (v_acceleration self) * t * t.

(** A vehicle at the origin with the given velocity, cruising. *)
Definition vehicle_at_origin (vehicle_id : string) (velocity : Q) : Vehicle :=
  new_Vehicle vehicle_id (0, 0) velocity.

Definition ttc_rear : Vehicle := vehicle_at_origin "V001" 5.
Definition ttc_rear_slow : Vehicle := vehicle_at_origin "V001" 2.

(** The belief about a peer 10.5 m ahead, standing, accelerating at 2. *)
Definition ttc_front : VehicleState :=
  mkVehicleState 0 (105 # 10, 0) 0 2 0 CONFIG.VEHICLE_LENGTH CONFIG.VEHICLE_WIDTH.

(** The same peer 6.5 m ahead. *)
Definition ttc_front_near : VehicleState :=
  mkVehicleState 0 (65 # 10, 0) 0 2 0 CONFIG.VEHICLE_LENGTH CONFIG.VEHICLE_WIDTH.

(** A clock that reads [t0], [t0 + 1], [t0 + 2], ... *)
Definition ticking_clock (t0 : Q) : nat -> Q :=
  fun i => Qred (t0 + inject_Z (Z.of_nat i)).

(** A clock that stands still. *)
Definition frozen_clock (t0 : Q) : nat -> Q := fun _ => t0.

(** No packet is lost: [randint] always gives 50. *)
Definition lossless_dice : nat -> Z := fun _ => 50%Z.

Definition sys_at (clock : nat -> Q) : Sys :=
  mkSys clock 0 lossless_dice 0 empty_net.

(** One vehicle on the highway, then a second one 10 m ahead. *)
Definition fleet_one : SimulationEngine :=
  fst (spawn_vehicle new_SimulationEngine (0, 0) CONFIG.HIGHWAY_SPEED).

Definition fleet_two : SimulationEngine :=
  fst (spawn_vehicle fleet_one (10, 0) CONFIG.HIGHWAY_SPEED).

Definition vehicle_of (self : SimulationEngine) (vehicle_id : string)
    : option Vehicle :=
  PyDict.get String.eqb (vehicles (vehicle_manager self)) vehicle_id.

Definition inbound_of (all_vehicles : Vehicles) (vehicle_id : string)
    : option (list V2VMessage) :=
  option_map (fun v => incoming_messages (v_protocol v))
             (PyDict.get String.eqb all_vehicles vehicle_id).

(** A BSM of V001 built when the clock read 1000. *)
Definition digest_bsm : BasicSafetyMessage :=
  mkBSM "V001" 1000 0 0 CONFIG.HIGHWAY_SPEED 0 0 CONFIG.VEHICLE_LENGTH
        CONFIG.VEHICLE_WIDTH.

(** A CWM of V002 for V001 with sequence number [n]. *)
Definition cwm_from_peer (n : Z) : CollisionWarningMessage :=
  mkCWM "V002" 5 n "rear_end_risk" "V001" (of_real 1).

(** V001's table, with a connection for V002 that expects the CWM [r]. *)
Definition table_expecting (r : Z) : Connections :=
  [("V002"%string, mkConn [] 0 0 0 r)].

(** A CWM of V001 for V002 with sequence number [n]. *)
Definition cwm_to_peer (n : Z) : CollisionWarningMessage :=
  mkCWM "V001" 1 n "rear_end_risk" "V002" (of_real 1).

(** An ACK of V002 for V001's CWM [n]. *)
Definition ack_from_peer (n : Z) : AcknowledgementMessage :=
  mkACK "V002" 5 n "V001".

(** V001's table with two CWMs waiting for V002 and the ACK 0 expected. *)
Definition table_two_waiting : Connections :=
  [("V002"%string, mkConn [cwm_to_peer 0; cwm_to_peer 0] 0 0 0 0)].

(** V001's table after two acknowledged CWMs, idle since the clock
    read 0. *)
Definition table_after_two : Connections :=
  [("V002"%string, mkConn [] 0 0 2 0)].

(** A BSM of V002, 40 m ahead, stamped 1. *)
Definition belief_bsm : BasicSafetyMessage :=
  mkBSM "V002" 1 40 0 CONFIG.CITY_SPEED 0 0 CONFIG.VEHICLE_LENGTH
        CONFIG.VEHICLE_WIDTH.

(** V001 at 20 m/s with a connection to V002 that has carried three CWMs
    and has been idle since the clock read 0, and the belief, as of clock
    reading 10, that V002 stands 24.5 m ahead. *)
Definition order_vehicle : Vehicle :=
  mkVehicle "V001" (0, 0) 20 0 0
            (mkProtocol [("V002"%string, mkConn [] 0 0 3 0)] [])
            [("V002"%string,
              mkVehicleState 10 (245 # 10, 0) 0 0 0 CONFIG.VEHICLE_LENGTH
                             CONFIG.VEHICLE_WIDTH)]
            CONFIG.VEHICLE_LENGTH CONFIG.VEHICLE_WIDTH 20 false 0 (1, 0).

(** V001 on the highway, in emergency braking. *)
Definition braking_vehicle : Vehicle :=
  activate_emergency_braking (vehicle_at_origin "V001" CONFIG.HIGHWAY_SPEED).

(** An engine with that one vehicle. *)
Definition fleet_braking : SimulationEngine :=
  mkEngine 0 (mkManager [("V001"%string, braking_vehicle)] 2) 0 0 0.

(** V002 exactly [COMMUNICATION_RANGE] ahead of the origin. *)
Definition vehicle_at_range : Vehicle :=
  new_Vehicle "V002" (CONFIG.COMMUNICATION_RANGE, 0) CONFIG.HIGHWAY_SPEED.



(** The sequence numbers of the CWMs among the frames, latest first. *)
Definition aired_cwm_sequence (n : NetworkSimulator) : list Z :=
  flat_map (fun f => match frame_message f with
                     | MsgCWM c => [cwm_sequence_number c]
                     | _ => []
                     end)
           (history n).

(** ** Vocabulary of the statements *)

(** The state after one more [time.time()]. *)
Definition tick (s : Sys) : Sys :=
  mkSys (wall s) (S (wall_idx s)) (dice s) (dice_idx s) (net s).

(** The clock reading the next [time.time()] returns. *)
Definition now (s : Sys) : Q := wall s (wall_idx s).

(** The state [broadcast_message] leaves. *)
Definition aired (v : string) (m : V2VMessage) (h : bytes) (s : Sys) : Sys :=
  match broadcast_message v m h s with
  | Ok _ s' => s'
  | Raise _ => s
  end.

(** The clock reading [send] writes into the timestamp of the message
    it transmits: the next one, or for a CWM, whose connection reads the
    clock first, the one after. *)
Definition stamp_time (message : V2VMessage) (s : Sys) : Q :=
  match message with
  | MsgCWM _ => now (tick s)
  | _ => now s
  end.

(** The connection a CWM from [key] is handled on: the existing one, or
    the fresh [CWMConnection(0, 0)]. *)
Definition connection_for (table : Connections) (key : string) : CWMConnection :=
  match conn_get table key with
  | Some c => c
  | None => new_connection 0 0
  end.

Definition table_with (table : Connections) (key : string) : Connections :=
  match conn_get table key with
  | Some _ => table
  | None => conn_set table key (new_connection 0 0)
  end.




(** Between [s] and [s'] the clock was only read, and every frame handed
    to the medium carries, as its timestamp, one of the readings taken in
    between. *)
Definition stamped_by_wall (s s' : Sys) : Prop :=
  wall s' = wall s
  /\ (wall_idx s <= wall_idx s')%nat
  /\ exists frames,
       history (net s') = frames ++ history (net s)
       /\ Forall (fun f => exists i, (wall_idx s <= i < wall_idx s')%nat
                                     /\ timestamp (frame_message f) = wall s i)
                 frames.

Definition keeps_stamps {A} (m : M A) : Prop :=
  forall s a s', m s = Ok a s' -> stamped_by_wall s s'.




(** The connection [c'] is [c] but for [transmit_time] and the timestamp
    of the CWM at the head of the queue. *)
Definition only_head_restamped (c c' : CWMConnection) : Prop :=
  send_seq_num c' = send_seq_num c
  /\ recv_seq_num c' = recv_seq_num c
  /\ last_use c' = last_use c
  /\ List.length (cwms c') = List.length (cwms c)
  /\ tl (cwms c') = tl (cwms c)
  /\ match cwms c, cwms c' with
     | x :: _, x' :: _ => exists t, x' = cwm_set_timestamp t x
     | [], [] => True
     | _, _ => False
     end.

(** The conditions under which [detect_potential_collisions] warns about
    the peer believed to be in state [st]: strictly ahead, overlapping in
    [y], and with a time to collision [ttc] below the threshold. *)
Definition warned_about (vehicle : Vehicle) (st : VehicleState) (ttc : npcomplex)
    : Prop :=
  fle (fst (vs_position st)) (fst (v_position vehicle)) = false
  /\ fgt (fsub (snd (v_position vehicle)) (fdiv (v_width vehicle) 2))
         (fadd (snd (vs_position st)) (fdiv (vs_width st) 2)) = false
  /\ flt (fadd (snd (v_position vehicle)) (fdiv (v_width vehicle) 2))
         (fsub (snd (vs_position st)) (fdiv (vs_width st) 2)) = false
  /\ compute_ttc vehicle st = Some ttc
  /\ npc_lt ttc (of_real CONFIG.COLLISION_TIME_THRESHOLD) = true.

(** What [update_physics] acts on, with the fields that never change. *)
Definition kinematics (v : Vehicle) :=
  (v_vehicle_id v, v_position v, v_velocity v, v_acceleration v, v_heading v,
   v_length v, v_width v, direction v).

(** Every run of [m] that returns takes the medium from [n] to some [n']
    with [R n n']. *)
Definition net_steps (R : NetworkSimulator -> NetworkSimulator -> Prop) {A}
    (m : M A) : Prop :=
  forall s a s', m s = Ok a s' -> R (net s) (net s').

(** From [n] to [n'] no counter went down, no more packets were lost than
    were sent, and as many were counted as [broadcast_message] was
    called. *)
Definition packet_counts (n n' : NetworkSimulator) : Prop :=
  (lost_packets n <= lost_packets n')%Z
  /\ (lost_packets n' - lost_packets n <= total_packets n' - total_packets n)%Z
  /\ (total_packets n' - total_packets n
      = Z.of_nat (List.length (history n')) - Z.of_nat (List.length (history n)))%Z.

(** Reads the number back from a vehicle id. *)
Definition parse_vehicle_id (vehicle_id : string) : option Z :=
  match vehicle_id with
  | EmptyString => None
  | String _ digits => option_map Z.of_uint (NilEmpty.uint_of_string digits)
  end.

(** Every id in use was made by [create_vehicle] from a number below
    [next_id]. *)
Definition numbered (self : VehicleManager) : Prop :=
  (0 <= next_id self)%Z
  /\ forall k, In k (map fst (vehicles self)) ->
               exists i, (0 <= i < next_id self)%Z /\ k = format_vehicle_id i.

(** * Properties *)

(** ** Bookkeeping lemmas *)

Lemma conn_get_set_same (d : Connections) (k : string) (c : CWMConnection) :
  conn_get (conn_set d k c) k = Some c.
Proof.
  unfold conn_get, conn_set.
  induction d as [|[k' c'] d IH]; simpl.
  - now rewrite String.eqb_refl.
  - destruct (String.eqb k' k) eqn:E; simpl; rewrite E; auto.
Qed.

Lemma conn_get_set_other (d : Connections) (k k' : string) (c : CWMConnection) :
  k <> k' -> conn_get (conn_set d k c) k' = conn_get d k'.
Proof.
  intros Hne. unfold conn_get, conn_set.
  induction d as [|[k0 c0] d IH]; simpl.
  - destruct (String.eqb k k') eqn:E; auto.
    apply String.eqb_eq in E. contradiction.
  - destruct (String.eqb k0 k) eqn:E; simpl.
    + apply String.eqb_eq in E. subst k0.
      destruct (String.eqb k k') eqn:E'; auto.
      apply String.eqb_eq in E'. contradiction.
    + destruct (String.eqb k0 k'); auto.
Qed.

(** What [broadcast_message] always does, whatever the loss sampler says. *)
Lemma broadcast_message_spec (v : string) (m : V2VMessage) (h : bytes) (s : Sys) :
  exists s',
    broadcast_message v m h s = Ok tt s'
    /\ history (net s') = mkFrame v m h :: history (net s)
    /\ total_packets (net s') = (total_packets (net s) + 1)%Z
    /\ wall s' = wall s /\ wall_idx s' = wall_idx s
    /\ dice s' = dice s /\ dice_idx s' = S (dice_idx s).
Proof.
  unfold broadcast_message, bind, get_net, put_net, randint_1_100; simpl.
  destruct (fle _ _); eexists; repeat split.
Qed.

(** ** C10: statistics of an idle medium *)

(** C10.  With [total_packets == 0] both accessors return [0.0]; the
    division, which would raise [ZeroDivisionError], is not reached. *)
Theorem stats_without_packets (n : NetworkSimulator) :
  total_packets n = 0%Z ->
  get_average_latency n = inr 0 /\ get_packet_loss n = inr 0.
Proof.
  intros H. unfold get_average_latency, get_packet_loss.
  rewrite H. simpl. split; reflexivity.
Qed.

(** The accessors never raise. *)
Lemma stats_never_raise (n : NetworkSimulator) :
  (exists q, get_average_latency n = inr q) /\ (exists q, get_packet_loss n = inr q).
Proof.
  unfold get_average_latency, get_packet_loss, py_div.
  destruct (Z.eqb (total_packets n) 0); split; eexists; reflexivity.
Qed.

(** ** Running the monad *)

Lemma bind_ret {A B} (a : A) (f : A -> M B) (s : Sys) :
  bind (ret a) f s = f a s.
Proof. reflexivity. Qed.

Lemma bind_time {B} (f : Q -> M B) (s : Sys) :
  bind time_time f s = f (now s) (tick s).
Proof. reflexivity. Qed.

Lemma bind_raise {A B} (e : Exn) (f : A -> M B) (s : Sys) :
  bind (raise e) f s = Raise e.
Proof. reflexivity. Qed.

Lemma bind_bind {A B C} (m : M A) (f : A -> M B) (g : B -> M C) (s : Sys) :
  bind (bind m f) g s = bind m (fun a => bind (f a) g) s.
Proof. unfold bind. destruct (m s); reflexivity. Qed.

Lemma broadcast_aired (v : string) (m : V2VMessage) (h : bytes) (s : Sys) :
  broadcast_message v m h s = Ok tt (aired v m h s).
Proof.
  unfold aired.
  destruct (broadcast_message_spec v m h s) as (s' & E & _). now rewrite E.
Qed.

Lemma bind_broadcast {B} (v : string) (m : V2VMessage) (h : bytes)
    (f : unit -> M B) (s : Sys) :
  bind (broadcast_message v m h) f s = f tt (aired v m h s).
Proof. unfold bind. now rewrite broadcast_aired. Qed.

Lemma aired_history v m h s :
  history (net (aired v m h s)) = mkFrame v m h :: history (net s).
Proof.
  unfold aired. destruct (broadcast_message_spec v m h s) as (s' & E & H & _).
  now rewrite E.
Qed.

Lemma aired_packets v m h s :
  total_packets (net (aired v m h s)) = (total_packets (net s) + 1)%Z.
Proof.
  unfold aired. destruct (broadcast_message_spec v m h s) as (s' & E & _ & H & _).
  now rewrite E.
Qed.

Lemma aired_wall v m h s :
  wall (aired v m h s) = wall s /\ wall_idx (aired v m h s) = wall_idx s.
Proof.
  unfold aired.
  destruct (broadcast_message_spec v m h s) as (s' & E & _ & _ & H1 & H2 & _).
  now rewrite E.
Qed.

Lemma tick_net s : net (tick s) = net s.
Proof. reflexivity. Qed.

Create Rewrite HintDb run.
#[local] Hint Rewrite @bind_ret @bind_time @bind_raise @bind_broadcast : run.

Ltac run := repeat (autorewrite with run; cbv beta iota zeta).

(** [send] on a message that is not a CWM. *)
Lemma send_ack_eq (self : Protocol) (vehicle : string)
    (ack : AcknowledgementMessage) (s : Sys) :
  send self vehicle (MsgACK ack) s
  = Ok self (aired vehicle (set_timestamp (now s) (MsgACK ack))
                   (get_message_hash (MsgACK ack)) (tick s)).
Proof. unfold send. run. reflexivity. Qed.

Lemma send_bsm_eq (self : Protocol) (vehicle : string)
    (bsm : BasicSafetyMessage) (s : Sys) :
  send self vehicle (MsgBSM bsm) s
  = Ok self (aired vehicle (set_timestamp (now s) (MsgBSM bsm))
                   (get_message_hash (MsgBSM bsm)) (tick s)).
Proof. unfold send. run. reflexivity. Qed.

(** ** C5: an inbound CWM *)

(** [process_message] on a CWM, as one equation. *)
Lemma process_message_cwm (cwm : CollisionWarningMessage)
    (rest : list V2VMessage) (table : Connections) (vehicle : string) (s : Sys) :
  let S := cwm_vehicle_id cwm in
  let N := cwm_sequence_number cwm in
  let used := set_last_use (now s) (connection_for table S) in
  let table1 := conn_set (table_with table S) S used in
  let ack := mkACK vehicle (now (tick s)) N S in
  process_message (MsgCWM cwm) rest table vehicle s
  = if (N >? recv_seq_num used)%Z then Ok (Continue table1) (tick s)
    else
      let s' := aired vehicle (set_timestamp (now (tick (tick s))) (MsgACK ack))
                      (get_message_hash (MsgACK ack)) (tick (tick (tick s))) in
      if (N =? recv_seq_num used)%Z
      then Ok (Return (conn_set table1 S (inc_recv_seq_num used)) (MsgCWM cwm)) s'
      else Ok (Continue table1) s'.
Proof.
  cbv zeta. unfold process_message, connection_for, table_with.
  destruct (conn_get table (cwm_vehicle_id cwm)) as [c|]; run;
    simpl recv_seq_num;
    (destruct (_ >? _)%Z; [reflexivity|]);
    unfold create_ack; rewrite bind_bind; run;
    unfold bind; rewrite send_ack_eq; simpl;
    destruct (_ =? _)%Z; reflexivity.
Qed.

(** C5.  A CWM with sequence number [N] from [S], dequeued by
    [Protocol.process]: above [recv_seq_num] it is dropped, without an ACK
    and without a change of [recv_seq_num], and draining goes on; otherwise
    an ACK with sequence [N] for [S] is handed to the medium, and the CWM is
    returned, with [recv_seq_num] one higher, exactly when [N] equals
    [recv_seq_num]; below it draining goes on. *)
Theorem process_cwm_by_sequence (cwm : CollisionWarningMessage)
    (rest : list V2VMessage) (table : Connections) (vehicle : string) (s : Sys) :
  let S := cwm_vehicle_id cwm in
  let N := cwm_sequence_number cwm in
  let before := connection_for table S in
  let used := set_last_use (now s) before in
  let table1 := conn_set (table_with table S) S used in
  ((recv_seq_num before < N)%Z ->
     exists s',
       process_queue (MsgCWM cwm :: rest) table vehicle s
       = process_queue rest table1 vehicle s'
       /\ net s' = net s
       /\ conn_get table1 S = Some used
       /\ recv_seq_num used = recv_seq_num before)
  /\ ((N <= recv_seq_num before)%Z ->
     exists s' t h,
       history (net s')
       = mkFrame vehicle (MsgACK (mkACK vehicle t N S)) h :: history (net s)
       /\ ((N = recv_seq_num before)%Z ->
             process_queue (MsgCWM cwm :: rest) table vehicle s
             = Ok (mkProtocol (conn_set table1 S (inc_recv_seq_num used)) rest,
                   Some (MsgCWM cwm)) s'
             /\ conn_get (conn_set table1 S (inc_recv_seq_num used)) S
                = Some (inc_recv_seq_num used)
             /\ recv_seq_num (inc_recv_seq_num used) = (recv_seq_num before + 1)%Z)
       /\ ((N < recv_seq_num before)%Z ->
             process_queue (MsgCWM cwm :: rest) table vehicle s
             = process_queue rest table1 vehicle s'
             /\ conn_get table1 S = Some used
             /\ recv_seq_num used = recv_seq_num before)).
Proof.
  cbv zeta.
  pose proof (process_message_cwm cwm rest table vehicle s) as E. cbv zeta in E.
  simpl recv_seq_num in E.
  split.
  - intros Hgt. apply Z.gtb_lt in Hgt. rewrite Hgt in E.
    exists (tick s). cbn [process_queue]. unfold bind at 1. rewrite E.
    repeat split. apply conn_get_set_same.
  - intros Hle.
    assert (Hng : (cwm_sequence_number cwm
                   >? recv_seq_num (connection_for table (cwm_vehicle_id cwm)))%Z
                  = false)
      by (rewrite Z.gtb_ltb; apply Z.ltb_ge; exact Hle).
    rewrite Hng in E.
    set (ack := mkACK vehicle (now (tick s)) (cwm_sequence_number cwm)
                      (cwm_vehicle_id cwm)) in *.
    exists (aired vehicle (set_timestamp (now (tick (tick s))) (MsgACK ack))
                  (get_message_hash (MsgACK ack)) (tick (tick (tick s)))),
           (now (tick (tick s))), (get_message_hash (MsgACK ack)).
    split; [rewrite aired_history; reflexivity|].
    split.
    + intros Heq. apply Z.eqb_eq in Heq. rewrite Heq in E.
      cbn [process_queue]. unfold bind at 1. rewrite E.
      repeat split. apply conn_get_set_same.
    + intros Hlt.
      assert (Hne : (cwm_sequence_number cwm
                     =? recv_seq_num (connection_for table (cwm_vehicle_id cwm)))%Z
                    = false) by (apply Z.eqb_neq; lia).
      rewrite Hne in E.
      cbn [process_queue]. unfold bind at 1. rewrite E.
      repeat split. apply conn_get_set_same.
Qed.

(** ** C6 and C7: an inbound ACK *)

(** [process_message] on an ACK from a peer that has a connection, as one
    equation. *)
Lemma process_message_ack (ack : AcknowledgementMessage)
    (rest : list V2VMessage) (table : Connections) (vehicle : string) (s : Sys)
    (conn : CWMConnection) :
  conn_get table (ack_vehicle_id ack) = Some conn ->
  process_message (MsgACK ack) rest table vehicle s
  = let S := ack_vehicle_id ack in
    let used := set_last_use (now s) conn in
    if (ack_sequence_number ack =? send_seq_num conn)%Z
    then
      match cwms conn with
      | [] => Raise IndexError
      | [_] => Ok (Continue (conn_set table S (set_cwms [] (inc_send_seq_num used))))
                  (tick s)
      | _ :: next :: others =>
          let next' := cwm_set_timestamp (now (tick (tick s))) next in
          Ok (Continue
                (conn_set table S
                   (set_cwms (next' :: others)
                      (set_transmit_time (now (tick s))
                         (set_cwms (next :: others) (inc_send_seq_num used))))))
             (aired vehicle (MsgCWM next') (get_message_hash (MsgCWM next'))
                    (tick (tick (tick s))))
      end
    else Ok (Continue (conn_set table S used)) (tick s).
Proof.
  intros Hget. cbv zeta. unfold process_message. rewrite Hget. run.
  simpl send_seq_num.
  destruct (_ =? _)%Z; [|reflexivity].
  unfold next_cwm.
  change (cwms (inc_send_seq_num (set_last_use (now s) conn))) with (cwms conn).
  destruct (cwms conn) as [|head [|next others]]; simpl; run; reflexivity.
Qed.

(** C6.  An ACK from [S] whose sequence number is the connection's
    [send_seq_num], with a CWM waiting: [send_seq_num] goes up by one and
    the head leaves the unacked queue, once; when a CWM is left, the new
    head is handed to the medium at once, its timestamp and the
    connection's [transmit_time] set to the clock readings taken there and
    the digest computed over the restamped message. *)
Theorem process_ack_expected (ack : AcknowledgementMessage)
    (rest : list V2VMessage) (table : Connections) (vehicle : string) (s : Sys)
    (conn : CWMConnection) (head : CollisionWarningMessage)
    (tail : list CollisionWarningMessage) :
  conn_get table (ack_vehicle_id ack) = Some conn ->
  ack_sequence_number ack = send_seq_num conn ->
  cwms conn = head :: tail ->
  exists conn' s',
    process_queue (MsgACK ack :: rest) table vehicle s
    = process_queue rest (conn_set table (ack_vehicle_id ack) conn') vehicle s'
    /\ conn_get (conn_set table (ack_vehicle_id ack) conn') (ack_vehicle_id ack)
       = Some conn'
    /\ send_seq_num conn' = (send_seq_num conn + 1)%Z
    /\ recv_seq_num conn' = recv_seq_num conn
    /\ List.length (cwms conn') = List.length tail
    /\ match tail with
       | [] => cwms conn' = [] /\ net s' = net s
       | next :: others =>
           let sent := cwm_set_timestamp (now (tick (tick s))) next in
           cwms conn' = sent :: others
           /\ transmit_time conn' = now (tick s)
           /\ history (net s')
              = mkFrame vehicle (MsgCWM sent) (get_message_hash (MsgCWM sent))
                :: history (net s)
       end.
Proof.
  intros Hget Hseq Hcwms.
  pose proof (process_message_ack ack rest table vehicle s conn Hget) as E.
  cbv zeta in E. apply Z.eqb_eq in Hseq. rewrite Hseq, Hcwms in E.
  cbn [process_queue]. unfold bind at 1.
  destruct tail as [|next others]; rewrite E; eexists _, _;
    (split; [reflexivity|]); (split; [apply conn_get_set_same|]);
    simpl; repeat split.
  rewrite aired_history. reflexivity.
Qed.

(** C7, as the code has it.  An ACK from [S] with a sequence number
    below the connection's [send_seq_num]: nothing is handed to the medium,
    the unacked queue, [transmit_time] and both sequence numbers of the
    connection stay, the other connections stay, and [last_use] of the
    connection becomes the clock reading. *)
Theorem process_ack_stale (ack : AcknowledgementMessage)
    (rest : list V2VMessage) (table : Connections) (vehicle : string) (s : Sys)
    (conn : CWMConnection) :
  conn_get table (ack_vehicle_id ack) = Some conn ->
  (ack_sequence_number ack < send_seq_num conn)%Z ->
  exists conn' s',
    process_queue (MsgACK ack :: rest) table vehicle s
    = process_queue rest (conn_set table (ack_vehicle_id ack) conn') vehicle s'
    /\ net s' = net s
    /\ conn_get (conn_set table (ack_vehicle_id ack) conn') (ack_vehicle_id ack)
       = Some conn'
    /\ (forall k, ack_vehicle_id ack <> k ->
          conn_get (conn_set table (ack_vehicle_id ack) conn') k = conn_get table k)
    /\ cwms conn' = cwms conn
    /\ transmit_time conn' = transmit_time conn
    /\ send_seq_num conn' = send_seq_num conn
    /\ recv_seq_num conn' = recv_seq_num conn
    /\ last_use conn' = now s.
Proof.
  intros Hget Hlt.
  pose proof (process_message_ack ack rest table vehicle s conn Hget) as E.
  cbv zeta in E.
  assert (Hne : (ack_sequence_number ack =? send_seq_num conn)%Z = false)
    by (apply Z.eqb_neq; lia).
  rewrite Hne in E.
  cbn [process_queue]. unfold bind at 1. rewrite E.
  exists (set_last_use (now s) conn), (tick s).
  repeat split.
  - apply conn_get_set_same.
  - intros k Hk. now apply conn_get_set_other.
Qed.

(** ** Dictionaries keyed by vehicle id *)

Lemma sdict_get_In {V} (d : list (string * V)) (k : string) (v : V) :
  PyDict.get String.eqb d k = Some v -> In (k, v) d.
Proof.
  induction d as [|[k' v'] d IH]; simpl; [discriminate|].
  destruct (String.eqb k' k) eqn:E.
  - apply String.eqb_eq in E. intros H. inversion H; subst. now left.
  - intros H. right. now apply IH.
Qed.

Lemma sdict_In_get {V} (d : list (string * V)) (k : string) (v : V) :
  NoDup (map fst d) -> In (k, v) d -> PyDict.get String.eqb d k = Some v.
Proof.
  induction d as [|[k' v'] d IH]; simpl; intros Hn Hin; [destruct Hin|].
  inversion Hn as [|? ? Hk Hn']; subst.
  destruct Hin as [E|Hin].
  - inversion E; subst. now rewrite String.eqb_refl.
  - destruct (String.eqb k' k) eqn:E.
    + apply String.eqb_eq in E. subst k'. exfalso. apply Hk.
      apply in_map_iff. exists (k, v). auto.
    + now apply IH.
Qed.

Lemma sdict_get_None {V} (d : list (string * V)) (k : string) :
  PyDict.get String.eqb d k = None <-> ~ In k (map fst d).
Proof.
  induction d as [|[k' v'] d IH]; simpl.
  - tauto.
  - destruct (String.eqb k' k) eqn:E.
    + apply String.eqb_eq in E. split; [discriminate|]. intros H. exfalso. auto.
    + assert (k' <> k) by (intros Hc; apply String.eqb_eq in Hc; congruence).
      rewrite IH. tauto.
Qed.

Lemma sdict_del_In {V} (d : list (string * V)) (k : string) (x : string * V) :
  In x (PyDict.del String.eqb d k) -> In x d.
Proof.
  induction d as [|[k' v'] d IH]; simpl; [auto|].
  destruct (String.eqb k' k); simpl; intuition.
Qed.

Lemma sdict_set_In {V} (d : list (string * V)) (k : string) (v : V) (x : string * V) :
  In x (PyDict.set String.eqb d k v) -> x = (k, v) \/ In x d.
Proof.
  induction d as [|[k' v'] d IH]; simpl.
  - intuition.
  - destruct (String.eqb k' k) eqn:E; simpl.
    + apply String.eqb_eq in E. subst k'. intuition.
    + intuition.
Qed.

Lemma sdict_get_del_other {V} (d : list (string * V)) (k k' : string) :
  k <> k' ->
  PyDict.get String.eqb (PyDict.del String.eqb d k) k' = PyDict.get String.eqb d k'.
Proof.
  intros Hne. induction d as [|[k0 v0] d IH]; simpl; [reflexivity|].
  destruct (String.eqb k0 k) eqn:E; simpl.
  - apply String.eqb_eq in E. subst k0.
    destruct (String.eqb k k') eqn:E'; [|reflexivity].
    apply String.eqb_eq in E'. contradiction.
  - destruct (String.eqb k0 k'); auto.
Qed.

Lemma sdict_get_del_same {V} (d : list (string * V)) (k : string) :
  NoDup (map fst d) ->
  PyDict.get String.eqb (PyDict.del String.eqb d k) k = None.
Proof.
  intros Hn. apply sdict_get_None. intros Hin.
  apply in_map_iff in Hin. destruct Hin as ([k0 v] & E & Hin). simpl in E. subst k0.
  revert Hn Hin. induction d as [|[k' v'] d IH]; simpl; [auto|].
  intros Hn. inversion Hn as [|? ? Hk Hn']; subst.
  destruct (String.eqb k' k) eqn:E.
  - apply String.eqb_eq in E. subst k'. intros Hin. apply Hk.
    apply in_map_iff. exists (k, v). auto.
  - intros [Hin|Hin].
    + inversion Hin; subst. rewrite String.eqb_refl in E. discriminate.
    + now apply IH.
Qed.

(** ** C8: head of line *)









(** [send] on a CWM, as one equation. *)
Lemma send_cwm_eq (self : Protocol) (vehicle : string)
    (cwm : CollisionWarningMessage) (s : Sys) :
  let P := cwm_target_vehicle_id cwm in
  let before := connection_for (outgoing_cwms self) P in
  let table := table_with (outgoing_cwms self) P in
  let queued := add_cwm cwm (set_last_use (now s) before) in
  send self vehicle (MsgCWM cwm) s
  = match cwms before with
    | _ :: _ =>
        Ok (mkProtocol (conn_set table P queued) (incoming_messages self)) (tick s)
    | [] =>
        let sent := cwm_set_timestamp (now (tick s)) cwm in
        Ok (mkProtocol
              (conn_set table P
                 (set_cwms [sent] (set_transmit_time (now s) queued)))
              (incoming_messages self))
           (aired vehicle (MsgCWM sent) (get_message_hash (MsgCWM cwm))
                  (tick (tick s)))
    end.
Proof.
  cbv zeta. unfold send, connection_for, table_with.
  destruct (conn_get (outgoing_cwms self) (cwm_target_vehicle_id cwm)) as [c|];
    run; unfold add_cwm; cbn [cwms set_cwms set_last_use new_connection].
  - destruct c as [q tt lu ss rs]. cbn [cwms].
    destruct q as [|x l]; cbn [app List.length stamp_last].
    + change (1 <? Z.of_nat 1)%Z with false. run. reflexivity.
    + rewrite length_app. cbn [List.length].
      replace (1 <? Z.of_nat (S (List.length l + 1)))%Z with true
        by (symmetry; apply Z.ltb_lt; lia).
      reflexivity.
  - cbn [app List.length stamp_last].
    change (1 <? Z.of_nat 1)%Z with false. run. reflexivity.
Qed.


(** ** C9: the belief map *)

Lemma vmap_get_set_same (m : VehicleMap) (k : string) (st : VehicleState) :
  vmap_get (vmap_set m k st) k = Some st.
Proof.
  unfold vmap_get, vmap_set.
  induction m as [|[k' c'] m IH]; simpl.
  - now rewrite String.eqb_refl.
  - destruct (String.eqb k' k) eqn:E; simpl; rewrite E; auto.
Qed.

Lemma vmap_get_set_other (m : VehicleMap) (k k' : string) (st : VehicleState) :
  k <> k' -> vmap_get (vmap_set m k st) k' = vmap_get m k'.
Proof.
  intros Hne. unfold vmap_get, vmap_set.
  induction m as [|[k0 c0] m IH]; simpl.
  - destruct (String.eqb k k') eqn:E; auto.
    apply String.eqb_eq in E. contradiction.
  - destruct (String.eqb k0 k) eqn:E; simpl.
    + apply String.eqb_eq in E. subst k0.
      destruct (String.eqb k k') eqn:E'; auto.
      apply String.eqb_eq in E'. contradiction.
    + destruct (String.eqb k0 k'); auto.
Qed.

(** C9, as the code has it.  A BSM returned by [Protocol.process]
    overwrites the belief-map entry of its sender with a snapshot whose
    position, velocity, acceleration, heading, length and width are the
    message's and whose timestamp is the clock reading taken when the
    snapshot is built; the other entries and the rest of the vehicle
    stay. *)
Theorem received_bsm_overwrites_belief (self : Vehicle)
    (bsm : BasicSafetyMessage) (s : Sys) :
  exists self',
    handle_message self (MsgBSM bsm) s = Ok self' (tick s)
    /\ vmap_get (vehicle_map self') (bsm_vehicle_id bsm)
       = Some (mkVehicleState (now s) (bsm_position_x bsm, bsm_position_y bsm)
                              (bsm_velocity bsm) (bsm_acceleration bsm)
                              (bsm_heading bsm) (bsm_length bsm) (bsm_width bsm))
    /\ (forall k, bsm_vehicle_id bsm <> k ->
          vmap_get (vehicle_map self') k = vmap_get (vehicle_map self) k)
    /\ set_vehicle_map (vehicle_map self) self' = set_vehicle_map (vehicle_map self) self.
Proof.
  eexists. unfold handle_message, new_VehicleState. cbn [message_type].
  rewrite bind_bind. run.
  split; [reflexivity|]. simpl vehicle_map.
  split; [apply vmap_get_set_same|].
  split; [intros k Hk; now apply vmap_get_set_other|reflexivity].
Qed.

(** *** The loop of [process_messages] ends within its bound *)

Lemma process_queue_shrinks (queue : list V2VMessage) :
  forall table vehicle s p m s',
    process_queue queue table vehicle s = Ok (p, Some m) s' ->
    (List.length (incoming_messages p) < List.length queue)%nat.
Proof.
  induction queue as [|x rest IH]; intros table vehicle s p m s' H.
  - discriminate.
  - cbn [process_queue] in H. unfold bind in H.
    destruct (process_message x rest table vehicle s) as [turn s1|e]; [|discriminate].
    destruct turn as [table1|table1 x'].
    + apply IH in H. simpl. lia.
    + inversion H; subst. simpl. lia.
Qed.

Lemma process_queue_none (queue : list V2VMessage) :
  forall table vehicle s p s',
    process_queue queue table vehicle s = Ok (p, None) s' ->
    incoming_messages p = [].
Proof.
  induction queue as [|x rest IH]; intros table vehicle s p s' H.
  - inversion H. reflexivity.
  - cbn [process_queue] in H. unfold bind in H.
    destruct (process_message x rest table vehicle s) as [turn s1|e]; [|discriminate].
    destruct turn as [table1|table1 x'].
    + now apply IH in H.
    + discriminate.
Qed.

(** The only exception of [Protocol.process] is the [IndexError] of
    [popleft]. *)
Lemma process_message_raises (message : V2VMessage) (rest : list V2VMessage)
    (table : Connections) (vehicle : string) (s : Sys) (e : Exn) :
  process_message message rest table vehicle s = Raise e -> e = IndexError.
Proof.
  intros H. destruct message as [bsm|cwm|ack].
  - discriminate.
  - rewrite process_message_cwm in H. cbv zeta in H.
    destruct (_ >? _)%Z; [discriminate|]. destruct (_ =? _)%Z; discriminate.
  - destruct (conn_get table (ack_vehicle_id ack)) as [conn|] eqn:Hget.
    + rewrite (process_message_ack _ _ _ _ _ _ Hget) in H. cbv zeta in H.
      destruct (_ =? _)%Z; [|discriminate].
      destruct (cwms conn) as [|head [|next others]]; try discriminate.
      now inversion H.
    + unfold process_message in H. rewrite Hget in H. discriminate.
Qed.

Lemma process_queue_raises (queue : list V2VMessage) :
  forall table vehicle s e,
    process_queue queue table vehicle s = Raise e -> e = IndexError.
Proof.
  induction queue as [|x rest IH]; intros table vehicle s e H.
  - discriminate.
  - cbn [process_queue] in H. unfold bind in H.
    destruct (process_message x rest table vehicle s) as [turn s1|e'] eqn:E.
    + destruct turn; [now apply IH in H|discriminate].
    + inversion H; subst. now apply process_message_raises in E.
Qed.

Lemma handle_message_protocol (self : Vehicle) (m : V2VMessage) (s : Sys) :
  exists self' s', handle_message self m s = Ok self' s'
                   /\ v_protocol self' = v_protocol self.
Proof.
  destruct m as [bsm|cwm|ack]; eexists _, _;
    unfold handle_message, new_VehicleState; cbn [message_type].
  - rewrite bind_bind. run. split; reflexivity.
  - split; reflexivity.
  - split; reflexivity.
Qed.

Lemma process_messages_loop_fuel (fuel : nat) :
  forall self message s,
    (List.length (incoming_messages (v_protocol self)) < fuel)%nat ->
    process_messages_loop fuel self message s <> Raise OutOfFuel.
Proof.
  induction fuel as [|fuel IH]; intros self message s Hlt; [lia|].
  destruct message as [m|]; [|discriminate].
  cbn [process_messages_loop]. unfold bind at 1.
  destruct (handle_message_protocol self m s) as (self' & s' & E & Hp).
  rewrite E. unfold bind at 1. unfold protocol_process, process. unfold bind at 1.
  destruct (process_queue _ _ _ s') as [[p [m'|]] s''|e] eqn:Eq;
    [| |apply process_queue_raises in Eq; subst; discriminate].
  - run. cbn [fst snd]. apply IH. simpl.
    apply process_queue_shrinks in Eq. rewrite Hp in Eq. lia.
  - run. cbn [fst snd]. destruct fuel; discriminate.
Qed.

(** [process_messages] never uses up the bound of its loop. *)
Lemma process_messages_fuel (self : Vehicle) (s : Sys) :
  process_messages self s <> Raise OutOfFuel.
Proof.
  unfold process_messages. unfold bind at 1. unfold protocol_process, process.
  unfold bind at 1.
  destruct (process_queue _ _ _ s) as [[p [m'|]] s''|e] eqn:Eq;
    [| |apply process_queue_raises in Eq; subst; discriminate].
  - run. cbn [fst snd]. apply process_messages_loop_fuel. simpl.
    apply process_queue_shrinks in Eq. lia.
  - run. cbn [fst snd]. discriminate.
Qed.

(** ** C4: the order of the per-vehicle phase *)

(** C4, as the code has it.  For each vehicle the loop body drains the
    inbound queue, then manages (the protocol's retransmissions and
    reaping, then the pruning of the belief map), then runs the collision
    detector with the warning it may send, then emits the BSM that is
    due. *)
Theorem vehicle_step_order (current_time : Q) (vehicle : Vehicle) (c : Counters)
    (s : Sys) :
  vehicle_step current_time vehicle c s
  = (vehicle <- process_messages vehicle ;;
     vehicle <- vehicle_manage vehicle ;;
     r <- collision_phase vehicle c ;;
     bsm_phase current_time (fst r) (snd r)) s.
Proof.
  unfold vehicle_step, collision_phase, bsm_phase, bind.
  destruct (process_messages vehicle s) as [v1 s1|e]; [|reflexivity].
  destruct (vehicle_manage v1 s1) as [v2 s2|e]; [|reflexivity].
  destruct (detect_potential_collisions v2 s2) as [[v3 [cwm|]] s3|e];
    [| |reflexivity].
  - destruct (send_message v3 (MsgCWM cwm) s3) as [v4 s4|e]; reflexivity.
  - reflexivity.
Qed.

(** The sequence number of a warning is read from the connection table
    the detector is given, in the loop body the one [manage] has left: 0
    when the connection of the peer has been reaped. *)
Lemma detect_loop_sequence (items : list (string * VehicleState)) :
  forall vehicle s vehicle' cwm s',
    detect_loop items vehicle s = Ok (vehicle', Some cwm) s' ->
    cwm_sequence_number cwm
    = get_seq_num (v_protocol vehicle) (cwm_target_vehicle_id cwm).
Proof.
  induction items as [|[k st] rest IH]; intros vehicle s vehicle' cwm s' H;
    cbn [detect_loop] in H.
  - discriminate.
  - destruct (fle _ _); [now apply IH in H|].
    destruct (_ || _); [now apply IH in H|].
    destruct (compute_ttc vehicle st) as [ttc|]; [|now apply IH in H].
    destruct (npc_lt _ _); [|now apply IH in H].
    unfold create_cwm in H. rewrite bind_bind in H. revert H. run.
    intros H. inversion H; subst. reflexivity.
Qed.

(** ** C3: time to collision *)

(** [compute_ttc] returns the first root, in the order of [np.roots],
    that is positive and finite. *)
Lemma compute_ttc_first (self : Vehicle) (front : VehicleState) :
  compute_ttc self front
  = hd_error (filter (fun r => npc_gt r (of_real 0) && npc_isfinite r)
                     (np_roots (ttc_coeff self front))).
Proof.
  unfold compute_ttc, ttc_coeff, bumper_gap.
  destruct (filter _ _); reflexivity.
Qed.

(** X17.  What [compute_ttc] returns is a root that [np.roots] gave, positive and
    finite; it returns nothing exactly when [np.roots] gave no such root. *)
Lemma compute_ttc_sound (self : Vehicle) (front : VehicleState) :
  match compute_ttc self front with
  | Some t =>
      In t (np_roots (ttc_coeff self front))
      /\ npc_gt t (of_real 0) = true /\ npc_isfinite t = true
  | None =>
      forall r, In r (np_roots (ttc_coeff self front)) ->
                npc_gt r (of_real 0) && npc_isfinite r = false
  end.
Proof.
  rewrite compute_ttc_first.
  destruct (filter _ _) as [|t l] eqn:E; simpl.
  - intros r Hr.
    destruct (npc_gt r (of_real 0) && npc_isfinite r) eqn:Hp; [|reflexivity].
    assert (Hin : In r []) by (rewrite <- E; apply filter_In; auto).
    destruct Hin.
  - assert (Hin : In t (t :: l)) by (left; reflexivity).
    rewrite <- E in Hin. apply filter_In in Hin. destruct Hin as [Hin Hp].
    apply andb_prop in Hp. tauto.
Qed.

(** C3, at an input where it fails.  The rear vehicle is at [x = 0] with
    velocity 5, the peer at [x = 10.5] standing and accelerating at 2, both
    4.5 long: the gap is [6 - 5 t + t^2], which closes at [t = 2].
    [np.roots([1, -5, 6])] lists 3 first, and [compute_ttc] returns 3. *)
Theorem compute_ttc_not_smallest :
  np_roots [1; -5 # 1; 6] = [of_real 3; of_real 2] ->
  compute_ttc ttc_rear ttc_front = Some (of_real 3)
  /\ gap_at ttc_rear ttc_front 2 == 0
  /\ 0 < 2 /\ 2 < 3.
Proof.
  intros H. rewrite compute_ttc_first.
  change (ttc_coeff ttc_rear ttc_front) with [1; -5 # 1; 6].
  rewrite H. repeat split.
Qed.

Lemma Qsquare_nonneg (a : Q) : 0 <= a * a.
Proof.
  destruct (Qlt_le_dec a 0) as [H|H].
  - assert (E : a * a == (- a) * (- a)) by ring. rewrite E.
    apply Qmult_le_0_compat; lra.
  - apply Qmult_le_0_compat; assumption.
Qed.

(** With the roots [1 + i] and [1 - i] the gap never closes, and
    [compute_ttc] returns [1 + i]: the comparison with 0 goes by the real
    part. *)
Lemma compute_ttc_complex_root :
  np_roots [1; -2 # 1; 2]
  = [mkComplex (Fin 1) (Fin 1); mkComplex (Fin 1) (Fin (-1 # 1))] ->
  compute_ttc ttc_rear_slow ttc_front_near = Some (mkComplex (Fin 1) (Fin 1))
  /\ forall t : Q, 0 < gap_at ttc_rear_slow ttc_front_near t.
Proof.
  intros H. rewrite compute_ttc_first.
  change (ttc_coeff ttc_rear_slow ttc_front_near) with [1; -2 # 1; 2].
  rewrite H. split; [reflexivity|].
  intros t. unfold gap_at.
  change (bumper_gap ttc_rear_slow ttc_front_near) with 2.
  change (fsub (vs_velocity ttc_front_near) (v_velocity ttc_rear_slow)) with (-2 # 1).
  change (fsub (vs_acceleration ttc_front_near) (v_acceleration ttc_rear_slow)) with 2.
  assert (E : 2 + (-2 # 1) * t + (1 # 2) * 2 * t * t == (t - 1) * (t - 1) + 1) by ring.
  rewrite E.
  pose proof (Qsquare_nonneg (t - 1)).
  lra.
Qed.

(** With equal accelerations [np.roots] drops the leading zero and the
    one root of the linear equation is returned when it is positive. *)
Lemma compute_ttc_linear (self : Vehicle) (front : VehicleState) (r : Q) :
  np_roots (ttc_coeff self front) = [of_real r] ->
  compute_ttc self front = if fgt r 0 then Some (of_real r) else None.
Proof.
  intros H. rewrite compute_ttc_first, H. cbn [filter].
  assert (E : npc_gt (of_real r) (of_real 0) && npc_isfinite (of_real r) = fgt r 0).
  { unfold npc_gt, npc_isfinite, of_real.
    cbn [re im npf_gt npf_eq npf_isnan npf_isfinite negb].
    change (fgt 0 0) with false.
    now rewrite !andb_true_r, andb_false_r, orb_false_r. }
  rewrite E. destruct (fgt r 0); reflexivity.
Qed.

(** ** C1: the digest check *)

Lemma bytes_eqb_eq (a b : bytes) : bytes_eqb a b = true <-> a = b.
Proof.
  revert b. induction a as [|x a IH]; intros [|y b]; simpl; split;
    try discriminate; try reflexivity.
  - intros H. apply andb_prop in H. destruct H as [Hx Hab].
    apply Byte.byte_dec_bl in Hx. apply IH in Hab. now subst.
  - intros H. inversion H; subst.
    rewrite (Byte.byte_dec_lb (eq_refl y)). simpl. now apply IH.
Qed.

(** [receive] keeps a message exactly when it is for this vehicle and the
    digest that came with it is the digest of its fields. *)
Lemma receive_cases (self : Protocol) (vehicle : string) (message : V2VMessage)
    (message_hash : bytes) :
  (get_message_hash message <> message_hash -> receive self vehicle message message_hash = self)
  /\ (get_message_hash message = message_hash ->
      (forall target, target_vehicle_id message = Some target -> target = vehicle) ->
      receive self vehicle message message_hash
      = mkProtocol (outgoing_cwms self) (pq_put message (incoming_messages self))).
Proof.
  unfold receive. split.
  - intros Hne.
    destruct (target_vehicle_id message) as [target|];
      [destruct (negb (String.eqb vehicle target)); [reflexivity|]|];
      (destruct (bytes_eqb (get_message_hash message) message_hash) eqn:E;
       [apply bytes_eqb_eq in E; contradiction|reflexivity]).
  - intros Heq Ht.
    assert (E : bytes_eqb (get_message_hash message) message_hash = true)
      by now apply bytes_eqb_eq.
    destruct (target_vehicle_id message) as [target|].
    + rewrite (Ht target eq_refl), String.eqb_refl. simpl. now rewrite E.
    + now rewrite E.
Qed.

(** C1, where it fails.  [send] computes the digest, then overwrites the
    timestamp, then hands both to the medium: the frame carries the digest
    of the message as it was before.  When the digest tells the two
    timestamps apart, every receiver discards the message. *)
Theorem first_transmission_digest_mismatch (self : Protocol) (vehicle : string)
    (message : V2VMessage) (s : Sys) (receiver : Protocol) (rid : string) :
  (forall c, message = MsgCWM c ->
     cwms (connection_for (outgoing_cwms self) (cwm_target_vehicle_id c)) = []) ->
  get_message_hash (set_timestamp (stamp_time message s) message)
  <> get_message_hash message ->
  exists self' s',
    send self vehicle message s = Ok self' s'
    /\ history (net s')
       = mkFrame vehicle (set_timestamp (stamp_time message s) message)
                 (get_message_hash message)
         :: history (net s)
    /\ receive receiver rid (set_timestamp (stamp_time message s) message)
               (get_message_hash message)
       = receiver.
Proof.
  intros Hq Hne.
  assert (Hr : receive receiver rid (set_timestamp (stamp_time message s) message)
                       (get_message_hash message) = receiver)
    by (apply receive_cases; exact Hne).
  destruct message as [bsm|cwm|ack].
  - rewrite send_bsm_eq. eexists _, _. split; [reflexivity|].
    split; [rewrite aired_history; reflexivity|exact Hr].
  - pose proof (send_cwm_eq self vehicle cwm s) as E. cbv zeta in E.
    rewrite (Hq cwm eq_refl) in E. rewrite E.
    eexists _, _. split; [reflexivity|].
    split; [rewrite aired_history; reflexivity|exact Hr].
  - rewrite send_ack_eq. eexists _, _. split; [reflexivity|].
    split; [rewrite aired_history; reflexivity|exact Hr].
Qed.

(** ** C2: timestamps are clock readings *)

Lemma stamped_quiet (s s' : Sys) :
  wall s' = wall s -> (wall_idx s <= wall_idx s')%nat ->
  history (net s') = history (net s) -> stamped_by_wall s s'.
Proof.
  intros Hw Hi Hh. repeat split; auto. exists []. split; auto.
Qed.

Lemma stamped_refl (s : Sys) : stamped_by_wall s s.
Proof. apply stamped_quiet; auto. Qed.

Lemma stamped_trans (s1 s2 s3 : Sys) :
  stamped_by_wall s1 s2 -> stamped_by_wall s2 s3 -> stamped_by_wall s1 s3.
Proof.
  intros (Hw1 & Hi1 & f1 & Hh1 & Hf1) (Hw2 & Hi2 & f2 & Hh2 & Hf2).
  split; [congruence|]. split; [lia|].
  exists (f2 ++ f1). split; [rewrite Hh2, Hh1; apply app_assoc|].
  apply Forall_app. split.
  - eapply Forall_impl; [|exact Hf2]. intros f (i & Hr & Ht).
    exists i. split; [lia|]. now rewrite <- Hw1.
  - eapply Forall_impl; [|exact Hf1]. intros f (i & Hr & Ht).
    exists i. split; [lia|exact Ht].
Qed.

Lemma stamped_tick (s0 s : Sys) :
  stamped_by_wall s0 s -> stamped_by_wall s0 (tick s).
Proof.
  intros H. eapply stamped_trans; [exact H|]. apply stamped_quiet; simpl; auto.
Qed.

Lemma stamped_aired (s0 s : Sys) (v : string) (m : V2VMessage) (h : bytes) :
  stamped_by_wall s0 s ->
  (exists i, (wall_idx s0 <= i < wall_idx s)%nat /\ timestamp m = wall s0 i) ->
  stamped_by_wall s0 (aired v m h s).
Proof.
  intros (Hw & Hi & fs & Hh & Hf) (i & Hr & Ht).
  destruct (aired_wall v m h s) as [Hw' Hi'].
  split; [congruence|]. split; [lia|].
  exists (mkFrame v m h :: fs). split; [rewrite aired_history, Hh; reflexivity|].
  constructor.
  - exists i. simpl. split; [lia|exact Ht].
  - eapply Forall_impl; [|exact Hf]. intros f (j & Hj & Htj).
    exists j. split; [lia|exact Htj].
Qed.

Lemma timestamp_set (t : Q) (m : V2VMessage) : timestamp (set_timestamp t m) = t.
Proof. destruct m; reflexivity. Qed.

Lemma keeps_ret {A} (a : A) : keeps_stamps (ret a).
Proof. intros s a' s' H. inversion H; subst. apply stamped_refl. Qed.

Lemma keeps_raise {A} (e : Exn) : keeps_stamps (@raise A e).
Proof. intros s a' s' H. discriminate. Qed.

Lemma keeps_time : keeps_stamps time_time.
Proof.
  intros s a s' H. inversion H; subst. apply (stamped_tick s s), stamped_refl.
Qed.

Lemma keeps_bind {A B} (m : M A) (f : A -> M B) :
  keeps_stamps m -> (forall a, keeps_stamps (f a)) -> keeps_stamps (bind m f).
Proof.
  intros Hm Hf s b s' H. unfold bind in H.
  destruct (m s) as [a s1|e] eqn:E; [|discriminate].
  eapply stamped_trans; [eapply Hm; exact E|eapply Hf; exact H].
Qed.

(** One more reading, then a frame stamped with a reading taken since
    [s]. *)
Ltac stamp_now :=
  repeat first
    [ apply stamped_refl
    | apply stamped_tick
    | apply stamped_aired ].

Lemma keeps_send (self : Protocol) (vehicle : string) (message : V2VMessage) :
  keeps_stamps (send self vehicle message).
Proof.
  intros s a s' H. destruct message as [bsm|cwm|ack].
  - rewrite send_bsm_eq in H. inversion H; subst.
    stamp_now. exists (wall_idx s). simpl. split; [lia|reflexivity].
  - pose proof (send_cwm_eq self vehicle cwm s) as E. cbv zeta in E.
    rewrite E in H.
    destruct (cwms _); inversion H; subst; stamp_now.
    exists (S (wall_idx s)). simpl. split; [lia|reflexivity].
  - rewrite send_ack_eq in H. inversion H; subst.
    stamp_now. exists (wall_idx s). simpl. split; [lia|reflexivity].
Qed.

Lemma keeps_process_message (message : V2VMessage) (rest : list V2VMessage)
    (table : Connections) (vehicle : string) :
  keeps_stamps (process_message message rest table vehicle).
Proof.
  intros s a s' H. destruct message as [bsm|cwm|ack].
  - inversion H; subst. apply stamped_refl.
  - rewrite process_message_cwm in H. cbv zeta in H.
    destruct (_ >? _)%Z; [inversion H; subst; stamp_now|].
    destruct (_ =? _)%Z; inversion H; subst; stamp_now;
      exists (S (S (wall_idx s))); simpl; (split; [lia|reflexivity]).
  - destruct (conn_get table (ack_vehicle_id ack)) as [conn|] eqn:Hget.
    + rewrite (process_message_ack _ _ _ _ _ _ Hget) in H. cbv zeta in H.
      destruct (_ =? _)%Z; [|inversion H; subst; stamp_now].
      destruct (cwms conn) as [|head [|next others]]; [discriminate| |];
        inversion H; subst; stamp_now.
      exists (S (S (wall_idx s))). simpl. split; [lia|reflexivity].
    + unfold process_message in H. rewrite Hget in H.
      inversion H; subst. apply stamped_refl.
Qed.

Lemma keeps_process_queue (queue : list V2VMessage) :
  forall table vehicle, keeps_stamps (process_queue queue table vehicle).
Proof.
  induction queue as [|x rest IH]; intros table vehicle.
  - apply keeps_ret.
  - cbn [process_queue]. apply keeps_bind; [apply keeps_process_message|].
    intros [t|t m]; [apply IH|apply keeps_ret].
Qed.

Lemma keeps_manage_item (key : string) (conn : CWMConnection)
    (table : Connections) (vehicle : string) :
  keeps_stamps (manage_item key conn table vehicle).
Proof.
  intros s a s' H. unfold manage_item in H.
  destruct (cwms conn) as [|cwm others]; revert H; run.
  - destruct (fgt _ _); intros H; inversion H; subst; stamp_now.
  - destruct (fgt _ _); run; intros H; inversion H; subst; stamp_now.
    exists (S (S (wall_idx s))). simpl. split; [lia|reflexivity].
Qed.

Lemma keeps_manage_items (items : list (string * CWMConnection)) :
  forall table vehicle, keeps_stamps (manage_items items table vehicle).
Proof.
  induction items as [|[key conn] rest IH]; intros table vehicle.
  - apply keeps_ret.
  - cbn [manage_items]. apply keeps_bind; [apply keeps_manage_item|].
    intros t. apply IH.
Qed.

Lemma keeps_prune_items (items : list (string * VehicleState)) :
  forall m, keeps_stamps (prune_items items m).
Proof.
  induction items as [|[k st] rest IH]; intros m.
  - apply keeps_ret.
  - cbn [prune_items]. apply keeps_bind; [apply keeps_time|].
    intros t. destruct (fgt _ _); apply IH.
Qed.

(** Takes a monadic definition apart down to the operations whose lemma
    is at hand. *)
Ltac keeps :=
  repeat first
    [ apply keeps_ret
    | apply keeps_raise
    | apply keeps_time
    | apply keeps_send
    | apply keeps_process_queue
    | apply keeps_manage_items
    | apply keeps_prune_items
    | apply keeps_bind; [|intros]
    | match goal with
      | |- keeps_stamps (let '(_, _) := ?x in _) => destruct x
      | |- keeps_stamps (match ?x with _ => _ end) => destruct x
      | |- keeps_stamps (if ?b then _ else _) => destruct b
      end ].






Lemma keeps_send_message (self : Vehicle) (m : V2VMessage) :
  keeps_stamps (send_message self m).
Proof. unfold send_message. keeps. Qed.







(** ** C2: a run is a function of the samples and readings it draws *)




























(** * Further properties of the code *)

(** ** Float comparisons *)

Lemma fadd_eq (a b : Q) : fadd a b == a + b.
Proof. apply Qred_correct. Qed.

Lemma fsub_eq (a b : Q) : fsub a b == a - b.
Proof. apply Qred_correct. Qed.

Lemma fmul_eq (a b : Q) : fmul a b == a * b.
Proof. apply Qred_correct. Qed.

Lemma fneg_eq (a : Q) : fneg a == - a.
Proof. apply Qred_correct. Qed.

Lemma fgt_true (a b : Q) : fgt a b = true <-> b < a.
Proof.
  unfold fgt. rewrite negb_true_iff. split.
  - intros H. apply Qnot_le_lt. intros Hle. apply Qle_bool_iff in Hle. congruence.
  - intros H. destruct (Qle_bool a b) eqn:E; [|reflexivity].
    apply Qle_bool_iff in E. lra.
Qed.

Lemma fgt_false (a b : Q) : fgt a b = false <-> a <= b.
Proof.
  unfold fgt. rewrite negb_false_iff. apply Qle_bool_iff.
Qed.

Lemma flt_true (a b : Q) : flt a b = true <-> a < b.
Proof. apply (fgt_true b a). Qed.

Lemma flt_false (a b : Q) : flt a b = false <-> b <= a.
Proof. apply (fgt_false b a). Qed.

Lemma fle_true (a b : Q) : fle a b = true <-> a <= b.
Proof. apply Qle_bool_iff. Qed.

Lemma fle_false (a b : Q) : fle a b = false <-> b < a.
Proof.
  unfold fle. split.
  - intros H. apply Qnot_le_lt. intros Hle. apply Qle_bool_iff in Hle. congruence.
  - intros H. destruct (Qle_bool a b) eqn:E; [|reflexivity].
    apply Qle_bool_iff in E. lra.
Qed.

Lemma fmax_spec (a b : Q) : a <= fmax a b /\ b <= fmax a b /\ (fmax a b = a \/ fmax a b = b).
Proof.
  unfold fmax. destruct (fgt b a) eqn:E.
  - apply fgt_true in E. repeat split; auto; lra.
  - apply fgt_false in E. repeat split; auto; lra.
Qed.

Lemma fmin_spec (a b : Q) : fmin a b <= a /\ fmin a b <= b /\ (fmin a b = a \/ fmin a b = b).
Proof.
  unfold fmin. destruct (flt b a) eqn:E.
  - apply flt_true in E. repeat split; auto; lra.
  - apply flt_false in E. repeat split; auto; lra.
Qed.

(** [np.clip] with [lo <= hi] lands between the bounds and leaves a value
    that is already between them as it is. *)
Lemma np_clip_spec (x lo hi : Q) :
  lo <= hi ->
  lo <= np_clip x lo hi /\ np_clip x lo hi <= hi
  /\ (lo <= x -> x <= hi -> np_clip x lo hi == x).
Proof.
  intros H. unfold np_clip.
  destruct (fmax_spec x lo) as (H1 & H2 & H3).
  destruct (fmin_spec hi (fmax x lo)) as (H4 & H5 & H6).
  split; [destruct H6 as [-> | ->]; assumption|].
  split; [assumption|].
  intros Hlo Hhi.
  assert (E : fmax x lo == x).
  { unfold fmax. destruct (fgt lo x) eqn:E; [apply fgt_true in E; lra|reflexivity]. }
  unfold fmin. destruct (flt (fmax x lo) hi) eqn:F; [exact E|].
  apply flt_false in F. lra.
Qed.

(** ** update_physics *)

Lemma update_physics_velocity_nonneg (self : Vehicle) (dt : Q) :
  0 <= v_velocity (update_physics self dt).
Proof. unfold update_physics. cbn [v_velocity]. apply fmax_spec. Qed.

(** X1.  After a physics step the velocity is not negative and the
    acceleration lies between [-MAX_DECELERATION] and [MAX_ACCELERATION],
    whatever the vehicle and the time step were. *)
Theorem update_physics_bounds (self : Vehicle) (dt : Q) :
  0 <= v_velocity (update_physics self dt)
  /\ - CONFIG.MAX_DECELERATION <= v_acceleration (update_physics self dt)
  /\ v_acceleration (update_physics self dt) <= CONFIG.MAX_ACCELERATION.
Proof.
  split; [apply update_physics_velocity_nonneg|].
  unfold update_physics. cbn [v_acceleration].
  destruct (emergency_braking self).
  - rewrite fneg_eq. unfold CONFIG.MAX_DECELERATION, CONFIG.MAX_ACCELERATION. lra.
  - assert (B : fneg CONFIG.MAX_DECELERATION <= CONFIG.MAX_ACCELERATION)
      by (rewrite fneg_eq; unfold CONFIG.MAX_DECELERATION, CONFIG.MAX_ACCELERATION; lra).
    destruct (np_clip_spec (fmul (fsub (target_velocity self) (v_velocity self)) 2)
                (fneg CONFIG.MAX_DECELERATION) CONFIG.MAX_ACCELERATION B)
      as (L & U & _).
    split; [rewrite <- (fneg_eq CONFIG.MAX_DECELERATION); exact L|exact U].
Qed.

(** X2.  Under emergency braking a step with [dt >= 0] brakes at
    [MAX_DECELERATION], never speeds the vehicle up and never makes the
    velocity negative, stops the vehicle when its velocity is no more than
    the product [MAX_DECELERATION * dt] that the step takes off, and leaves
    the emergency flag and the target velocity as they are. *)
Theorem update_physics_emergency (self : Vehicle) (dt : Q) :
  emergency_braking self = true ->
  0 <= dt ->
  0 <= v_velocity self ->
  v_acceleration (update_physics self dt) == - CONFIG.MAX_DECELERATION
  /\ 0 <= v_velocity (update_physics self dt) <= v_velocity self
  /\ (v_velocity self <= fmul CONFIG.MAX_DECELERATION dt ->
      v_velocity (update_physics self dt) == 0)
  /\ emergency_braking (update_physics self dt) = true
  /\ target_velocity (update_physics self dt) = target_velocity self.
Proof.
  intros He Hdt Hv.
  pose proof (update_physics_velocity_nonneg self dt) as Hn. revert Hn.
  unfold update_physics.
  cbn [v_velocity v_acceleration emergency_braking target_velocity].
  rewrite He. intros Hn. split; [apply fneg_eq|].
  set (v' := fadd (v_velocity self) (fmul (fneg CONFIG.MAX_DECELERATION) dt)) in *.
  assert (Ev : v' == v_velocity self - CONFIG.MAX_DECELERATION * dt).
  { unfold v'. rewrite fadd_eq, fmul_eq, fneg_eq. ring. }
  assert (Hd : 0 <= CONFIG.MAX_DECELERATION * dt).
  { apply Qmult_le_0_compat; [unfold CONFIG.MAX_DECELERATION; lra|exact Hdt]. }
  split; [split; [exact Hn|]|split; [|split; reflexivity]].
  - destruct (fmax_spec 0 v') as (_ & _ & [E | E]); rewrite E; lra.
  - rewrite fmul_eq. intros Hs. unfold fmax.
    destruct (fgt v' 0) eqn:G; [|reflexivity].
    apply fgt_true in G. lra.
Qed.

(** X3.  A vehicle heading east, as every vehicle [Vehicle.__init__]
    builds, keeps its [y], keeps its heading and, for [dt >= 0], never
    moves backwards. *)
Theorem update_physics_straight_line (self : Vehicle) (dt : Q) :
  direction self = (1, 0) ->
  0 <= dt ->
  snd (v_position (update_physics self dt)) == snd (v_position self)
  /\ fst (v_position self) <= fst (v_position (update_physics self dt))
  /\ direction (update_physics self dt) = (1, 0).
Proof.
  intros Hd Hdt.
  pose proof (update_physics_velocity_nonneg self dt) as Hv.
  revert Hv. unfold update_physics.
  cbn [v_velocity v_position direction fst snd]. rewrite Hd. cbn [fst snd].
  set (v' := fmax 0 _). intros Hv.
  assert (Ey : fadd (snd (v_position self)) (fmul (fmul 0 v') dt) == snd (v_position self)).
  { rewrite fadd_eq, !fmul_eq. ring. }
  assert (Ex : fadd (fst (v_position self)) (fmul (fmul 1 v') dt)
               == fst (v_position self) + v' * dt).
  { rewrite fadd_eq, !fmul_eq. ring. }
  split; [exact Ey|]. split; [|reflexivity].
  rewrite Ex. pose proof (Qmult_le_0_compat _ _ Hv Hdt). lra.
Qed.

(** X4.  Cruise control at the target velocity: no acceleration, and the
    velocity stays. *)
Theorem update_physics_cruise (self : Vehicle) (dt : Q) :
  emergency_braking self = false ->
  v_velocity self == target_velocity self ->
  0 <= v_velocity self ->
  v_acceleration (update_physics self dt) == 0
  /\ v_velocity (update_physics self dt) == v_velocity self.
Proof.
  intros He Hv Hp. unfold update_physics. cbn [v_velocity v_acceleration].
  rewrite He.
  set (d := fmul (fsub (target_velocity self) (v_velocity self)) 2).
  assert (Ed : d == 0) by (unfold d; rewrite fmul_eq, fsub_eq; lra).
  assert (B : fneg CONFIG.MAX_DECELERATION <= CONFIG.MAX_ACCELERATION)
    by (rewrite fneg_eq; unfold CONFIG.MAX_DECELERATION, CONFIG.MAX_ACCELERATION; lra).
  destruct (np_clip_spec d (fneg CONFIG.MAX_DECELERATION) CONFIG.MAX_ACCELERATION B)
    as (_ & _ & Hc).
  assert (Ea : np_clip d (fneg CONFIG.MAX_DECELERATION) CONFIG.MAX_ACCELERATION == 0).
  { rewrite Hc; [exact Ed| |].
    - rewrite fneg_eq, Ed. unfold CONFIG.MAX_DECELERATION. lra.
    - rewrite Ed. unfold CONFIG.MAX_ACCELERATION. lra. }
  split; [exact Ea|].
  set (a := np_clip d _ _) in *.
  assert (Es : fadd (v_velocity self) (fmul a dt) == v_velocity self).
  { rewrite fadd_eq, fmul_eq, Ea. ring. }
  unfold fmax. destruct (fgt _ 0) eqn:G; [exact Es|].
  apply fgt_false in G. rewrite Es in G. lra.
Qed.

(** ** The medium *)

Lemma bytes_eqb_refl (h : bytes) : bytes_eqb h h = true.
Proof. now apply bytes_eqb_eq. Qed.

Lemma pending_get_set_same (d : list (bytes * (string * V2VMessage))) (h : bytes)
    (x : string * V2VMessage) :
  PyDict.get bytes_eqb (PyDict.set bytes_eqb d h x) h = Some x.
Proof.
  induction d as [|[k y] d IH]; simpl.
  - now rewrite bytes_eqb_refl.
  - destruct (bytes_eqb k h) eqn:E; simpl; rewrite E; auto.
Qed.

Lemma pending_get_set_other (d : list (bytes * (string * V2VMessage))) (h k : bytes)
    (x : string * V2VMessage) :
  h <> k -> PyDict.get bytes_eqb (PyDict.set bytes_eqb d h x) k = PyDict.get bytes_eqb d k.
Proof.
  intros Hne. induction d as [|[k0 y] d IH]; simpl.
  - destruct (bytes_eqb h k) eqn:E; auto. apply bytes_eqb_eq in E. contradiction.
  - destruct (bytes_eqb k0 h) eqn:E; simpl.
    + apply bytes_eqb_eq in E. subst k0.
      destruct (bytes_eqb h k) eqn:E'; auto. apply bytes_eqb_eq in E'. contradiction.
    + destruct (bytes_eqb k0 k); auto.
Qed.

(** The loss test [randint(1, 100) / 100 <= PACKET_LOSS] holds exactly for
    the samples up to 5. *)
Lemma loss_test (r : Z) :
  fle (fdiv (inject_Z r) 100) CONFIG.PACKET_LOSS = true <-> (r <= 5)%Z.
Proof.
  rewrite fle_true. unfold fdiv, CONFIG.PACKET_LOSS. rewrite Qred_correct.
  assert (E : inject_Z r / 100 == inject_Z r * (1 # 100)) by reflexivity.
  rewrite E. rewrite (Zle_Qle r 5). change (inject_Z 5) with 5. split; intros H; lra.
Qed.

(** X5.  [broadcast_message] counts every packet.  With a sample up to 5 it
    counts the packet as lost and leaves the pending set alone; with a
    larger one it files the message under its digest, replacing what was
    pending under the same digest and nothing else. *)
Theorem broadcast_message_loss (v : string) (m : V2VMessage) (h : bytes) (s : Sys) :
  exists s',
    broadcast_message v m h s = Ok tt s'
    /\ total_packets (net s') = (total_packets (net s) + 1)%Z
    /\ total_latency (net s') = total_latency (net s)
    /\ ((dice s (dice_idx s) <= 5)%Z ->
          lost_packets (net s') = (lost_packets (net s) + 1)%Z
          /\ all_messages (net s') = all_messages (net s))
    /\ ((5 < dice s (dice_idx s))%Z ->
          lost_packets (net s') = lost_packets (net s)
          /\ PyDict.get bytes_eqb (all_messages (net s')) h = Some (v, m)
          /\ forall k, h <> k ->
               PyDict.get bytes_eqb (all_messages (net s')) k
               = PyDict.get bytes_eqb (all_messages (net s)) k).
Proof.
  unfold broadcast_message, bind, get_net, put_net, randint_1_100. simpl.
  destruct (fle _ _) eqn:E; eexists; (split; [reflexivity|]); simpl;
    (split; [reflexivity|]); (split; [reflexivity|]); split; intros H.
  - split; reflexivity.
  - apply loss_test in E. lia.
  - assert (E' : fle (fdiv (inject_Z (dice s (dice_idx s))) 100) CONFIG.PACKET_LOSS = true)
      by (apply loss_test; exact H).
    congruence.
  - split; [reflexivity|]. split; [apply pending_get_set_same|].
    intros k Hk. now apply pending_get_set_other.
Qed.

Lemma fgt_compat (a a' b b' : Q) : a == a' -> b == b' -> fgt a b = fgt a' b'.
Proof. intros Ha Hb. unfold fgt. now rewrite Ha, Hb. Qed.

(** X6.  [in_range] does not depend on which of the two vehicles is called
    the source, and every vehicle is in range of itself. *)
Theorem in_range_symmetric (a b : Vehicle) :
  in_range a b = in_range b a /\ in_range a a = true.
Proof.
  unfold in_range. split.
  - match goal with
    | |- (if fgt ?x ?c then _ else _) = (if fgt ?y _ then _ else _) =>
        assert (E : fgt x c = fgt y c)
    end.
    { apply fgt_compat; [|reflexivity].
      rewrite !fadd_eq, !fmul_eq, !fsub_eq. ring. }
    now rewrite E.
  - match goal with
    | |- (if fgt ?x ?c then _ else _) = _ => assert (E : fgt x c = false)
    end.
    { apply fgt_false. rewrite !fadd_eq, !fmul_eq, !fsub_eq.
      unfold CONFIG.COMMUNICATION_RANGE.
      assert (Z0 : forall q : Q, (q - q) * (q - q) == 0) by (intros q; ring).
      rewrite !Z0. lra. }
    now rewrite E.
Qed.

(** *** Delivery *)

Lemma deliver_one_keys (sv : string) (m : V2VMessage) (h : bytes) (all : Vehicles) :
  map fst (deliver_one sv m h all) = map fst all.
Proof.
  unfold deliver_one. destruct (PyDict.get String.eqb all sv) as [sender|]; [|reflexivity].
  rewrite map_map. apply map_ext. intros [k v]. simpl.
  destruct (String.eqb _ _); [reflexivity|]. destruct (negb _); reflexivity.
Qed.

(** X7.  One delivery hands the message to the vehicles other than the sender
    that are in range of it, by [receive_message], and to no other: the
    sender and the vehicles out of range are left as they are. *)
Theorem deliver_one_recipients (sv : string) (m : V2VMessage) (h : bytes)
    (all : Vehicles) (k : string) (v' : Vehicle) :
  In (k, v') (deliver_one sv m h all) ->
  exists v,
    In (k, v) all
    /\ (v' = v
        \/ (v_vehicle_id v <> sv
            /\ (exists sender, PyDict.get String.eqb all sv = Some sender
                               /\ in_range v sender = true)
            /\ v' = receive_message v m h)).
Proof.
  unfold deliver_one. destruct (PyDict.get String.eqb all sv) as [sender|] eqn:G.
  - intros H. apply in_map_iff in H. destruct H as ([k0 v] & E & Hin).
    simpl in E.
    destruct (String.eqb (v_vehicle_id v) sv) eqn:Es.
    + inversion E; subst. exists v'. auto.
    + destruct (in_range v sender) eqn:Er; simpl in E; inversion E; subst.
      * exists v. split; [exact Hin|]. right.
        split; [intros Hc; apply String.eqb_eq in Hc; congruence|].
        split; [exists sender; auto|reflexivity].
      * exists v'. auto.
  - intros H. exists v'. auto.
Qed.

(** What [receive_message] can change in a vehicle is its inbound queue
    and nothing else. *)
Lemma receive_message_frame (v : Vehicle) (m : V2VMessage) (h : bytes) :
  set_protocol (mkProtocol (outgoing_cwms (v_protocol v)) []) (receive_message v m h)
  = set_protocol (mkProtocol (outgoing_cwms (v_protocol v)) []) v.
Proof.
  unfold receive_message, receive.
  destruct (match target_vehicle_id m with Some _ => _ | None => _ end);
    [reflexivity|].
  destruct (negb _); reflexivity.
Qed.

Lemma deliver_items_spec (items : list (bytes * (string * V2VMessage))) :
  forall all s,
    all_messages (net s) = items ->
    exists all' s',
      deliver_items items all s = Ok all' s'
      /\ all_messages (net s') = []
      /\ lost_packets (net s') = lost_packets (net s)
      /\ total_packets (net s') = total_packets (net s)
      /\ history (net s') = history (net s)
      /\ map fst all' = map fst all
      /\ wall_idx s' = (wall_idx s + List.length items)%nat
      /\ dice_idx s' = dice_idx s.
Proof.
  induction items as [|[h [v m]] rest IH]; intros all s Hs.
  - exists all, s. simpl. rewrite Nat.add_0_r. repeat split; auto.
  - set (s1 := mkSys (wall s) (S (wall_idx s)) (dice s) (dice_idx s)
                    (mkNet (PyDict.del bytes_eqb (all_messages (net s)) h)
                           (lost_packets (net s)) (total_packets (net s))
                           (fadd (total_latency (net s)) (fsub (now s) (timestamp m)))
                           (history (net s)))).
    assert (E1 : deliver_items ((h, (v, m)) :: rest) all s
                 = deliver_items rest (deliver_one v m h all) s1) by reflexivity.
    assert (Hs1 : all_messages (net s1) = rest).
    { unfold s1. cbn [net all_messages]. rewrite Hs. cbn [PyDict.del].
      now rewrite bytes_eqb_refl. }
    destruct (IH (deliver_one v m h all) s1 Hs1)
      as (all' & s' & E & H1 & H2 & H3 & H4 & H5 & H6 & H7).
    exists all', s'. rewrite E1, E. simpl in *.
    repeat split; auto.
    + rewrite H5. apply deliver_one_keys.
    + rewrite H6. lia.
Qed.

(** X8.  [deliver_messages] always returns, and leaves the pending set empty.
    It reads the clock once per pending message, draws no sample, leaves
    the packet counters alone, hands nothing to the medium, and keeps the
    vehicles and their order. *)
Theorem deliver_messages_empties_pending (all : Vehicles) (s : Sys) :
  exists all' s',
    deliver_messages all s = Ok all' s'
    /\ all_messages (net s') = []
    /\ lost_packets (net s') = lost_packets (net s)
    /\ total_packets (net s') = total_packets (net s)
    /\ history (net s') = history (net s)
    /\ map fst all' = map fst all
    /\ wall_idx s' = (wall_idx s + List.length (all_messages (net s)))%nat
    /\ dice_idx s' = dice_idx s.
Proof.
  unfold deliver_messages, bind, get_net.
  apply deliver_items_spec. reflexivity.
Qed.

(** ** Messages and the protocol *)

(** X9.  [__lt__] is a strict order in which every CWM comes before every BSM
    and ACK, whatever the timestamps, and messages of one priority go by
    timestamp. *)
Theorem msg_lt_priority_order :
  (forall a, msg_lt a a = false)
  /\ (forall a b, msg_lt a b = true -> msg_lt b a = false)
  /\ (forall a b c, msg_lt a b = true -> msg_lt b c = true -> msg_lt a c = true)
  /\ (forall a b, message_type a = CWM -> message_type b <> CWM ->
        msg_lt a b = true /\ msg_lt b a = false)
  /\ (forall a b, priority a = priority b ->
        (msg_lt a b = true <-> timestamp a < timestamp b)).
Proof.
  assert (P : forall a b, priority a = priority b ->
                msg_lt a b = flt (timestamp a) (timestamp b)).
  { intros a b E. unfold msg_lt. rewrite E, Z.eqb_refl. reflexivity. }
  assert (E : forall a b, priority a = EMERGENCY -> priority b = NORMAL ->
                msg_lt a b = true /\ msg_lt b a = false).
  { intros a b Ha Hb. unfold msg_lt. rewrite Ha, Hb. split; reflexivity. }
  assert (D : forall a, priority a = EMERGENCY \/ priority a = NORMAL)
    by (intros a; destruct (priority a); auto).
  split; [|split; [|split; [|split]]].
  - intros a. rewrite P by reflexivity. apply flt_false. lra.
  - intros a b H. destruct (D a) as [Ha|Ha], (D b) as [Hb|Hb].
    + rewrite P in * by congruence. apply flt_true in H. apply flt_false. lra.
    + now apply E.
    + destruct (E b a Hb Ha). congruence.
    + rewrite P in * by congruence. apply flt_true in H. apply flt_false. lra.
  - intros a b c H1 H2.
    destruct (D a) as [Ha|Ha], (D b) as [Hb|Hb], (D c) as [Hc|Hc];
      try (now apply E);
      try (destruct (E b a Hb Ha); congruence);
      try (destruct (E c b Hc Hb); congruence);
      rewrite P in * by congruence;
      apply flt_true in H1; apply flt_true in H2; apply flt_true; lra.
  - intros a b Ha Hb. apply E.
    + destruct a; simpl in *; congruence.
    + destruct b; simpl in *; congruence.
  - intros a b Hp. rewrite P by exact Hp. apply flt_true.
Qed.

Lemma send_keeps_incoming (self : Protocol) (vehicle : string)
    (message : V2VMessage) (s : Sys) :
  exists self' s',
    send self vehicle message s = Ok self' s'
    /\ incoming_messages self' = incoming_messages self.
Proof.
  destruct message as [bsm|cwm|ack].
  - rewrite send_bsm_eq. eexists _, _. split; reflexivity.
  - pose proof (send_cwm_eq self vehicle cwm s) as E. cbv zeta in E. rewrite E.
    destruct (cwms (connection_for (outgoing_cwms self) (cwm_target_vehicle_id cwm)));
      eexists _, _; split; reflexivity.
  - rewrite send_ack_eq. eexists _, _. split; reflexivity.
Qed.

(** X10.  [send] leaves every sequence number that [get_seq_num] reports as it
    is: a CWM created while another waits for its ACK gets the number of
    the one ahead of it. *)
Theorem send_keeps_seq_num (self : Protocol) (vehicle : string)
    (message : V2VMessage) (s : Sys) (key : string) :
  exists self' s',
    send self vehicle message s = Ok self' s'
    /\ get_seq_num self' key = get_seq_num self key
    /\ incoming_messages self' = incoming_messages self.
Proof.
  destruct message as [bsm|cwm|ack].
  - rewrite send_bsm_eq. eexists _, _. repeat split.
  - pose proof (send_cwm_eq self vehicle cwm s) as E. cbv zeta in E.
    assert (G : forall c,
              send_seq_num c
              = send_seq_num (connection_for (outgoing_cwms self) (cwm_target_vehicle_id cwm)) ->
              get_seq_num
                (mkProtocol (conn_set (table_with (outgoing_cwms self)
                                                  (cwm_target_vehicle_id cwm))
                                      (cwm_target_vehicle_id cwm) c)
                            (incoming_messages self)) key
              = get_seq_num self key).
    { intros c Hc. unfold get_seq_num. cbn [outgoing_cwms].
      destruct (String.eqb (cwm_target_vehicle_id cwm) key) eqn:Ek.
      - apply String.eqb_eq in Ek. subst key.
        rewrite conn_get_set_same, Hc. unfold connection_for.
        destruct (conn_get (outgoing_cwms self) (cwm_target_vehicle_id cwm));
          reflexivity.
      - assert (Hne : cwm_target_vehicle_id cwm <> key)
          by (intros Hc'; apply String.eqb_eq in Hc'; congruence).
        rewrite conn_get_set_other by exact Hne.
        unfold table_with.
        destruct (conn_get (outgoing_cwms self) (cwm_target_vehicle_id cwm));
          [reflexivity|].
        now rewrite conn_get_set_other by exact Hne. }
    rewrite E.
    destruct (cwms (connection_for (outgoing_cwms self) (cwm_target_vehicle_id cwm)));
      eexists _, _; (split; [reflexivity|]); (split; [apply G; reflexivity|reflexivity]).
  - rewrite send_ack_eq. eexists _, _. repeat split.
Qed.

(** X11.  A CWM sent on a connection with nothing waiting, then the ACK of its
    peer for the expected sequence number: the queue is empty again, the
    expected number is one higher, and the ACK made nothing go on air. *)
Theorem send_then_ack (self : Protocol) (vehicle : string)
    (cwm : CollisionWarningMessage) (ack : AcknowledgementMessage)
    (rest : list V2VMessage) (s : Sys) :
  let P := cwm_target_vehicle_id cwm in
  let before := connection_for (outgoing_cwms self) P in
  cwms before = [] ->
  ack_vehicle_id ack = P ->
  ack_sequence_number ack = send_seq_num before ->
  exists self1 s1 after,
    send self vehicle (MsgCWM cwm) s = Ok self1 s1
    /\ process_queue (MsgACK ack :: rest) (outgoing_cwms self1) vehicle s1
       = process_queue rest (conn_set (outgoing_cwms self1) P after) vehicle (tick s1)
    /\ conn_get (conn_set (outgoing_cwms self1) P after) P = Some after
    /\ cwms after = []
    /\ send_seq_num after = (send_seq_num before + 1)%Z
    /\ recv_seq_num after = recv_seq_num before.
Proof.
  cbv zeta. intros Hq Hk Hn.
  pose proof (send_cwm_eq self vehicle cwm s) as E. cbv zeta in E.
  rewrite Hq in E. rewrite E. eexists _, _, _. split; [reflexivity|].
  cbn [outgoing_cwms process_queue]. unfold bind at 1.
  erewrite process_message_ack
    by (rewrite Hk; apply conn_get_set_same).
  cbv zeta. cbn [send_seq_num set_cwms set_transmit_time add_cwm set_last_use cwms].
  rewrite Hn, Z.eqb_refl. rewrite Hk.
  split; [reflexivity|].
  split; [apply conn_get_set_same|]. repeat split.
Qed.

(** X12.  An ACK for the expected sequence number on a connection with nothing
    waiting: [popleft] raises [IndexError], which [process] does not
    catch. *)
Theorem process_ack_nothing_waiting (ack : AcknowledgementMessage)
    (rest : list V2VMessage) (outgoing : Connections) (vehicle : string) (s : Sys)
    (conn : CWMConnection) :
  conn_get outgoing (ack_vehicle_id ack) = Some conn ->
  ack_sequence_number ack = send_seq_num conn ->
  cwms conn = [] ->
  process (mkProtocol outgoing (MsgACK ack :: rest)) vehicle s = Raise IndexError.
Proof.
  intros Hget Hn Hq. unfold process. cbn [incoming_messages outgoing_cwms process_queue].
  unfold bind at 1. rewrite (process_message_ack _ _ _ _ _ _ Hget). cbv zeta.
  rewrite Hn, Z.eqb_refl, Hq. reflexivity.
Qed.

(** *** [process_messages] drains the queue *)

Lemma protocol_process_frame (self : Vehicle) (s : Sys) (v : Vehicle)
    (r : option V2VMessage) (s' : Sys) :
  protocol_process self s = Ok (v, r) s' ->
  set_protocol new_protocol v = set_protocol new_protocol self
  /\ (r = None -> incoming_messages (v_protocol v) = []).
Proof.
  unfold protocol_process, process, bind.
  destruct (process_queue _ _ _ s) as [[p m] s1|e] eqn:E; [|discriminate].
  intros H. inversion H; subst. split; [reflexivity|].
  intros ->. simpl. eapply process_queue_none. exact E.
Qed.

Lemma handle_message_frame (self : Vehicle) (m : V2VMessage) (s : Sys) :
  exists self' s',
    handle_message self m s = Ok self' s'
    /\ set_vehicle_map [] self' = set_vehicle_map [] self.
Proof.
  destruct m as [bsm|cwm|ack]; eexists _, _;
    unfold handle_message, new_VehicleState; cbn [message_type].
  - rewrite bind_bind. run. split; reflexivity.
  - split; reflexivity.
  - split; reflexivity.
Qed.

Lemma process_messages_loop_drains (fuel : nat) :
  forall self message s v s',
    (message = None -> incoming_messages (v_protocol self) = []) ->
    process_messages_loop fuel self message s = Ok v s' ->
    incoming_messages (v_protocol v) = []
    /\ set_vehicle_map [] (set_protocol new_protocol v)
       = set_vehicle_map [] (set_protocol new_protocol self).
Proof.
  induction fuel as [|fuel IH]; intros self [m|] s v s' Hn H;
    cbn [process_messages_loop] in H; try discriminate;
    try (inversion H; subst; split; [now apply Hn|reflexivity]).
  unfold bind at 1 in H.
  destruct (handle_message_frame self m s) as (self1 & s1 & E1 & F1).
  rewrite E1 in H. unfold bind at 1 in H.
  destruct (protocol_process self1 s1) as [[v2 r] s2|e] eqn:E2; [|discriminate].
  cbn [fst snd] in H.
  destruct (protocol_process_frame _ _ _ _ _ E2) as [F2 N2].
  destruct (IH v2 r s2 v s' N2 H) as [D F3].
  split; [exact D|].
  rewrite F3.
  transitivity (set_vehicle_map [] (set_protocol new_protocol self1)).
  - now rewrite F2.
  - destruct self1, self. unfold set_vehicle_map, set_protocol in *. simpl in *.
    inversion F1. reflexivity.
Qed.

(** X13.  When [process_messages] returns, the inbound queue is empty, and
    nothing of the vehicle has changed but its protocol state and its
    belief map. *)
Theorem process_messages_drains (self : Vehicle) (s : Sys) (v : Vehicle) (s' : Sys) :
  process_messages self s = Ok v s' ->
  incoming_messages (v_protocol v) = []
  /\ set_vehicle_map [] (set_protocol new_protocol v)
     = set_vehicle_map [] (set_protocol new_protocol self).
Proof.
  unfold process_messages. unfold bind at 1.
  destruct (protocol_process self s) as [[v1 r] s1|e] eqn:E; [|discriminate].
  cbn [fst snd]. intros H.
  destruct (protocol_process_frame _ _ _ _ _ E) as [F N].
  destruct (process_messages_loop_drains _ _ _ _ _ _ N H) as [D F'].
  split; [exact D|]. rewrite F'. now rewrite F.
Qed.

(** ** [Protocol.manage], the whole loop *)

(** The connection [c'] is [c] with, at most, another [transmit_time] and
    another timestamp on the CWM at the head. *)
Lemma manage_item_cases (key : string) (conn : CWMConnection) (table : Connections)
    (vehicle : string) (s : Sys) :
  exists table' s',
    manage_item key conn table vehicle s = Ok table' s'
    /\ (table' = table
        \/ (table' = conn_del table key /\ cwms conn = [])
        \/ (exists c', table' = conn_set table key c'
                       /\ cwms conn <> []
                       /\ only_head_restamped conn c')).
Proof.
  unfold manage_item.
  destruct (cwms conn) as [|cwm others] eqn:Hq; run.
  - destruct (fgt _ _); eexists _, _; (split; [reflexivity|]); auto.
  - destruct (fgt _ _); run; eexists _, _; (split; [reflexivity|]); auto.
    right. right. eexists. split; [reflexivity|]. split; [discriminate|].
    unfold only_head_restamped. simpl. rewrite Hq.
    repeat split. eexists. reflexivity.
Qed.

Lemma only_head_restamped_refl (c : CWMConnection) : only_head_restamped c c.
Proof.
  unfold only_head_restamped. repeat split.
  destruct (cwms c) as [|x l]; [exact I|].
  exists (cwm_timestamp x). now destruct x.
Qed.

Lemma manage_items_spec (table0 : Connections) (vehicle : string) :
  NoDup (map fst table0) ->
  forall items table s,
    (forall k c, In (k, c) items -> In (k, c) table0) ->
    (forall k c', In (k, c') table ->
       exists c, In (k, c) table0 /\ only_head_restamped c c') ->
    (forall k c, conn_get table0 k = Some c -> cwms c <> [] ->
       exists c', conn_get table k = Some c') ->
    exists table' s',
      manage_items items table vehicle s = Ok table' s'
      /\ (forall k c', In (k, c') table' ->
            exists c, In (k, c) table0 /\ only_head_restamped c c')
      /\ (forall k c, conn_get table0 k = Some c -> cwms c <> [] ->
            exists c', conn_get table' k = Some c').
Proof.
  intros Hn items.
  induction items as [|[key conn] rest IH]; intros table s Hitems HA HB.
  - exists table, s. simpl. auto.
  - cbn [manage_items]. unfold bind.
    destruct (manage_item_cases key conn table vehicle s) as (t1 & s1 & E & Hc).
    rewrite E.
    assert (Hin : In (key, conn) table0) by (apply Hitems; now left).
    apply IH.
    + intros k c H. apply Hitems. now right.
    + destruct Hc as [-> | [[-> Hq] | (c' & -> & Hq & Hs)]].
      * exact HA.
      * intros k c1 H. apply HA. eapply sdict_del_In. exact H.
      * intros k c1 H. apply sdict_set_In in H. destruct H as [H|H].
        -- inversion H; subst. exists conn. auto.
        -- now apply HA.
    + destruct Hc as [-> | [[-> Hq] | (c' & -> & Hq & Hs)]].
      * exact HB.
      * intros k c Hg Hne.
        destruct (String.eqb key k) eqn:Ek.
        -- apply String.eqb_eq in Ek. subst k.
           assert (conn_get table0 key = Some conn) by (now apply sdict_In_get).
           congruence.
        -- unfold conn_get, conn_del. rewrite sdict_get_del_other.
           ++ now apply HB with c.
           ++ intros Hc'. apply String.eqb_eq in Hc'. congruence.
      * intros k c Hg Hne.
        destruct (String.eqb key k) eqn:Ek.
        -- apply String.eqb_eq in Ek. subst k. exists c'. apply conn_get_set_same.
        -- rewrite conn_get_set_other.
           ++ now apply HB with c.
           ++ intros Hc'. apply String.eqb_eq in Hc'. congruence.
Qed.

(** X14.  [Protocol.manage] always returns.  A connection it leaves was there
    before, with the same sequence numbers, the same [last_use], the same
    number of CWMs waiting and the same CWMs but for the timestamp of the
    head; a connection with CWMs waiting is never removed; the inbound
    queue is not touched. *)
Theorem manage_keeps_waiting (self : Protocol) (vehicle : string) (s : Sys) :
  NoDup (map fst (outgoing_cwms self)) ->
  exists self' s',
    manage self vehicle s = Ok self' s'
    /\ incoming_messages self' = incoming_messages self
    /\ (forall k c', conn_get (outgoing_cwms self') k = Some c' ->
          exists c, conn_get (outgoing_cwms self) k = Some c
                    /\ only_head_restamped c c')
    /\ (forall k c, conn_get (outgoing_cwms self) k = Some c -> cwms c <> [] ->
          exists c', conn_get (outgoing_cwms self') k = Some c').
Proof.
  intros Hn. unfold manage, bind.
  destruct (manage_items_spec (outgoing_cwms self) vehicle Hn
              (outgoing_cwms self) (outgoing_cwms self) s)
    as (t' & s' & E & HA & HB).
  - auto.
  - intros k c' H. exists c'. split; [exact H|apply only_head_restamped_refl].
  - intros k c H _. exists c. exact H.
  - rewrite E. exists (mkProtocol t' (incoming_messages self)), s'.
    split; [reflexivity|]. split; [reflexivity|]. split.
    + intros k c' H. apply sdict_get_In in H.
      destruct (HA k c' H) as (c & Hin & Hs).
      exists c. split; [now apply sdict_In_get|exact Hs].
    + exact HB.
Qed.

(** ** [Vehicle.manage]: pruning the belief map *)

Lemma sdict_del_keys_incl {V} (d : list (string * V)) (k k' : string) :
  In k' (map fst (PyDict.del String.eqb d k)) -> In k' (map fst d).
Proof.
  intros H. apply in_map_iff in H. destruct H as (x & E & Hin).
  apply in_map_iff. exists x. split; [exact E|]. eapply sdict_del_In. exact Hin.
Qed.

Lemma sdict_del_NoDup {V} (d : list (string * V)) (k : string) :
  NoDup (map fst d) -> NoDup (map fst (PyDict.del String.eqb d k)).
Proof.
  induction d as [|[k' v'] d IH]; simpl; intros Hn; [constructor|].
  inversion Hn as [|? ? Hk Hn']; subst.
  destruct (String.eqb k' k); [exact Hn'|].
  simpl. constructor; [|now apply IH].
  intros Hin. apply Hk. eapply sdict_del_keys_incl. exact Hin.
Qed.

Lemma prune_items_spec (items : list (string * VehicleState)) :
  forall m s,
    NoDup (map fst items) ->
    NoDup (map fst m) ->
    exists m' s',
      prune_items items m s = Ok m' s'
      /\ wall s' = wall s
      /\ wall_idx s' = (wall_idx s + List.length items)%nat
      /\ dice_idx s' = dice_idx s
      /\ net s' = net s
      /\ NoDup (map fst m')
      /\ (forall x, In x m' -> In x m)
      /\ (forall k, ~ In k (map fst items) -> vmap_get m' k = vmap_get m k)
      /\ (forall k st, In (k, st) items ->
            exists i, (wall_idx s <= i < wall_idx s')%nat
                      /\ if fgt (fsub (wall s i) (vs_timestamp st)) CONFIG.CONNECTION_TIME
                         then vmap_get m' k = None
                         else vmap_get m' k = vmap_get m k).
Proof.
  induction items as [|[key st0] rest IH]; intros m s Hni Hnm.
  - exists m, s. simpl. rewrite Nat.add_0_r. repeat split; auto.
    intros k st [].
  - cbn [prune_items]. rewrite bind_time.
    inversion Hni as [|? ? Hkey Hnr]; subst.
    set (m1 := if fgt (fsub (now s) (vs_timestamp st0)) CONFIG.CONNECTION_TIME
               then vmap_del m key else m).
    assert (Hn1 : NoDup (map fst m1)).
    { unfold m1. destruct (fgt _ _); [now apply sdict_del_NoDup|exact Hnm]. }
    destruct (IH m1 (tick s) Hnr Hn1)
      as (m' & s' & E & Hw & Hi & Hd & Hnet & Hn' & Hsub & Hout & Hin).
    assert (E' : (if fgt (fsub (now s) (vs_timestamp st0)) CONFIG.CONNECTION_TIME
                  then prune_items rest (vmap_del m key)
                  else prune_items rest m) (tick s) = Ok m' s').
    { unfold m1 in E. destruct (fgt _ _); exact E. }
    exists m', s'. split; [exact E'|].
    simpl in Hw, Hi, Hd, Hnet.
    split; [exact Hw|]. split; [simpl; lia|]. split; [exact Hd|]. split; [exact Hnet|].
    split; [exact Hn'|].
    assert (Hg1 : forall k, key <> k -> vmap_get m1 k = vmap_get m k).
    { intros k Hk. unfold m1. destruct (fgt _ _); [|reflexivity].
      now apply sdict_get_del_other. }
    split; [|split].
    + intros x Hx. apply Hsub in Hx. unfold m1 in Hx.
      destruct (fgt _ _); [eapply sdict_del_In; exact Hx|exact Hx].
    + intros k Hk. simpl in Hk. rewrite Hout by tauto. apply Hg1. tauto.
    + intros k st [Hx|Hx].
      * inversion Hx; subst. exists (wall_idx s). split; [simpl in *; lia|].
        rewrite (Hout k Hkey). unfold m1. fold (now s).
        destruct (fgt _ _); [|reflexivity].
        now apply sdict_get_del_same.
      * destruct (Hin k st Hx) as (i & Hr & Hc). exists i.
        split; [simpl in *; lia|].
        assert (Hk : key <> k).
        { intros ->. apply Hkey. apply in_map_iff. exists (k, st). auto. }
        simpl in Hc. rewrite (Hg1 k Hk) in Hc. exact Hc.
Qed.

(** X15.  What [Vehicle.manage] does to the belief map: it adds nothing and
    changes no entry, and for each entry it takes one clock reading and
    removes the entry exactly when that reading is more than
    [CONNECTION_TIME] after the entry's timestamp. *)
Theorem vehicle_manage_prunes (self : Vehicle) (s : Sys) (v : Vehicle) (s' : Sys) :
  NoDup (map fst (vehicle_map self)) ->
  vehicle_manage self s = Ok v s' ->
  (forall k st, vmap_get (vehicle_map v) k = Some st ->
     vmap_get (vehicle_map self) k = Some st)
  /\ (forall k st, vmap_get (vehicle_map self) k = Some st ->
        exists i, (wall_idx s <= i < wall_idx s')%nat
                  /\ if fgt (fsub (wall s i) (vs_timestamp st)) CONFIG.CONNECTION_TIME
                     then vmap_get (vehicle_map v) k = None
                     else vmap_get (vehicle_map v) k = Some st).
Proof.
  intros Hn H. unfold vehicle_manage in H. unfold bind at 1 in H.
  destruct (manage (v_protocol self) (v_vehicle_id self) s) as [p s1|e] eqn:Em;
    [|discriminate].
  assert (K : stamped_by_wall s s1).
  { unfold manage in Em. unfold bind in Em.
    destruct (manage_items _ _ _ s) as [t s1'|e] eqn:Et; [|discriminate].
    inversion Em; subst. eapply keeps_manage_items. exact Et. }
  destruct K as (Kw & Ki & _).
  cbn [vehicle_map set_protocol] in H.
  destruct (prune_items_spec (vehicle_map self) (vehicle_map self) s1 Hn Hn)
    as (m' & s2 & E & Hw & Hi & _ & _ & Hn' & Hsub & _ & Hin).
  unfold bind in H. rewrite E in H. inversion H; subst.
  cbn [vehicle_map set_vehicle_map]. split.
  - intros k st Hg. apply sdict_get_In in Hg. apply Hsub in Hg.
    now apply sdict_In_get.
  - intros k st Hg.
    destruct (Hin k st (sdict_get_In _ _ _ Hg)) as (i & Hr & Hc).
    exists i. split; [lia|]. rewrite <- Kw. rewrite Hg in Hc. exact Hc.
Qed.

(** ** Collision detection *)

Lemma insert_by_x_In (e x : string * VehicleState) (l : list (string * VehicleState)) :
  In x (insert_by_x e l) <-> x = e \/ In x l.
Proof.
  induction l as [|y l IH]; simpl.
  - intuition.
  - destruct (flt _ _); simpl; [intuition|]. rewrite IH. intuition.
Qed.

Lemma sorted_by_x_In (x : string * VehicleState) (l : list (string * VehicleState)) :
  In x (sorted_by_x l) <-> In x l.
Proof.
  unfold sorted_by_x.
  assert (G : forall l acc, In x (fold_left (fun acc e => insert_by_x e acc) l acc)
                            <-> In x l \/ In x acc).
  { clear l. induction l as [|e l IH]; intros acc; simpl.
    - intuition.
    - rewrite IH, insert_by_x_In. intuition. }
  rewrite G. simpl. intuition.
Qed.

Lemma detect_loop_spec (items : list (string * VehicleState)) :
  forall vehicle s,
    exists v' r s',
      detect_loop items vehicle s = Ok (v', r) s'
      /\ match r with
         | None => v' = vehicle /\ s' = s
         | Some cwm =>
             v' = activate_emergency_braking vehicle
             /\ s' = tick s
             /\ exists k st ttc,
                  In (k, st) items
                  /\ warned_about vehicle st ttc
                  /\ cwm = mkCWM (v_vehicle_id vehicle) (now s)
                                 (get_seq_num (v_protocol vehicle) k)
                                 "rear_end_risk" k ttc
         end.
Proof.
  induction items as [|[k st] rest IH]; intros vehicle s; cbn [detect_loop].
  - exists vehicle, None, s. auto.
  - assert (Hrest : exists v' r s',
               detect_loop rest vehicle s = Ok (v', r) s'
               /\ match r with
                  | None => v' = vehicle /\ s' = s
                  | Some cwm =>
                      v' = activate_emergency_braking vehicle
                      /\ s' = tick s
                      /\ exists k0 st0 ttc,
                           In (k0, st0) ((k, st) :: rest)
                           /\ warned_about vehicle st0 ttc
                           /\ cwm = mkCWM (v_vehicle_id vehicle) (now s)
                                          (get_seq_num (v_protocol vehicle) k0)
                                          "rear_end_risk" k0 ttc
                  end).
    { destruct (IH vehicle s) as (v' & r & s' & E & H).
      exists v', r, s'. split; [exact E|].
      destruct r as [cwm|]; [|exact H].
      destruct H as (H1 & H2 & k0 & st0 & ttc & Hin & Hw & Hc).
      split; [exact H1|]. split; [exact H2|].
      exists k0, st0, ttc. split; [now right|]. auto. }
    destruct (fle _ _) eqn:Ex; [exact Hrest|].
    destruct (_ || _) eqn:Ey; [exact Hrest|].
    destruct (compute_ttc vehicle st) as [ttc|] eqn:Et; [|exact Hrest].
    destruct (npc_lt _ _) eqn:El; [|exact Hrest].
    unfold create_cwm. rewrite bind_bind. run.
    eexists _, _, _. split; [reflexivity|].
    split; [reflexivity|]. split; [reflexivity|].
    exists k, st, ttc. split; [now left|]. split; [|reflexivity].
    apply orb_false_elim in Ey. destruct Ey as [Ey1 Ey2].
    unfold warned_about. rewrite Ex, Ey1, Ey2, Et, El. repeat split.
Qed.

(** X16.  [detect_potential_collisions] always returns.  Without a warning the
    vehicle is as it was and the clock was not read; with a warning the
    vehicle is in emergency braking with target velocity 0, and the
    warning names a peer of the belief map that is strictly ahead, overlaps
    in [y], and for which [compute_ttc] gave a value below the threshold;
    it carries that value, the type ["rear_end_risk"], the vehicle's id and
    the sequence number [get_seq_num] reports for the peer. *)
Theorem detect_warns_only_ahead (vehicle : Vehicle) (s : Sys) :
  exists v' r s',
    detect_potential_collisions vehicle s = Ok (v', r) s'
    /\ match r with
       | None => v' = vehicle /\ s' = s
       | Some cwm =>
           v' = activate_emergency_braking vehicle
           /\ emergency_braking v' = true /\ target_velocity v' = 0
           /\ s' = tick s
           /\ exists st,
                In (cwm_target_vehicle_id cwm, st) (vehicle_map vehicle)
                /\ warned_about vehicle st (cwm_time_to_collision cwm)
                /\ cwm = mkCWM (v_vehicle_id vehicle) (now s)
                               (get_seq_num (v_protocol vehicle)
                                            (cwm_target_vehicle_id cwm))
                               "rear_end_risk" (cwm_target_vehicle_id cwm)
                               (cwm_time_to_collision cwm)
       end.
Proof.
  unfold detect_potential_collisions.
  destruct (detect_loop_spec (sorted_by_x (vehicle_map vehicle)) vehicle s)
    as (v' & r & s' & E & H).
  exists v', r, s'. split; [exact E|].
  destruct r as [cwm|]; [|exact H].
  destruct H as (H1 & H2 & k & st & ttc & Hin & Hw & Hc).
  split; [exact H1|]. subst v'. split; [reflexivity|]. split; [reflexivity|].
  split; [exact H2|].
  subst cwm. cbn [cwm_target_vehicle_id cwm_time_to_collision].
  exists st. split; [|split; [exact Hw|reflexivity]].
  now apply sorted_by_x_In.
Qed.

(** ** One tick *)

Lemma vehicle_manage_frame (self : Vehicle) (s : Sys) (v : Vehicle) (s' : Sys) :
  vehicle_manage self s = Ok v s' ->
  kinematics v = kinematics self
  /\ emergency_braking v = emergency_braking self
  /\ target_velocity v = target_velocity self
  /\ last_bsm_time v = last_bsm_time self
  /\ incoming_messages (v_protocol v) = incoming_messages (v_protocol self).
Proof.
  intros H. unfold vehicle_manage in H. unfold bind at 1 in H.
  destruct (manage (v_protocol self) (v_vehicle_id self) s) as [p s1|e] eqn:Em;
    [|discriminate].
  assert (Hp : incoming_messages p = incoming_messages (v_protocol self)).
  { unfold manage, bind in Em.
    destruct (manage_items _ _ _ s) as [t s1'|e]; [|discriminate].
    now inversion Em. }
  cbn [vehicle_map set_protocol] in H. unfold bind in H.
  destruct (prune_items (vehicle_map self) (vehicle_map self) s1) as [m s2|e];
    [|discriminate].
  inversion H; subst. repeat split. exact Hp.
Qed.

Lemma send_message_frame (self : Vehicle) (m : V2VMessage) (s : Sys) :
  exists v s',
    send_message self m s = Ok v s'
    /\ kinematics v = kinematics self
    /\ emergency_braking v = emergency_braking self
    /\ target_velocity v = target_velocity self
    /\ last_bsm_time v = last_bsm_time self
    /\ incoming_messages (v_protocol v) = incoming_messages (v_protocol self).
Proof.
  unfold send_message, bind.
  destruct (send_keeps_incoming (v_protocol self) (v_vehicle_id self) m s)
    as (p & s' & E & Hin).
  rewrite E. eexists _, _. split; [reflexivity|]. repeat split. exact Hin.
Qed.

Lemma process_messages_frame (self : Vehicle) (s : Sys) (v : Vehicle) (s' : Sys) :
  process_messages self s = Ok v s' ->
  kinematics v = kinematics self
  /\ emergency_braking v = emergency_braking self
  /\ target_velocity v = target_velocity self
  /\ last_bsm_time v = last_bsm_time self
  /\ incoming_messages (v_protocol v) = [].
Proof.
  unfold process_messages. unfold bind at 1.
  destruct (protocol_process self s) as [[v1 r] s1|e] eqn:E; [|discriminate].
  cbn [fst snd]. intros H.
  destruct (protocol_process_frame _ _ _ _ _ E) as [F1 N].
  destruct (process_messages_loop_drains _ _ _ _ _ _ N H) as [D F'].
  assert (F : set_vehicle_map [] (set_protocol new_protocol v)
              = set_vehicle_map [] (set_protocol new_protocol self))
    by (rewrite F'; now rewrite F1).
  clear - D F.
  destruct v, self. unfold set_vehicle_map, set_protocol, kinematics in *.
  simpl in *. inversion F. subst. repeat split. exact D.
Qed.

(** The body of the vehicle loop never moves the vehicle: position,
    velocity, acceleration and the constant fields stay.  It never leaves
    emergency braking, it leaves the inbound queue empty, it sends at most
    one BSM, and it counts a warning and a prevented collision together, at
    most once. *)
Lemma vehicle_step_keeps (current_time : Q) (vehicle : Vehicle) (c : Counters)
    (s : Sys) (v' : Vehicle) (c' : Counters) (s' : Sys) :
  vehicle_step current_time vehicle c s = Ok (v', c') s' ->
  kinematics v' = kinematics vehicle
  /\ (emergency_braking vehicle = true -> emergency_braking v' = true)
  /\ incoming_messages (v_protocol v') = []
  /\ (c_bsm c <= c_bsm c' <= c_bsm c + 1)%Z
  /\ (c_cwm c <= c_cwm c' <= c_cwm c + 1)%Z
  /\ (c_cwm c' - c_cwm c = c_prevented c' - c_prevented c)%Z.
Proof.
  unfold vehicle_step. unfold bind at 1.
  destruct (process_messages vehicle s) as [v1 s1|e] eqn:E1; [|discriminate].
  destruct (process_messages_frame _ _ _ _ E1) as (K1 & B1 & _ & _ & Q1).
  unfold bind at 1.
  destruct (vehicle_manage v1 s1) as [v2 s2|e] eqn:E2; [|discriminate].
  destruct (vehicle_manage_frame _ _ _ _ E2) as (K2 & B2 & _ & _ & Q2).
  unfold bind at 1.
  destruct (detect_loop_spec (sorted_by_x (vehicle_map v2)) v2 s2)
    as (v3 & r & s3 & E3 & H3).
  change (detect_loop (sorted_by_x (vehicle_map v2)) v2 s2)
    with (detect_potential_collisions v2 s2) in E3.
  rewrite E3.
  assert (F3 : kinematics v3 = kinematics v2
               /\ (emergency_braking v2 = true -> emergency_braking v3 = true)
               /\ incoming_messages (v_protocol v3) = incoming_messages (v_protocol v2)).
  { destruct r as [cwm|].
    - destruct H3 as (-> & _). repeat split.
    - destruct H3 as (-> & _). repeat split. auto. }
  destruct F3 as (K3 & B3 & Q3).
  unfold bind at 1.
  assert (F4 : forall r4,
             match r with
             | Some cwm =>
                 (vehicle <- send_message v3 (MsgCWM cwm) ;;
                  ret (vehicle, mkCounters (c_bsm c) (c_cwm c + 1) (c_prevented c + 1)))%py
             | None => ret (v3, c)
             end s3 = r4 ->
             exists v4 c4 s4,
               r4 = Ok (v4, c4) s4
               /\ kinematics v4 = kinematics v3
               /\ emergency_braking v4 = emergency_braking v3
               /\ incoming_messages (v_protocol v4) = incoming_messages (v_protocol v3)
               /\ c_bsm c4 = c_bsm c
               /\ (c_cwm c <= c_cwm c4 <= c_cwm c + 1)%Z
               /\ (c_cwm c4 - c_cwm c = c_prevented c4 - c_prevented c)%Z).
  { intros r4 <-. destruct r as [cwm|].
    - unfold bind.
      destruct (send_message_frame v3 (MsgCWM cwm) s3)
        as (v4 & s4 & E & K & B & _ & _ & Qi).
      rewrite E. eexists _, _, _. split; [reflexivity|]. simpl.
      repeat split; auto; lia.
    - eexists _, _, _. split; [reflexivity|]. repeat split; auto; lia. }
  destruct (F4 _ eq_refl) as (v4 & c4 & s4 & E4 & K4 & B4 & Q4 & Cb & Cc & Cp).
  rewrite E4.
  destruct (should_send_bsm v4 current_time).
  - unfold generate_bsm, create_bsm. rewrite !bind_bind. run.
    unfold bind.
    destruct (send_message_frame (set_last_bsm_time current_time v4)
                (MsgBSM (mkBSM (v_vehicle_id (set_last_bsm_time current_time v4)) (now s4)
                               (fst (v_position (set_last_bsm_time current_time v4)))
                               (snd (v_position (set_last_bsm_time current_time v4)))
                               (v_velocity (set_last_bsm_time current_time v4))
                               (v_heading (set_last_bsm_time current_time v4))
                               (v_acceleration (set_last_bsm_time current_time v4))
                               (v_length (set_last_bsm_time current_time v4))
                               (v_width (set_last_bsm_time current_time v4))))
                (tick s4))
      as (v5 & s5 & E5 & K5 & B5 & _ & _ & Q5).
    rewrite E5. intros H. inversion H; subst. simpl.
    split; [rewrite K5;
            change (kinematics (set_last_bsm_time current_time v4)) with (kinematics v4);
            congruence|].
    split; [intros Hb; rewrite B5; simpl; rewrite B4; apply B3; rewrite B2, B1; exact Hb|].
    split; [rewrite Q5; simpl; congruence|].
    split; [lia|]. split; [exact Cc|exact Cp].
  - intros H. inversion H; subst.
    split; [congruence|].
    split; [intros Hb; rewrite B4; apply B3; rewrite B2, B1; exact Hb|].
    split; [congruence|].
    split; [lia|]. split; [exact Cc|exact Cp].
Qed.

Lemma Forall2_compose {A B C} (R : A -> B -> Prop) (S : B -> C -> Prop)
    (T : A -> C -> Prop) (l1 : list A) (l2 : list B) (l3 : list C) :
  (forall a b c, R a b -> S b c -> T a c) ->
  Forall2 R l1 l2 -> Forall2 S l2 l3 -> Forall2 T l1 l3.
Proof.
  intros H H1. revert l3. induction H1; intros l3 H2; inversion H2; subst;
    constructor; eauto.
Qed.

Lemma Forall2_map_r {A B} (R : A -> B -> Prop) (f : A -> B) (l : list A) :
  (forall a, R a (f a)) -> Forall2 R l (map f l).
Proof. intros H. induction l; simpl; constructor; auto. Qed.

Lemma Forall2_same {A} (R : A -> A -> Prop) (l : list A) :
  (forall a, R a a) -> Forall2 R l l.
Proof. intros H. induction l; constructor; auto. Qed.

(** Delivery changes inbound queues only. *)
Lemma deliver_items_frame (items : list (bytes * (string * V2VMessage))) :
  forall all s all' s',
    deliver_items items all s = Ok all' s' ->
    Forall2 (fun kv kv' => fst kv' = fst kv
                           /\ kinematics (snd kv') = kinematics (snd kv)
                           /\ emergency_braking (snd kv') = emergency_braking (snd kv))
            all all'.
Proof.
  induction items as [|[h [v m]] rest IH]; intros all s all' s' H.
  - inversion H; subst. apply Forall2_same. auto.
  - cbn [deliver_items] in H. rewrite bind_time in H.
    unfold bind at 1 2 3 4, get_net, put_net in H.
    apply IH in H.
    set (R := fun kv kv' : string * Vehicle =>
                fst kv' = fst kv
                /\ kinematics (snd kv') = kinematics (snd kv)
                /\ emergency_braking (snd kv') = emergency_braking (snd kv)) in *.
    apply (Forall2_compose R R R all (deliver_one v m h all) all'); [| |exact H].
    + intros a b c (H1 & H2 & H3) (H4 & H5 & H6). unfold R. repeat split; congruence.
    + unfold deliver_one.
      destruct (PyDict.get String.eqb all v) as [sender|];
        [|apply Forall2_same; unfold R; auto].
      apply Forall2_map_r. intros kx. destruct kx as [k x]. unfold R. cbn [fst snd].
      destruct (String.eqb _ _); [auto|].
      destruct (negb _); [auto|]. cbn [fst snd].
      destruct x. unfold receive_message, set_protocol, kinematics. simpl.
      repeat split.
Qed.

Lemma vehicles_loop_frame (current_time : Q) (all : Vehicles) :
  forall c s all' c' s',
    vehicles_loop current_time all c s = Ok (all', c') s' ->
    Forall2 (fun kv kv' => fst kv' = fst kv
                           /\ kinematics (snd kv') = kinematics (snd kv)
                           /\ (emergency_braking (snd kv) = true ->
                               emergency_braking (snd kv') = true)
                           /\ incoming_messages (v_protocol (snd kv')) = [])
            all all'
    /\ (c_bsm c <= c_bsm c' <= c_bsm c + Z.of_nat (List.length all))%Z
    /\ (c_cwm c <= c_cwm c' <= c_cwm c + Z.of_nat (List.length all))%Z
    /\ (c_cwm c' - c_cwm c = c_prevented c' - c_prevented c)%Z.
Proof.
  induction all as [|[k v] rest IH]; intros c s all' c' s' H;
    cbn [vehicles_loop] in H.
  - inversion H; subst. simpl. repeat split; try lia. constructor.
  - unfold bind at 1 in H.
    destruct (vehicle_step current_time v c s) as [[v1 c1] s1|e] eqn:E1; [|discriminate].
    cbn [fst snd] in H. unfold bind at 1 in H.
    destruct (vehicles_loop current_time rest c1 s1) as [[rest' c2] s2|e] eqn:E2;
      [|discriminate].
    inversion H; subst. cbn [fst snd].
    destruct (vehicle_step_keeps _ _ _ _ _ _ _ E1) as (K & B & Qe & Cb & Cc & Cp).
    destruct (IH _ _ _ _ _ E2) as (F & Db & Dc & Dp).
    split; [constructor; [cbn [fst snd]; auto|exact F]|].
    simpl List.length. rewrite Nat2Z.inj_succ. repeat split; lia.
Qed.

Lemma simulation_tick_vehicles (self : SimulationEngine) (s : Sys)
    (e : SimulationEngine) (s' : Sys) :
  simulation_tick self s = Ok e s' ->
  Forall2 (fun kv kv' =>
             fst kv' = fst kv
             /\ kinematics (snd kv')
                = kinematics (update_physics (snd kv) CONFIG.SIMULATION_TIMESTEP)
             /\ (emergency_braking (snd kv) = true -> emergency_braking (snd kv') = true)
             /\ incoming_messages (v_protocol (snd kv')) = [])
          (vehicles (vehicle_manager self)) (vehicles (vehicle_manager e)).
Proof.
  unfold simulation_tick, deliver_messages. unfold bind at 1 2, get_net.
  destruct (deliver_items _ _ s) as [d s1|x] eqn:E1; [|discriminate].
  unfold bind at 1.
  destruct (vehicles_loop _ d _ s1) as [[all c] s2|x] eqn:E2; [|discriminate].
  intros H. inversion H; subst. cbn [vehicles vehicle_manager].
  apply deliver_items_frame in E1.
  apply vehicles_loop_frame in E2. destruct E2 as (F & _).
  eapply Forall2_compose; [| |exact F].
  2: { eapply Forall2_compose; [| |exact E1].
       2: { unfold update_all_vehicles. cbn [vehicles].
            apply (Forall2_map_r
                     (fun kv kv' => fst kv' = fst kv
                                    /\ snd kv' = update_physics (snd kv)
                                                   CONFIG.SIMULATION_TIMESTEP)).
            intros [k v]. split; reflexivity. }
       intros a b c0 (H1 & H2) (H3 & H4 & H5).
       exact (conj (eq_trans H3 H1) (conj (eq_trans H4 (f_equal kinematics H2))
                (eq_trans H5 (f_equal emergency_braking H2)))). }
  intros a b c0 (H1 & H2 & H3) (H4 & H5 & H6 & H7). cbv beta in *.
  split; [congruence|]. split; [congruence|]. split; [|exact H7].
  intros Hb. apply H6. rewrite H3. unfold update_physics. simpl. exact Hb.
Qed.

Lemma simulation_tick_counters (self : SimulationEngine) (s : Sys)
    (e : SimulationEngine) (s' : Sys) :
  simulation_tick self s = Ok e s' ->
  next_id (vehicle_manager e) = next_id (vehicle_manager self)
  /\ env_now e = fadd (env_now self) CONFIG.SIMULATION_TIMESTEP
  /\ (total_bsm_count self <= total_bsm_count e
      <= total_bsm_count self + Z.of_nat (List.length (vehicles (vehicle_manager self))))%Z
  /\ (total_cwm_count self <= total_cwm_count e
      <= total_cwm_count self + Z.of_nat (List.length (vehicles (vehicle_manager self))))%Z
  /\ (total_cwm_count e - total_cwm_count self
      = collisions_prevented e - collisions_prevented self)%Z.
Proof.
  unfold simulation_tick, deliver_messages. unfold bind at 1 2, get_net.
  destruct (deliver_items _ _ s) as [d s1|x] eqn:E1; [|discriminate].
  unfold bind at 1.
  destruct (vehicles_loop _ d _ s1) as [[all c] s2|x] eqn:E2; [|discriminate].
  intros H. inversion H; subst. cbn [vehicles vehicle_manager next_id env_now
    total_bsm_count total_cwm_count collisions_prevented].
  apply deliver_items_frame in E1.
  apply vehicles_loop_frame in E2. cbn [c_bsm c_cwm c_prevented] in E2.
  destruct E2 as (_ & Cb & Cc & Cp).
  assert (L : List.length d = List.length (vehicles (vehicle_manager self))).
  { apply Forall2_length in E1. rewrite <- E1.
    unfold update_all_vehicles. cbn [vehicles]. apply length_map. }
  rewrite L in Cb, Cc.
  repeat split; try lia; reflexivity.
Qed.

(** X18.  One turn of the simulation loop keeps the vehicles, their keys and
    their order; moves each vehicle by [update_physics] and by nothing
    else; never takes a vehicle out of emergency braking; leaves every
    inbound queue empty; advances [env.now] by the time step; and counts at
    most one BSM and one warning per vehicle, each warning also as a
    prevented collision. *)
Theorem simulation_tick_frame (self : SimulationEngine) (s : Sys)
    (e : SimulationEngine) (s' : Sys) :
  simulation_tick self s = Ok e s' ->
  Forall2 (fun kv kv' =>
             fst kv' = fst kv
             /\ kinematics (snd kv')
                = kinematics (update_physics (snd kv) CONFIG.SIMULATION_TIMESTEP)
             /\ (emergency_braking (snd kv) = true -> emergency_braking (snd kv') = true)
             /\ incoming_messages (v_protocol (snd kv')) = [])
          (vehicles (vehicle_manager self)) (vehicles (vehicle_manager e))
  /\ next_id (vehicle_manager e) = next_id (vehicle_manager self)
  /\ env_now e = fadd (env_now self) CONFIG.SIMULATION_TIMESTEP
  /\ (total_bsm_count self <= total_bsm_count e
      <= total_bsm_count self + Z.of_nat (List.length (vehicles (vehicle_manager self))))%Z
  /\ (total_cwm_count self <= total_cwm_count e
      <= total_cwm_count self + Z.of_nat (List.length (vehicles (vehicle_manager self))))%Z
  /\ (total_cwm_count e - total_cwm_count self
      = collisions_prevented e - collisions_prevented self)%Z.
Proof.
  intros H. split.
  - exact (simulation_tick_vehicles self s e s' H).
  - exact (simulation_tick_counters self s e s' H).
Qed.

(** ** Emergency braking over a run *)

Lemma update_physics_braking (self : Vehicle) (dt : Q) :
  emergency_braking self = true -> 0 <= dt -> 0 <= v_velocity self ->
  emergency_braking (update_physics self dt) = true
  /\ 0 <= v_velocity (update_physics self dt) <= v_velocity self.
Proof.
  intros He Hdt Hv.
  pose proof (update_physics_velocity_nonneg self dt) as Hn. revert Hn.
  unfold update_physics. cbn [v_velocity emergency_braking].
  rewrite He. intros Hn. split; [reflexivity|]. split; [exact Hn|].
  set (v' := fadd (v_velocity self) (fmul (fneg CONFIG.MAX_DECELERATION) dt)) in *.
  assert (Ev : v' == v_velocity self - CONFIG.MAX_DECELERATION * dt).
  { unfold v'. rewrite fadd_eq, fmul_eq, fneg_eq. ring. }
  assert (Hd : 0 <= CONFIG.MAX_DECELERATION * dt).
  { apply Qmult_le_0_compat; [unfold CONFIG.MAX_DECELERATION; lra|exact Hdt]. }
  destruct (fmax_spec 0 v') as (_ & _ & [E | E]); rewrite E; lra.
Qed.

Lemma kinematics_velocity (a b : Vehicle) :
  kinematics a = kinematics b -> v_velocity a = v_velocity b.
Proof. unfold kinematics. intros H. now inversion H. Qed.

(** X19.  A vehicle in emergency braking stays in it through every tick of
    a run, whatever it receives: its velocity never goes up again and
    never becomes negative. *)
Theorem run_ticks_emergency (n : nat) :
  forall (self : SimulationEngine) (s : Sys) (e : SimulationEngine) (s' : Sys),
    run_ticks n self s = Ok e s' ->
    Forall2 (fun kv kv' =>
               fst kv' = fst kv
               /\ (emergency_braking (snd kv) = true ->
                   0 <= v_velocity (snd kv) ->
                   emergency_braking (snd kv') = true
                   /\ 0 <= v_velocity (snd kv') <= v_velocity (snd kv)))
            (vehicles (vehicle_manager self)) (vehicles (vehicle_manager e)).
Proof.
  induction n as [|n IH]; intros self s e s' H; cbn [run_ticks] in H.
  - inversion H; subst. apply Forall2_same. intros [k v]. cbn [fst snd].
    split; [reflexivity|]. intros Hb Hv. split; [exact Hb|]. lra.
  - unfold bind in H.
    destruct (simulation_tick self s) as [e1 s1|x] eqn:E1; [|discriminate].
    apply simulation_tick_vehicles in E1. rename E1 into F1.
    apply IH in H.
    eapply Forall2_compose; [|exact F1|exact H].
    clear. intros a b c (K1 & K2 & K3 & _) (H1 & H2). cbv beta in *.
    split; [congruence|]. intros Hb Hv.
    assert (Hdt : 0 <= CONFIG.SIMULATION_TIMESTEP)
      by (unfold CONFIG.SIMULATION_TIMESTEP; lra).
    destruct (update_physics_braking (snd a) CONFIG.SIMULATION_TIMESTEP Hb Hdt Hv)
      as (_ & P0 & P1).
    apply kinematics_velocity in K2. rewrite <- K2 in P0, P1.
    destruct (H2 (K3 Hb) P0) as (Hc & Q0 & Q1).
    split; [exact Hc|]. lra.
Qed.

(** ** The fleet and the clock over a run *)

Lemma Forall2_keys {A B} (R : string * A -> string * B -> Prop)
    (l : list (string * A)) (l' : list (string * B)) :
  (forall a b, R a b -> fst b = fst a) ->
  Forall2 R l l' -> map fst l' = map fst l.
Proof.
  intros H F. induction F; simpl; [reflexivity|].
  f_equal; auto.
Qed.

(** X20.  A run of [n] ticks keeps the ids of the vehicles, in their
    order, and the number for the next id, so a vehicle spawned afterwards
    still gets an id that is not in use.  [env.now] does not go back.  The
    run counts no more than [n] BSMs and [n] warnings per vehicle, and
    counts every warning as a prevented collision. *)
Theorem run_ticks_fleet_and_clock (n : nat) :
  forall (self : SimulationEngine) (s : Sys) (e : SimulationEngine) (s' : Sys),
    run_ticks n self s = Ok e s' ->
    let fleet := Z.of_nat (List.length (vehicles (vehicle_manager self))) in
    map fst (vehicles (vehicle_manager e)) = map fst (vehicles (vehicle_manager self))
    /\ next_id (vehicle_manager e) = next_id (vehicle_manager self)
    /\ (numbered (vehicle_manager self) -> numbered (vehicle_manager e))
    /\ env_now self <= env_now e
    /\ (total_bsm_count self <= total_bsm_count e
        <= total_bsm_count self + Z.of_nat n * fleet)%Z
    /\ (total_cwm_count self <= total_cwm_count e
        <= total_cwm_count self + Z.of_nat n * fleet)%Z
    /\ (total_cwm_count e - total_cwm_count self
        = collisions_prevented e - collisions_prevented self)%Z.
Proof.
  induction n as [|n IH]; intros self s e s' H; cbn [run_ticks] in H; cbv zeta.
  - inversion H; subst.
    split; [reflexivity|]. split; [reflexivity|]. split; [auto|].
    split; [lra|].
    repeat split; lia.
  - unfold bind in H.
    destruct (simulation_tick self s) as [e1 s1|x] eqn:E1; [|discriminate].
    pose proof (simulation_tick_vehicles _ _ _ _ E1) as F1.
    apply simulation_tick_counters in E1.
    destruct E1 as (N1 & T1 & B1 & C1 & P1).
    apply IH in H. cbv zeta in H. destruct H as (K2 & N2 & _ & T2 & B2 & C2 & P2).
    assert (K1 : map fst (vehicles (vehicle_manager e1))
                 = map fst (vehicles (vehicle_manager self))).
    { eapply Forall2_keys; [|exact F1]. intros a b Hab. apply Hab. }
    assert (L : List.length (vehicles (vehicle_manager e1))
                = List.length (vehicles (vehicle_manager self))).
    { rewrite <- (length_map fst), K1. apply length_map. }
    rewrite L in B2, C2.
    assert (K : map fst (vehicles (vehicle_manager e))
                = map fst (vehicles (vehicle_manager self))) by congruence.
    assert (N : next_id (vehicle_manager e) = next_id (vehicle_manager self))
      by congruence.
    split; [exact K|]. split; [exact N|].
    split; [intros [H0 Hk]; split; [rewrite N; exact H0|rewrite K, N; exact Hk]|].
    split.
    { rewrite T1, fadd_eq in T2. unfold CONFIG.SIMULATION_TIMESTEP in T2. lra. }
    rewrite Nat2Z.inj_succ. repeat split; nia.
Qed.

(** ** The packet counters over a run *)

Section NetSteps.

Variable R : NetworkSimulator -> NetworkSimulator -> Prop.
Hypothesis R_refl : forall n, R n n.
Hypothesis R_trans : forall a b c, R a b -> R b c -> R a c.
Hypothesis R_broadcast : forall v m h, net_steps R (broadcast_message v m h).
Hypothesis R_latency :
  forall n pending latency,
    R n (mkNet pending (lost_packets n) (total_packets n) latency (history n)).

Lemma net_ret {A} (a : A) : net_steps R (ret a).
Proof. intros s x s' H. inversion H; subst. apply R_refl. Qed.

Lemma net_raise {A} (e : Exn) : net_steps R (@raise A e).
Proof. intros s x s' H. discriminate. Qed.

Lemma net_time : net_steps R time_time.
Proof. intros s x s' H. inversion H; subst. apply R_refl. Qed.

Lemma net_bind {A B} (m : M A) (f : A -> M B) :
  net_steps R m -> (forall a, net_steps R (f a)) -> net_steps R (bind m f).
Proof.
  intros Hm Hf s b s' H. unfold bind in H.
  destruct (m s) as [a s1|e] eqn:E; [|discriminate].
  eapply R_trans; [eapply Hm; exact E|eapply Hf; exact H].
Qed.

Ltac net_step :=
  first
    [ apply net_ret
    | apply net_raise
    | apply net_time
    | apply R_broadcast
    | assumption
    | match goal with
      | |- net_steps R (bind _ _) => apply net_bind; [|intros]
      | |- net_steps R (let '(_, _) := ?x in _) => destruct x
      | |- net_steps R (match ?x with _ => _ end) => destruct x
      | |- net_steps R (if ?b then _ else _) => destruct b
      end ].

Ltac net_all := repeat net_step.

Lemma net_send (self : Protocol) (vehicle : string) (message : V2VMessage) :
  net_steps R (send self vehicle message).
Proof. unfold send. destruct message; net_all. Qed.

Lemma net_process_message (message : V2VMessage) (rest : list V2VMessage)
    (table : Connections) (vehicle : string) :
  net_steps R (process_message message rest table vehicle).
Proof.
  unfold process_message, create_ack. destruct message; net_all; apply net_send.
Qed.

Lemma net_process_queue (queue : list V2VMessage) :
  forall table vehicle, net_steps R (process_queue queue table vehicle).
Proof.
  induction queue as [|x rest IH]; intros table vehicle; cbn [process_queue].
  - apply net_ret.
  - apply net_bind; [apply net_process_message|].
    intros [t|t m]; [apply IH|apply net_ret].
Qed.

Lemma net_manage_items (items : list (string * CWMConnection)) :
  forall table vehicle, net_steps R (manage_items items table vehicle).
Proof.
  induction items as [|[key conn] rest IH]; intros table vehicle;
    cbn [manage_items].
  - apply net_ret.
  - apply net_bind; [|intros t; apply IH].
    unfold manage_item. net_all.
Qed.

Lemma net_prune_items (items : list (string * VehicleState)) :
  forall m, net_steps R (prune_items items m).
Proof.
  induction items as [|[k st] rest IH]; intros m; cbn [prune_items].
  - apply net_ret.
  - apply net_bind; [apply net_time|].
    intros t. destruct (fgt _ _); apply IH.
Qed.

Lemma net_protocol_process (self : Vehicle) : net_steps R (protocol_process self).
Proof.
  unfold protocol_process, process.
  apply net_bind; [apply net_process_queue|intros r; apply net_ret].
Qed.

Lemma net_process_messages_loop (fuel : nat) :
  forall self message, net_steps R (process_messages_loop fuel self message).
Proof.
  induction fuel as [|fuel IH]; intros self [m|]; cbn [process_messages_loop].
  - apply net_raise.
  - apply net_ret.
  - apply net_bind.
    + unfold handle_message, new_VehicleState. net_all.
    + intros v. apply net_bind; [apply net_protocol_process|].
      intros r. apply IH.
  - apply net_ret.
Qed.

Lemma net_vehicle_step (current_time : Q) (vehicle : Vehicle) (c : Counters) :
  net_steps R (vehicle_step current_time vehicle c).
Proof.
  unfold vehicle_step.
  apply net_bind.
  { unfold process_messages.
    apply net_bind; [apply net_protocol_process|intros r].
    apply net_process_messages_loop. }
  intros v1. apply net_bind.
  { unfold vehicle_manage, manage.
    apply net_bind.
    - apply net_bind; [apply net_manage_items|intros t; apply net_ret].
    - intros p. apply net_bind; [apply net_prune_items|intros m; apply net_ret]. }
  intros v2. apply net_bind.
  { unfold detect_potential_collisions.
    generalize (sorted_by_x (vehicle_map v2)). intros items.
    induction items as [|[k st] rest IH]; cbn [detect_loop].
    - apply net_ret.
    - unfold create_cwm.
      destruct (fle _ _); [apply IH|].
      destruct (_ || _); [apply IH|].
      destruct (compute_ttc v2 st) as [ttc|]; [|apply IH].
      destruct (npc_lt _ _); [net_all|apply IH]. }
  intros [v3 cwm]. apply net_bind.
  - destruct cwm; [|apply net_ret].
    unfold send_message.
    apply net_bind; [|intros v; apply net_ret].
    apply net_bind; [apply net_send|intros p; apply net_ret].
  - intros [v4 c4]. destruct (should_send_bsm _ _); [|apply net_ret].
    unfold generate_bsm, create_bsm, send_message.
    apply net_bind; [net_all|].
    intros [v5 bsm].
    apply net_bind; [|intros v; apply net_ret].
    apply net_bind; [apply net_send|intros p; apply net_ret].
Qed.

Lemma net_vehicles_loop (current_time : Q) (all_vehicles : Vehicles) :
  forall c, net_steps R (vehicles_loop current_time all_vehicles c).
Proof.
  induction all_vehicles as [|[k v] rest IH]; intros c; cbn [vehicles_loop].
  - apply net_ret.
  - apply net_bind; [apply net_vehicle_step|intros r].
    apply net_bind; [apply IH|intros r']. apply net_ret.
Qed.

Lemma net_deliver_items (items : list (bytes * (string * V2VMessage))) :
  forall all_vehicles, net_steps R (deliver_items items all_vehicles).
Proof.
  induction items as [|[h [v m]] rest IH]; intros all_vehicles; cbn [deliver_items].
  - apply net_ret.
  - intros s a s' H. revert H. rewrite bind_time.
    unfold bind at 1 2 3 4, get_net, put_net. cbn [net].
    intros H. apply IH in H. cbn [net] in H.
    eapply R_trans; [|exact H].
    cbn [lost_packets total_packets history all_messages total_latency].
    apply (R_latency (net s)).
Qed.

Lemma net_simulation_tick (self : SimulationEngine) :
  net_steps R (simulation_tick self).
Proof.
  unfold simulation_tick, deliver_messages.
  intros s a s' H. revert H. unfold bind at 1 2, get_net. intros H.
  assert (K : net_steps R
                (delivered <- deliver_items (all_messages (net s))
                                (vehicles (update_all_vehicles (vehicle_manager self)
                                             CONFIG.SIMULATION_TIMESTEP)) ;;
                 r <- vehicles_loop (env_now self) delivered
                        (mkCounters (total_bsm_count self) (total_cwm_count self)
                                    (collisions_prevented self)) ;;
                 let '(all_vehicles, c) := r in
                 ret (mkEngine (fadd (env_now self) CONFIG.SIMULATION_TIMESTEP)
                               (mkManager all_vehicles
                                  (next_id (update_all_vehicles (vehicle_manager self)
                                              CONFIG.SIMULATION_TIMESTEP)))
                               (c_bsm c) (c_cwm c) (c_prevented c)))).
  { apply net_bind; [apply net_deliver_items|intros d].
    apply net_bind; [apply net_vehicles_loop|intros [vs c]]. apply net_ret. }
  eapply K. exact H.
Qed.

Lemma net_run_ticks (n : nat) :
  forall self, net_steps R (run_ticks n self).
Proof.
  induction n as [|n IH]; intros self; cbn [run_ticks].
  - apply net_ret.
  - apply net_bind; [apply net_simulation_tick|apply IH].
Qed.

End NetSteps.

Lemma packet_counts_refl (n : NetworkSimulator) : packet_counts n n.
Proof. unfold packet_counts. lia. Qed.

Lemma packet_counts_trans (a b c : NetworkSimulator) :
  packet_counts a b -> packet_counts b c -> packet_counts a c.
Proof. unfold packet_counts. lia. Qed.

Lemma packet_counts_broadcast (v : string) (m : V2VMessage) (h : bytes) :
  net_steps packet_counts (broadcast_message v m h).
Proof.
  intros s a s' H. revert H. unfold broadcast_message.
  unfold bind, get_net, put_net, randint_1_100. cbn [net dice dice_idx].
  destruct (fle _ _); intros H; inversion H; subst; unfold packet_counts;
    cbn [net lost_packets total_packets history List.length];
    rewrite ?Nat2Z.inj_succ; lia.
Qed.

Lemma packet_counts_latency (n : NetworkSimulator)
    (pending : list (bytes * (string * V2VMessage))) (latency : Q) :
  packet_counts n (mkNet pending (lost_packets n) (total_packets n) latency (history n)).
Proof. unfold packet_counts. simpl. lia. Qed.

(** X21.  Over a run of any number of ticks neither packet counter goes down,
    no more packets are counted lost than were sent, and [total_packets]
    grows by the number of calls of [broadcast_message].  Started with
    [0 <= lost_packets <= total_packets], as a new simulator is, the run
    ends with a packet loss between 0 and 1. *)
Theorem run_ticks_packet_counts (n : nat) (self : SimulationEngine) (s : Sys)
    (e : SimulationEngine) (s' : Sys) :
  run_ticks n self s = Ok e s' ->
  packet_counts (net s) (net s')
  /\ ((0 <= lost_packets (net s) <= total_packets (net s))%Z ->
      (0 <= lost_packets (net s') <= total_packets (net s'))%Z
      /\ exists loss, get_packet_loss (net s') = inr loss /\ 0 <= loss <= 1).
Proof.
  intros H.
  assert (P : packet_counts (net s) (net s')).
  { eapply (net_run_ticks packet_counts packet_counts_refl packet_counts_trans
              packet_counts_broadcast packet_counts_latency); exact H. }
  split; [exact P|]. intros H0.
  assert (B : (0 <= lost_packets (net s') <= total_packets (net s'))%Z)
    by (unfold packet_counts in P; lia).
  split; [exact B|].
  unfold get_packet_loss, py_div.
  destruct (Z.eqb_spec (total_packets (net s')) 0) as [E|E].
  - exists 0. split; [reflexivity|lra].
  - eexists. split; [reflexivity|].
    unfold fdiv. rewrite Qred_correct.
    assert (T : 0 < inject_Z (total_packets (net s'))).
    { replace 0 with (inject_Z 0) by reflexivity. rewrite <- Zlt_Qlt. lia. }
    split.
    + apply Qle_shift_div_l; [exact T|]. rewrite Qmult_0_l.
      replace 0 with (inject_Z 0) by reflexivity. rewrite <- Zle_Qle. lia.
    + apply Qle_shift_div_r; [exact T|]. rewrite Qmult_1_l.
      rewrite <- Zle_Qle. lia.
Qed.

(** ** Vehicle ids *)

Lemma string_of_Z_digits (n : Z) :
  (0 <= n)%Z ->
  exists d, string_of_Z n = NilEmpty.string_of_uint d /\ Z.of_uint d = n.
Proof.
  intros Hn. unfold string_of_Z. destruct n as [|p|p]; [| |lia].
  - exists (Decimal.D0 Decimal.Nil). split; reflexivity.
  - exists (Pos.to_uint p).
    pose proof (DecimalZ.of_to (Z.pos p)) as E. cbn [Z.to_int Z.of_int] in E.
    split; [|exact E]. cbn [Z.to_int NilZero.string_of_int].
    destruct (Pos.to_uint p) eqn:Ed; try reflexivity.
    discriminate E.
Qed.

Lemma parse_format_vehicle_id (n : Z) :
  (0 <= n)%Z -> parse_vehicle_id (format_vehicle_id n) = Some n.
Proof.
  intros Hn. destruct (string_of_Z_digits n Hn) as (d & Es & Ed).
  unfold format_vehicle_id.
  replace (n <? 0)%Z with false by (symmetry; apply Z.ltb_ge; exact Hn).
  rewrite Z.abs_eq by exact Hn. rewrite Es. cbn [String.length Nat.add].
  destruct (String.length (NilEmpty.string_of_uint d)) as [|[|[|l]]];
    cbn [parse_vehicle_id String.append NilEmpty.uint_of_string];
    rewrite ?NilEmpty.usu; cbn; rewrite ?NilEmpty.usu; cbn; now rewrite <- Ed.
Qed.

(** X22.  [create_vehicle] numbers the vehicles apart: two numbers that are not
    negative give two ids, unless they are the same number. *)
Theorem format_vehicle_id_injective (n m : Z) :
  (0 <= n)%Z -> (0 <= m)%Z ->
  format_vehicle_id n = format_vehicle_id m -> n = m.
Proof.
  intros Hn Hm E.
  pose proof (parse_format_vehicle_id n Hn) as Pn.
  pose proof (parse_format_vehicle_id m Hm) as Pm.
  rewrite E in Pn. congruence.
Qed.

Lemma sdict_set_keys {V} (d : list (string * V)) (k : string) (v : V) :
  PyDict.get String.eqb d k = None ->
  PyDict.set String.eqb d k v = d ++ [(k, v)].
Proof.
  induction d as [|[k' v'] d IH]; simpl; [reflexivity|].
  destruct (String.eqb k' k); [discriminate|].
  intros H. now rewrite IH.
Qed.

Lemma sdict_get_set_same {V} (d : list (string * V)) (k : string) (v : V) :
  PyDict.get String.eqb (PyDict.set String.eqb d k v) k = Some v.
Proof.
  induction d as [|[k' v'] d IH]; simpl.
  - now rewrite String.eqb_refl.
  - destruct (String.eqb k' k) eqn:E; simpl; rewrite E; auto.
Qed.

Lemma sdict_get_set_other {V} (d : list (string * V)) (k k' : string) (v : V) :
  k <> k' ->
  PyDict.get String.eqb (PyDict.set String.eqb d k v) k' = PyDict.get String.eqb d k'.
Proof.
  intros Hne. induction d as [|[k0 v0] d IH]; simpl.
  - destruct (String.eqb k k') eqn:E; [|reflexivity].
    apply String.eqb_eq in E. contradiction.
  - destruct (String.eqb k0 k) eqn:E; simpl.
    + apply String.eqb_eq in E. subst k0.
      destruct (String.eqb k k') eqn:E'; [|reflexivity].
      apply String.eqb_eq in E'. contradiction.
    + destruct (String.eqb k0 k'); auto.
Qed.

(** X23.  On a manager whose ids were all made by [create_vehicle], as they
    are from [VehicleManager()] on, [create_vehicle] returns an id that
    was not in use, stores the new vehicle under it at the end of the
    dictionary, leaves every other entry as it is, and makes the count one
    higher. *)
Theorem create_vehicle_fresh (self : VehicleManager) (position : Q * Q)
    (velocity : Q) :
  numbered self ->
  let self' := fst (create_vehicle self position velocity) in
  let vehicle_id := snd (create_vehicle self position velocity) in
  numbered self'
  /\ get_vehicle self vehicle_id = None
  /\ get_vehicle self' vehicle_id = Some (new_Vehicle vehicle_id position velocity)
  /\ (forall k, k <> vehicle_id -> get_vehicle self' k = get_vehicle self k)
  /\ vehicles self' = vehicles self ++ [(vehicle_id, new_Vehicle vehicle_id position velocity)]
  /\ get_vehicle_count self' = (get_vehicle_count self + 1)%Z.
Proof.
  intros [H0 Hk]. cbv zeta. unfold create_vehicle. cbn [fst snd].
  unfold get_vehicle, get_vehicle_count. cbn [vehicles next_id].
  assert (Hfresh : PyDict.get String.eqb (vehicles self)
                              (format_vehicle_id (next_id self)) = None).
  { apply sdict_get_None. intros Hin.
    destruct (Hk _ Hin) as (i & Hi & E).
    apply (f_equal parse_vehicle_id) in E.
    rewrite !parse_format_vehicle_id in E by lia.
    inversion E. lia. }
  pose proof (sdict_set_keys (vehicles self) (format_vehicle_id (next_id self))
                (new_Vehicle (format_vehicle_id (next_id self)) position velocity)
                Hfresh) as Eset.
  split; [|split; [exact Hfresh|]].
  - split; [cbn [next_id]; lia|]. cbn [vehicles next_id]. intros k Hin.
    rewrite Eset, map_app, in_app_iff in Hin. destruct Hin as [Hin|Hin].
    + destruct (Hk _ Hin) as (i & Hi & E). exists i. split; [lia|exact E].
    + simpl in Hin. destruct Hin as [<-|[]]. exists (next_id self). split; [lia|reflexivity].
  - split; [apply sdict_get_set_same|].
    split; [intros k Hne; apply sdict_get_set_other; congruence|].
    split; [exact Eset|].
    rewrite Eset, length_app. simpl. lia.
Qed.

End Simulator.

(** * The theorems at concrete inputs *)

(** ** C10 *)

Lemma stats_without_packets_witness :
  total_packets empty_net = 0%Z
  /\ get_average_latency empty_net = inr 0
  /\ get_packet_loss empty_net = inr 0.
Proof.
  split; [reflexivity|]. apply (stats_without_packets empty_net). reflexivity.
Defined.

(** ** C1 *)

(** A BSM built at clock reading 1000 and sent at reading 1001: the
    digest that travels is that of the message stamped 1000. *)
Lemma first_transmission_digest_mismatch_witness :
  (forall c, MsgBSM digest_bsm = MsgCWM c ->
     cwms (connection_for (outgoing_cwms new_protocol) (cwm_target_vehicle_id c)) = [])
  /\ get_message_hash ideal_sha256
       (set_timestamp (stamp_time (MsgBSM digest_bsm) (sys_at (ticking_clock 1001)))
                      (MsgBSM digest_bsm))
     <> get_message_hash ideal_sha256 (MsgBSM digest_bsm)
  /\ exists self' s',
       send ideal_sha256 new_protocol "V001" (MsgBSM digest_bsm)
            (sys_at (ticking_clock 1001))
       = Ok self' s'
       /\ history (net s')
          = mkFrame "V001"
              (set_timestamp (stamp_time (MsgBSM digest_bsm) (sys_at (ticking_clock 1001)))
                             (MsgBSM digest_bsm))
              (get_message_hash ideal_sha256 (MsgBSM digest_bsm))
            :: history (net (sys_at (ticking_clock 1001)))
       /\ receive ideal_sha256 new_protocol "V002"
            (set_timestamp (stamp_time (MsgBSM digest_bsm) (sys_at (ticking_clock 1001)))
                           (MsgBSM digest_bsm))
            (get_message_hash ideal_sha256 (MsgBSM digest_bsm))
          = new_protocol.
Proof.
  assert (H1 : forall c, MsgBSM digest_bsm = MsgCWM c ->
            cwms (connection_for (outgoing_cwms new_protocol) (cwm_target_vehicle_id c)) = [])
    by (intros c Hc; discriminate Hc).
  assert (H2 : get_message_hash ideal_sha256
                 (set_timestamp (stamp_time (MsgBSM digest_bsm) (sys_at (ticking_clock 1001)))
                                (MsgBSM digest_bsm))
               <> get_message_hash ideal_sha256 (MsgBSM digest_bsm))
    by (vm_compute; discriminate).
  split; [exact H1|]. split; [exact H2|].
  exact (first_transmission_digest_mismatch ideal_sha256 new_protocol "V001"
           (MsgBSM digest_bsm) (sys_at (ticking_clock 1001)) new_protocol "V002" H1 H2).
Defined.

(** The whole path.  V001 builds a BSM and sends it, the loss sampler
    keeps it, and the medium delivers it to V002, 10 m away: with a clock
    that moves between the two readings V002's inbound queue stays empty;
    with a clock that stands still the BSM is queued. *)
Lemma bsm_lost_to_the_digest_check :
  let v1 := new_Vehicle "V001" (0, 0) CONFIG.HIGHWAY_SPEED in
  let v2 := new_Vehicle "V002" (10, 0) CONFIG.HIGHWAY_SPEED in
  let scenario :=
    (r <- generate_bsm v1 0 ;;
     v1' <- send_message ideal_sha256 (fst r) (MsgBSM (snd r)) ;;
     deliver_messages ideal_sha256 [("V001"%string, v1'); ("V002"%string, v2)])%py in
  match scenario (sys_at (ticking_clock 1000)), scenario (sys_at (frozen_clock 1000)) with
  | Ok moving s, Ok still s' =>
      total_packets (net s) = 1%Z /\ lost_packets (net s) = 0%Z
      /\ inbound_of moving "V002" = Some []
      /\ total_packets (net s') = 1%Z /\ lost_packets (net s') = 0%Z
      /\ option_map (@List.length _) (inbound_of still "V002") = Some 1%nat
  | _, _ => False
  end.
Proof. vm_compute. repeat split. Qed.

(** ** C2 *)



(** ** C3 *)

Lemma compute_ttc_not_smallest_witness :
  np_roots_examples [1; -5 # 1; 6] = [of_real 3; of_real 2]
  /\ compute_ttc np_roots_examples ttc_rear ttc_front = Some (of_real 3)
  /\ gap_at ttc_rear ttc_front 2 == 0
  /\ 0 < 2 /\ 2 < 3.
Proof.
  split; [reflexivity|].
  apply (compute_ttc_not_smallest np_roots_examples). reflexivity.
Defined.

(** ** C4 *)

(** The loop body and the order of the specification, on the same vehicle
    and state, with the clock at 10.  In the loop body [manage] reaps the
    idle connection before the detector reads its sequence number, and the
    warning goes out with number 0; in the order of the specification the
    detector still finds the connection, and the number is 3. *)
Lemma manage_runs_before_detection :
  match vehicle_step ideal_sha256 np_roots_examples 0 order_vehicle
                     (mkCounters 0 0 0) (sys_at (frozen_clock 10)),
        vehicle_step_spec_order ideal_sha256 np_roots_examples 0 order_vehicle
                     (mkCounters 0 0 0) (sys_at (frozen_clock 10))
  with
  | Ok _ s, Ok _ s' =>
      aired_cwm_sequence (net s) = [0%Z] /\ aired_cwm_sequence (net s') = [3%Z]
  | _, _ => False
  end.
Proof. vm_compute. split; reflexivity. Qed.

Lemma vehicle_step_order_witness :
  vehicle_step ideal_sha256 np_roots_examples 0 order_vehicle (mkCounters 0 0 0)
               (sys_at (frozen_clock 10))
  = (vehicle <- process_messages ideal_sha256 order_vehicle ;;
     vehicle <- vehicle_manage ideal_sha256 vehicle ;;
     r <- collision_phase ideal_sha256 np_roots_examples vehicle (mkCounters 0 0 0) ;;
     bsm_phase ideal_sha256 0 (fst r) (snd r))%py (sys_at (frozen_clock 10)).
Proof.
  exact (vehicle_step_order ideal_sha256 np_roots_examples 0 order_vehicle
           (mkCounters 0 0 0) (sys_at (frozen_clock 10))).
Defined.

(** ** C5 *)

(** V001 expects CWM 1 of V002.  CWM 2 is dropped, CWM 1 is acknowledged
    and returned, CWM 0 is acknowledged and passed over. *)
Lemma process_cwm_by_sequence_witness :
  let s := sys_at (frozen_clock 7) in
  let used := set_last_use 7 (mkConn [] 0 0 0 1) in
  let table1 := [("V002"%string, used)] in
  (recv_seq_num (connection_for (table_expecting 1) "V002") < 2)%Z
  /\ (exists s',
        process_queue ideal_sha256 [MsgCWM (cwm_from_peer 2)] (table_expecting 1) "V001" s
        = process_queue ideal_sha256 [] table1 "V001" s'
        /\ net s' = net s)
  /\ (1 <= recv_seq_num (connection_for (table_expecting 1) "V002"))%Z
  /\ (exists s' t h,
        history (net s')
        = mkFrame "V001" (MsgACK (mkACK "V001" t 1 "V002")) h :: history (net s)
        /\ process_queue ideal_sha256 [MsgCWM (cwm_from_peer 1)] (table_expecting 1) "V001" s
           = Ok (mkProtocol [("V002"%string, inc_recv_seq_num used)] [],
                 Some (MsgCWM (cwm_from_peer 1))) s')
  /\ (0 < recv_seq_num (connection_for (table_expecting 1) "V002"))%Z
  /\ (exists s' t h,
        history (net s')
        = mkFrame "V001" (MsgACK (mkACK "V001" t 0 "V002")) h :: history (net s)
        /\ process_queue ideal_sha256 [MsgCWM (cwm_from_peer 0)] (table_expecting 1) "V001" s
           = process_queue ideal_sha256 [] table1 "V001" s').
Proof.
  cbv zeta.
  assert (H2 : (recv_seq_num (connection_for (table_expecting 1) "V002") < 2)%Z)
    by (vm_compute; reflexivity).
  assert (H1 : (1 <= recv_seq_num (connection_for (table_expecting 1) "V002"))%Z)
    by (vm_compute; discriminate).
  assert (H0 : (0 < recv_seq_num (connection_for (table_expecting 1) "V002"))%Z)
    by (vm_compute; reflexivity).
  split; [exact H2|]. split.
  { destruct (proj1 (process_cwm_by_sequence ideal_sha256 (cwm_from_peer 2) []
                       (table_expecting 1) "V001" (sys_at (frozen_clock 7))) H2)
      as (s' & E & Hn & _).
    exists s'. split; [exact E|exact Hn]. }
  split; [exact H1|]. split.
  { destruct (proj2 (process_cwm_by_sequence ideal_sha256 (cwm_from_peer 1) []
                       (table_expecting 1) "V001" (sys_at (frozen_clock 7))) H1)
      as (s' & t & h & Hh & Heq & _).
    exists s', t, h. split; [exact Hh|]. exact (proj1 (Heq eq_refl)). }
  split; [exact H0|].
  assert (H0' : (0 <= recv_seq_num (connection_for (table_expecting 1) "V002"))%Z)
    by (vm_compute; discriminate).
  destruct (proj2 (process_cwm_by_sequence ideal_sha256 (cwm_from_peer 0) []
                     (table_expecting 1) "V001" (sys_at (frozen_clock 7))) H0')
    as (s' & t & h & Hh & _ & Hlt).
  exists s', t, h. split; [exact Hh|]. exact (proj1 (Hlt H0)).
Defined.

(** ** C6 *)

(** Two CWMs wait for V002 and its ACK 0 comes in: the first leaves, the
    second goes on air. *)
Lemma process_ack_expected_witness :
  let s := sys_at (ticking_clock 7) in
  conn_get table_two_waiting (ack_vehicle_id (ack_from_peer 0))
  = Some (mkConn [cwm_to_peer 0; cwm_to_peer 0] 0 0 0 0)
  /\ ack_sequence_number (ack_from_peer 0) = 0%Z
  /\ exists conn' s',
       process_queue ideal_sha256 [MsgACK (ack_from_peer 0)] table_two_waiting "V001" s
       = process_queue ideal_sha256 [] (conn_set table_two_waiting "V002" conn') "V001" s'
       /\ send_seq_num conn' = 1%Z
       /\ cwms conn' = [cwm_set_timestamp (now (tick (tick s))) (cwm_to_peer 0)]
       /\ transmit_time conn' = now (tick s)
       /\ history (net s')
          = [mkFrame "V001"
               (MsgCWM (cwm_set_timestamp (now (tick (tick s))) (cwm_to_peer 0)))
               (get_message_hash ideal_sha256
                  (MsgCWM (cwm_set_timestamp (now (tick (tick s))) (cwm_to_peer 0))))].
Proof.
  cbv zeta.
  split; [reflexivity|]. split; [reflexivity|].
  destruct (process_ack_expected ideal_sha256 (ack_from_peer 0) [] table_two_waiting
              "V001" (sys_at (ticking_clock 7))
              (mkConn [cwm_to_peer 0; cwm_to_peer 0] 0 0 0 0)
              (cwm_to_peer 0) [cwm_to_peer 0] eq_refl eq_refl eq_refl)
    as (conn' & s' & E & _ & Hs & _ & _ & Hq & Ht & Hh).
  exists conn', s'. repeat split; assumption.
Defined.

(** ** C7 *)

(** V001 has had CWMs 0 and 1 acknowledged by V002; the ACK 1 comes in
    again when the clock reads 7.  The connection's [last_use] moves from 0
    to 7: the state of the protocol is not what it was. *)
Lemma stale_ack_touches_last_use :
  match process ideal_sha256 (mkProtocol table_after_two [MsgACK (ack_from_peer 1)])
                "V001" (sys_at (frozen_clock 7)) with
  | Ok (p, _) _ =>
      option_map last_use (conn_get table_after_two "V002") = Some 0
      /\ option_map last_use (conn_get (outgoing_cwms p) "V002") = Some 7
      /\ outgoing_cwms p <> table_after_two
  | Raise _ => False
  end.
Proof. vm_compute. repeat split. discriminate. Qed.

Lemma process_ack_stale_witness :
  conn_get table_after_two (ack_vehicle_id (ack_from_peer 1)) = Some (mkConn [] 0 0 2 0)
  /\ (ack_sequence_number (ack_from_peer 1) < send_seq_num (mkConn [] 0 0 2 0))%Z
  /\ exists conn' s',
       process_queue ideal_sha256 [MsgACK (ack_from_peer 1)] table_after_two "V001"
                     (sys_at (frozen_clock 7))
       = process_queue ideal_sha256 [] (conn_set table_after_two "V002" conn') "V001" s'
       /\ net s' = net (sys_at (frozen_clock 7))
       /\ cwms conn' = []
       /\ send_seq_num conn' = 2%Z
       /\ last_use conn' = 7.
Proof.
  assert (H : (ack_sequence_number (ack_from_peer 1) < send_seq_num (mkConn [] 0 0 2 0))%Z)
    by (vm_compute; reflexivity).
  split; [reflexivity|]. split; [exact H|].
  destruct (process_ack_stale ideal_sha256 (ack_from_peer 1) [] table_after_two "V001"
              (sys_at (frozen_clock 7)) (mkConn [] 0 0 2 0) eq_refl H)
    as (conn' & s' & E & Hn & _ & _ & Hq & _ & Hs & _ & Hl).
  exists conn', s'. repeat split; assumption.
Defined.

(** ** C8 *)



(** ** C9 *)

(** V001 handles the BSM of V002, stamped 1, when the clock reads 2: the
    belief is stamped 2. *)
Lemma belief_timestamp_is_the_clock :
  match handle_message (vehicle_at_origin "V001" CONFIG.HIGHWAY_SPEED)
                       (MsgBSM belief_bsm) (sys_at (frozen_clock 2)) with
  | Ok v _ =>
      option_map vs_timestamp (vmap_get (vehicle_map v) "V002") = Some 2
      /\ bsm_timestamp belief_bsm = 1
      /\ ~ 2 == bsm_timestamp belief_bsm
  | Raise _ => False
  end.
Proof. vm_compute. repeat split. discriminate. Qed.

Lemma received_bsm_overwrites_belief_witness :
  exists self',
    handle_message (vehicle_at_origin "V001" CONFIG.HIGHWAY_SPEED) (MsgBSM belief_bsm)
                   (sys_at (frozen_clock 2))
    = Ok self' (tick (sys_at (frozen_clock 2)))
    /\ vmap_get (vehicle_map self') "V002"
       = Some (mkVehicleState 2 (40, 0) CONFIG.CITY_SPEED 0 0 CONFIG.VEHICLE_LENGTH
                              CONFIG.VEHICLE_WIDTH).
Proof.
  destruct (received_bsm_overwrites_belief
              (vehicle_at_origin "V001" CONFIG.HIGHWAY_SPEED) belief_bsm
              (sys_at (frozen_clock 2)))
    as (self' & E & Hg & _).
  exists self'. split; [exact E|exact Hg].
Defined.

(** * The further properties at concrete inputs *)

(** ** Physics *)

(** V001 brakes from highway speed for one time step. *)
Lemma update_physics_emergency_witness :
  emergency_braking braking_vehicle = true
  /\ 0 <= CONFIG.SIMULATION_TIMESTEP
  /\ 0 <= v_velocity braking_vehicle
  /\ v_acceleration (update_physics braking_vehicle CONFIG.SIMULATION_TIMESTEP)
     == - CONFIG.MAX_DECELERATION
  /\ 0 <= v_velocity (update_physics braking_vehicle CONFIG.SIMULATION_TIMESTEP)
     <= v_velocity braking_vehicle.
Proof.
  assert (Hb : emergency_braking braking_vehicle = true) by reflexivity.
  assert (Hd : 0 <= CONFIG.SIMULATION_TIMESTEP) by (vm_compute; discriminate).
  assert (Hv : 0 <= v_velocity braking_vehicle) by (vm_compute; discriminate).
  split; [exact Hb|]. split; [exact Hd|]. split; [exact Hv|].
  destruct (update_physics_emergency braking_vehicle CONFIG.SIMULATION_TIMESTEP Hb Hd Hv)
    as (Ha & Hle & _).
  split; [exact Ha|exact Hle].
Defined.

(** V001 at 5 m/s moves along [x] only. *)
Lemma update_physics_straight_line_witness :
  direction ttc_rear = (1, 0)
  /\ 0 <= CONFIG.SIMULATION_TIMESTEP
  /\ snd (v_position (update_physics ttc_rear CONFIG.SIMULATION_TIMESTEP))
     == snd (v_position ttc_rear)
  /\ fst (v_position ttc_rear)
     <= fst (v_position (update_physics ttc_rear CONFIG.SIMULATION_TIMESTEP)).
Proof.
  assert (Hd : direction ttc_rear = (1, 0)) by reflexivity.
  assert (Ht : 0 <= CONFIG.SIMULATION_TIMESTEP) by (vm_compute; discriminate).
  split; [exact Hd|]. split; [exact Ht|].
  destruct (update_physics_straight_line ttc_rear CONFIG.SIMULATION_TIMESTEP Hd Ht)
    as (Hy & Hx & _).
  split; [exact Hy|exact Hx].
Defined.

(** V001 at its target velocity of 5 m/s stays at it. *)
Lemma update_physics_cruise_witness :
  emergency_braking ttc_rear = false
  /\ v_velocity ttc_rear == target_velocity ttc_rear
  /\ 0 <= v_velocity ttc_rear
  /\ v_velocity (update_physics ttc_rear CONFIG.SIMULATION_TIMESTEP)
     == v_velocity ttc_rear.
Proof.
  assert (He : emergency_braking ttc_rear = false) by reflexivity.
  assert (Ht : v_velocity ttc_rear == target_velocity ttc_rear) by reflexivity.
  assert (Hv : 0 <= v_velocity ttc_rear) by (vm_compute; discriminate).
  split; [exact He|]. split; [exact Ht|]. split; [exact Hv|].
  exact (proj2 (update_physics_cruise ttc_rear CONFIG.SIMULATION_TIMESTEP He Ht Hv)).
Defined.

(** ** The medium *)

(** With the sample 50 the packet is kept and waits under its digest. *)
Lemma broadcast_message_loss_witness :
  let s := sys_at (frozen_clock 7) in
  (5 < dice s (dice_idx s))%Z
  /\ exists s',
       broadcast_message "V001" (MsgBSM digest_bsm) [] s = Ok tt s'
       /\ lost_packets (net s') = lost_packets (net s)
       /\ PyDict.get bytes_eqb (all_messages (net s')) []
          = Some ("V001"%string, MsgBSM digest_bsm).
Proof.
  cbv zeta.
  assert (H : (5 < dice (sys_at (frozen_clock 7)) (dice_idx (sys_at (frozen_clock 7))))%Z)
    by reflexivity.
  split; [exact H|].
  destruct (broadcast_message_loss "V001" (MsgBSM digest_bsm) [] (sys_at (frozen_clock 7)))
    as (s' & E & _ & _ & _ & Hkept).
  exists s'. split; [exact E|].
  destruct (Hkept H) as (Hl & Hg & _). split; [exact Hl|exact Hg].
Defined.

(** V002, [COMMUNICATION_RANGE] ahead of V001 on the same lane, is in
    range of it, and so V001 is in range of V002. *)
Lemma in_range_symmetric_witness :
  in_range (vehicle_at_origin "V001" CONFIG.HIGHWAY_SPEED) vehicle_at_range = true
  /\ in_range vehicle_at_range (vehicle_at_origin "V001" CONFIG.HIGHWAY_SPEED) = true.
Proof.
  assert (H : in_range (vehicle_at_origin "V001" CONFIG.HIGHWAY_SPEED) vehicle_at_range
              = true)
    by reflexivity.
  split; [exact H|].
  rewrite <- (proj1 (in_range_symmetric
                       (vehicle_at_origin "V001" CONFIG.HIGHWAY_SPEED) vehicle_at_range)).
  exact H.
Defined.

(** V001's BSM reaches V002, 10 m ahead. *)
Lemma deliver_one_recipients_witness :
  let all := vehicles (vehicle_manager fleet_two) in
  let v2 := new_Vehicle "V002" (10, 0) CONFIG.HIGHWAY_SPEED in
  let v2' := receive_message ideal_sha256 v2 (MsgBSM digest_bsm) [] in
  In ("V002"%string, v2') (deliver_one ideal_sha256 "V001" (MsgBSM digest_bsm) [] all)
  /\ exists v,
       In ("V002"%string, v) all
       /\ (v2' = v
           \/ (v_vehicle_id v <> "V001"%string
               /\ (exists sender, PyDict.get String.eqb all "V001"%string = Some sender
                                  /\ in_range v sender = true)
               /\ v2' = receive_message ideal_sha256 v (MsgBSM digest_bsm) [])).
Proof.
  cbv zeta.
  assert (H : In ("V002"%string,
                  receive_message ideal_sha256
                    (new_Vehicle "V002" (10, 0) CONFIG.HIGHWAY_SPEED)
                    (MsgBSM digest_bsm) [])
                 (deliver_one ideal_sha256 "V001" (MsgBSM digest_bsm) []
                    (vehicles (vehicle_manager fleet_two))))
    by (right; left; reflexivity).
  split; [exact H|].
  exact (deliver_one_recipients ideal_sha256 "V001" (MsgBSM digest_bsm) []
           (vehicles (vehicle_manager fleet_two)) "V002" _ H).
Defined.

(** ** Messages and the protocol *)

(** A CWM stamped later than a BSM still comes first. *)
Lemma msg_lt_priority_order_witness :
  message_type (MsgCWM (cwm_from_peer 0)) = CWM
  /\ message_type (MsgBSM belief_bsm) <> CWM
  /\ msg_lt (MsgCWM (cwm_from_peer 0)) (MsgBSM belief_bsm) = true
  /\ msg_lt (MsgBSM belief_bsm) (MsgCWM (cwm_from_peer 0)) = false.
Proof.
  assert (Ha : message_type (MsgCWM (cwm_from_peer 0)) = CWM) by reflexivity.
  assert (Hb : message_type (MsgBSM belief_bsm) <> CWM) by discriminate.
  split; [exact Ha|]. split; [exact Hb|].
  exact (proj1 (proj2 (proj2 (proj2 msg_lt_priority_order))) _ _ Ha Hb).
Defined.

(** V001 sends its first CWM to V002 and V002's ACK 0 comes in. *)
Lemma send_then_ack_witness :
  let s := sys_at (frozen_clock 7) in
  let before := connection_for (outgoing_cwms new_protocol) "V002" in
  cwms before = []
  /\ ack_vehicle_id (ack_from_peer 0) = cwm_target_vehicle_id (cwm_to_peer 0)
  /\ ack_sequence_number (ack_from_peer 0) = send_seq_num before
  /\ exists self1 s1 after,
       send ideal_sha256 new_protocol "V001" (MsgCWM (cwm_to_peer 0)) s = Ok self1 s1
       /\ process_queue ideal_sha256 [MsgACK (ack_from_peer 0)] (outgoing_cwms self1)
                        "V001" s1
          = process_queue ideal_sha256 [] (conn_set (outgoing_cwms self1) "V002" after)
                          "V001" (tick s1)
       /\ cwms after = []
       /\ send_seq_num after = 1%Z.
Proof.
  cbv zeta.
  split; [reflexivity|]. split; [reflexivity|]. split; [reflexivity|].
  destruct (send_then_ack ideal_sha256 new_protocol "V001" (cwm_to_peer 0)
              (ack_from_peer 0) [] (sys_at (frozen_clock 7))
              eq_refl eq_refl eq_refl)
    as (self1 & s1 & after & E1 & E2 & _ & Hq & Hs & _).
  exists self1, s1, after. repeat split; assumption.
Defined.

(** V002's ACK 2 finds nothing waiting on a connection that expects it. *)
Lemma process_ack_nothing_waiting_witness :
  conn_get table_after_two (ack_vehicle_id (ack_from_peer 2)) = Some (mkConn [] 0 0 2 0)
  /\ ack_sequence_number (ack_from_peer 2) = send_seq_num (mkConn [] 0 0 2 0)
  /\ process ideal_sha256 (mkProtocol table_after_two [MsgACK (ack_from_peer 2)]) "V001"
             (sys_at (frozen_clock 7))
     = Raise IndexError.
Proof.
  split; [reflexivity|]. split; [reflexivity|].
  exact (process_ack_nothing_waiting ideal_sha256 (ack_from_peer 2) [] table_after_two
           "V001" (sys_at (frozen_clock 7)) (mkConn [] 0 0 2 0)
           eq_refl eq_refl eq_refl).
Defined.

(** V001 with V002's BSM in its inbound queue. *)
Lemma process_messages_drains_witness :
  let self :=
    receive_message ideal_sha256 (vehicle_at_origin "V001" CONFIG.HIGHWAY_SPEED)
                    (MsgBSM belief_bsm)
                    (get_message_hash ideal_sha256 (MsgBSM belief_bsm)) in
  incoming_messages (v_protocol self) = [MsgBSM belief_bsm]
  /\ exists v s',
       process_messages ideal_sha256 self (sys_at (frozen_clock 2)) = Ok v s'
       /\ incoming_messages (v_protocol v) = [].
Proof.
  cbv zeta. split; [vm_compute; reflexivity|].
  assert (E : exists v s',
             process_messages ideal_sha256
               (receive_message ideal_sha256
                  (vehicle_at_origin "V001" CONFIG.HIGHWAY_SPEED) (MsgBSM belief_bsm)
                  (get_message_hash ideal_sha256 (MsgBSM belief_bsm)))
               (sys_at (frozen_clock 2)) = Ok v s')
    by (eexists _, _; vm_compute; reflexivity).
  destruct E as (v & s' & E). exists v, s'. split; [exact E|].
  exact (proj1 (process_messages_drains ideal_sha256 _ _ _ _ E)).
Defined.

(** The connection with two CWMs waiting is still there after
    [Protocol.manage]. *)
Lemma manage_keeps_waiting_witness :
  NoDup (map fst table_two_waiting)
  /\ exists self' s',
       manage ideal_sha256 (mkProtocol table_two_waiting []) "V001"
              (sys_at (frozen_clock 7))
       = Ok self' s'
       /\ exists c', conn_get (outgoing_cwms self') "V002" = Some c'.
Proof.
  assert (Hn : NoDup (map fst table_two_waiting))
    by (simpl; constructor; [simpl; tauto|constructor]).
  split; [exact Hn|].
  destruct (manage_keeps_waiting ideal_sha256 (mkProtocol table_two_waiting []) "V001"
              (sys_at (frozen_clock 7)) Hn)
    as (self' & s' & E & _ & _ & Hkeep).
  exists self', s'. split; [exact E|].
  apply (Hkeep "V002"%string (mkConn [cwm_to_peer 0; cwm_to_peer 0] 0 0 0 0)).
  - reflexivity.
  - discriminate.
Defined.

(** V001 believes V002 as of clock reading 10; at reading 20
    [Vehicle.manage] adds nothing to the belief map. *)
Lemma vehicle_manage_prunes_witness :
  NoDup (map fst (vehicle_map order_vehicle))
  /\ exists v s',
       vehicle_manage ideal_sha256 order_vehicle (sys_at (frozen_clock 20)) = Ok v s'
       /\ forall k st, vmap_get (vehicle_map v) k = Some st ->
                       vmap_get (vehicle_map order_vehicle) k = Some st.
Proof.
  assert (Hn : NoDup (map fst (vehicle_map order_vehicle)))
    by (simpl; constructor; [simpl; tauto|constructor]).
  split; [exact Hn|].
  assert (E : exists v s',
             vehicle_manage ideal_sha256 order_vehicle (sys_at (frozen_clock 20))
             = Ok v s')
    by (eexists _, _; vm_compute; reflexivity).
  destruct E as (v & s' & E). exists v, s'. split; [exact E|].
  exact (proj1 (vehicle_manage_prunes ideal_sha256 order_vehicle _ v s' Hn E)).
Defined.

(** ** Time to collision *)

(** At the input of C3 the value returned is one of the two roots. *)
Lemma compute_ttc_sound_witness :
  In (of_real 3) (np_roots_examples (ttc_coeff ttc_rear ttc_front))
  /\ npc_gt (of_real 3) (of_real 0) = true
  /\ npc_isfinite (of_real 3) = true.
Proof. exact (compute_ttc_sound np_roots_examples ttc_rear ttc_front). Defined.

(** ** Ticks and runs *)

(** Two vehicles, one tick. *)
Lemma simulation_tick_frame_witness :
  exists e s',
    simulation_tick ideal_sha256 np_roots_examples fleet_two (sys_at (ticking_clock 1000))
    = Ok e s'
    /\ next_id (vehicle_manager e) = next_id (vehicle_manager fleet_two)
    /\ env_now e = fadd (env_now fleet_two) CONFIG.SIMULATION_TIMESTEP
    /\ (total_cwm_count e - total_cwm_count fleet_two
        = collisions_prevented e - collisions_prevented fleet_two)%Z.
Proof.
  assert (E : exists e s',
             simulation_tick ideal_sha256 np_roots_examples fleet_two
                             (sys_at (ticking_clock 1000)) = Ok e s')
    by (eexists _, _; vm_compute; reflexivity).
  destruct E as (e & s' & E). exists e, s'. split; [exact E|].
  destruct (simulation_tick_frame ideal_sha256 np_roots_examples _ _ _ _ E)
    as (_ & Hn & Ht & _ & _ & Hp).
  repeat split; assumption.
Defined.

(** The braking vehicle over three ticks. *)
Lemma run_ticks_emergency_witness :
  exists e s',
    run_ticks ideal_sha256 np_roots_examples 3 fleet_braking (sys_at (ticking_clock 1000))
    = Ok e s'
    /\ Forall2 (fun kv kv' =>
                  fst kv' = fst kv
                  /\ (emergency_braking (snd kv) = true ->
                      0 <= v_velocity (snd kv) ->
                      emergency_braking (snd kv') = true
                      /\ 0 <= v_velocity (snd kv') <= v_velocity (snd kv)))
               (vehicles (vehicle_manager fleet_braking)) (vehicles (vehicle_manager e)).
Proof.
  assert (E : exists e s',
             run_ticks ideal_sha256 np_roots_examples 3 fleet_braking
                       (sys_at (ticking_clock 1000)) = Ok e s')
    by (eexists _, _; vm_compute; reflexivity).
  destruct E as (e & s' & E). exists e, s'. split; [exact E|].
  exact (run_ticks_emergency ideal_sha256 np_roots_examples 3 _ _ _ _ E).
Defined.

(** Two vehicles over twelve ticks. *)
Lemma run_ticks_fleet_and_clock_witness :
  exists e s',
    run_ticks ideal_sha256 np_roots_examples 12 fleet_two (sys_at (ticking_clock 1000))
    = Ok e s'
    /\ map fst (vehicles (vehicle_manager e)) = ["V001"%string; "V002"%string]
    /\ next_id (vehicle_manager e) = 3%Z
    /\ 0 <= env_now e
    /\ (0 <= total_bsm_count e <= 24)%Z.
Proof.
  assert (E : exists e s',
             run_ticks ideal_sha256 np_roots_examples 12 fleet_two
                       (sys_at (ticking_clock 1000)) = Ok e s')
    by (eexists _, _; vm_compute; reflexivity).
  destruct E as (e & s' & E). exists e, s'. split; [exact E|].
  destruct (run_ticks_fleet_and_clock ideal_sha256 np_roots_examples 12 _ _ _ _ E)
    as (Hk & Hn & _ & Ht & Hb & _).
  split; [exact Hk|]. split; [exact Hn|]. split; [exact Ht|exact Hb].
Defined.

(** The same run: the packet counters. *)
Lemma run_ticks_packet_counts_witness :
  exists e s',
    run_ticks ideal_sha256 np_roots_examples 12 fleet_two (sys_at (ticking_clock 1000))
    = Ok e s'
    /\ (0 <= lost_packets (net (sys_at (ticking_clock 1000)))
        <= total_packets (net (sys_at (ticking_clock 1000))))%Z
    /\ (0 <= lost_packets (net s') <= total_packets (net s'))%Z
    /\ exists loss, get_packet_loss (net s') = inr loss /\ 0 <= loss <= 1.
Proof.
  assert (E : exists e s',
             run_ticks ideal_sha256 np_roots_examples 12 fleet_two
                       (sys_at (ticking_clock 1000)) = Ok e s')
    by (eexists _, _; vm_compute; reflexivity).
  assert (H0 : (0 <= lost_packets (net (sys_at (ticking_clock 1000)))
                <= total_packets (net (sys_at (ticking_clock 1000))))%Z)
    by (simpl; lia).
  destruct E as (e & s' & E). exists e, s'. split; [exact E|]. split; [exact H0|].
  exact (proj2 (run_ticks_packet_counts ideal_sha256 np_roots_examples 12 _ _ _ _ E) H0).
Defined.

(** ** Vehicle ids *)

(** The number 7, written as [3 + 4], gives the id of 7. *)
Lemma format_vehicle_id_injective_witness :
  (0 <= 7)%Z
  /\ (0 <= 3 + 4)%Z
  /\ format_vehicle_id 7 = "V007"%string
  /\ format_vehicle_id (3 + 4) = "V007"%string
  /\ 7%Z = (3 + 4)%Z.
Proof.
  assert (H7 : (0 <= 7)%Z) by lia.
  assert (H34 : (0 <= 3 + 4)%Z) by lia.
  split; [exact H7|]. split; [exact H34|].
  split; [reflexivity|]. split; [reflexivity|].
  exact (format_vehicle_id_injective 7 (3 + 4) H7 H34 eq_refl).
Defined.

(** A third vehicle for the fleet of two. *)
Lemma create_vehicle_fresh_witness :
  numbered (vehicle_manager fleet_two)
  /\ snd (create_vehicle (vehicle_manager fleet_two) (20, 0) CONFIG.CITY_SPEED)
     = "V003"%string
  /\ get_vehicle (vehicle_manager fleet_two) "V003" = None
  /\ get_vehicle_count
       (fst (create_vehicle (vehicle_manager fleet_two) (20, 0) CONFIG.CITY_SPEED))
     = 3%Z.
Proof.
  assert (Hn : numbered (vehicle_manager fleet_two)).
  { split; [vm_compute; discriminate|].
    intros k Hin. simpl in Hin.
    destruct Hin as [<-|[<-|[]]]; [exists 1%Z|exists 2%Z];
      (split; [vm_compute; split; [discriminate|reflexivity]|reflexivity]). }
  split; [exact Hn|]. split; [reflexivity|].
  destruct (create_vehicle_fresh (vehicle_manager fleet_two) (20, 0) CONFIG.CITY_SPEED Hn)
    as (_ & Hfresh & _ & _ & _ & Hcount).
  split; [exact Hfresh|exact Hcount].
Defined.
